(* ===== verification/_CoqProject ===== *)
-Q . S2P
Prelude.v
Layout.v
Checksum.v
Detect.v
Link.v
Packet.v
Send.v
SendLoop.v
SendRef.v
Recv.v
Tree.v
Segments.v
Net.v
NetHeap.v
Stack.v
Pointers.v
