(* ===== verification/Prelude.v ===== *)
(** * tcpip: a verification development for the network layer of kzemek/tcpip

    ** The program

    The repository is a small user-space IPv6-like network layer in C:

    - [src/src/ip.c]: the packet layout ([ip_packet_t]), destination
      resolution ([ip_to_hw]), the segmented transmitter ([ip_send]), the
      receiver ([ip_recv]), the pseudo-header ([pseudo_packet_t]), the
      one's-complement addition ([add_with_carry]) and the checksum
      ([ip_chksum]);
    - [src/src/net.c]: the session life cycle ([net_init], [net_free]) and the
      protocol dispatcher ([net_send], [net_recv]).

    A caller opens a session with [net_init], which allocates it, opens a
    link handle with [hw_init] and reads the interface address; [ip_send]
    builds a packet in a local buffer from the session and the payload and
    hands it to [eth_send] until the payload is gone or the link fails;
    [ip_recv] takes a frame from [eth_recv] and copies what follows the
    header to the caller; [ip_chksum] sums a pseudo-header and the payload.

    The headers ([ip.h], [net.h], [common.h], [ethernet.h], [hw.h], [tcp.h])
    are not part of the sources: the constants and the session structure they
    declare are parameters of the model (classes [IpParams] of [Layout.v] and
    [ProtoIds] of [Net.v]), and the functions they declare are interfaces
    ([LinkLayer] of [Link.v] for [eth_send] and [eth_recv]; [System] of
    [Net.v] for [malloc], [free], [hw_init], [hw_if_addr], [hw_free],
    [tcp_send], [tcp_recv]).  Every theorem on the code is proved for all
    instances of these classes; concrete instances show that the classes are
    inhabited and let the model run.

    ** Files, in the order of their dependencies

    - [Prelude.v] (this file): machine integers as [Z] with explicit
      wrap-around ([wrap], [u16], [u32], [usize], [not32]), the [result]
      monad of faults with its [let*] notation, memory as [list byte] with
      bounds-checked [load], [store], [memcpy], [memmove], [memset],
      uninitialised locals ([alloca]), network byte order ([htons],
      [htonl]), 16-bit words of a buffer ([load16], [words]), and the lemma
      library, tactics ([zmod], [len], [unwrap_small], [bind_inv],
      [by_decide]) and hint
      databases ([wrap], [mem]) the components share.  The lemmas
      [store_frontier] and [memcpy_frontier] are what the proofs on packet
      construction use: a store at the end of the part written so far.
    - [Layout.v]: the constants as the class [IpParams] with the relations
      between them, two instances ([ipv6_ethernet]: 16-byte addresses,
      1460-byte payload; [small_params]: an 80-byte payload for evaluation),
      the record [session] for [session_t], the byte offsets of the fields of
      the packed unions [ip_packet_t] and [pseudo_packet_t].
    - [Checksum.v]: [add_with_carry] and [ip_chksum] ([build_pseudo],
      [chksum_loop], [chksum_finish]), the reference sum [ones_sum].
    - [Detect.v]: the changes of a payload that the value of [ip_chksum]
      detects, and those it does not.
    - [Link.v]: the class [LinkLayer] and the instances [wire] (answers
      scripted in advance), [policy] (the bytes taken are a function of the
      frame length), [loopback] (frames sent are the frames received) and
      [chunked] (the first [mtu] bytes of each frame are taken and
      delivered); the classes of links the theorems speak of ([honest],
      [all_or_nothing], [progressing], [header_only], [short_only]).
    - [Packet.v]: [ip_to_hw] and [build_packet], the field stores of
      [ip_send] (lines 45-54), with the header they produce ([ip_header]) and
      the accessors that read a header back.
    - [Send.v]: [ip_send] as [send_iter] (one iteration of the do-while
      loop, lines 64-73), [send_loop] (the loop) and [ip_send] (the whole
      function), and the transmitter of the specification [send_spec]; the
      behaviour of one call on each answer of the link.
    - [SendLoop.v]: the loop of [ip_send] on every link of a class, by
      induction on the iterations.
    - [SendRef.v]: the loop of [ip_send] as a function on lists
      ([ref_loop], [send_ref]): a header, a data area that slides
      ([slide]) and a count, without buffer, [size_t] or [memmove].
    - [Recv.v]: [ip_recv] and its case-by-case reference [ip_recv_ref].
    - [Tree.v]: [ip_send] and [ip_recv] once more, as interaction trees
      ([ip_send_tree], [send_loop_tree], [send_iter_tree], [ip_recv_tree]):
      the calls of the link are events ([linkE]), the do-while loop is
      [ITree.iter] and takes no fuel, and a link of the class [LinkLayer]
      interprets the events ([handle_link]).
    - [Segments.v]: [ip_send], [send_spec] and [ip_recv] on the link
      [chunked], where a payload goes out in several frames: the frames
      as a function of the payload ([frames], defined with Equations by
      recursion on the bytes left), [ip_send] over the link
      ([send_chunked]) and a receiver that reads every frame ([recv_all]).
    - [Net.v]: [net_init], [net_free], [net_send], [net_recv] on sessions
      passed by value, the step relation [net_step] on the sessions a caller
      holds and its part [free_step], the invariants [net_inv] and
      [sessions_wf], and the executable system [sim].
    - [NetHeap.v]: the same four functions with their pointer arguments
      ([net_init_p], [net_free_p], [net_send_p], [net_recv_p]), over a heap
      of cells that are live or freed ([cell], [deref]); the calls with
      defined behaviour as the step relation [heap_step].
    - [Stack.v]: the session of [net_init] in the hands of [ip_send],
      [ip_recv] and [ip_chksum].
    - [Pointers.v]: [ip_send] and [ip_chksum] with their session pointer
      ([ip_send_p], [ip_chksum_p]) on the heap of [NetHeap.v].

    ** What the theorems show

    - Checksum: [add_with_carry] is one's-complement addition
      ([add_with_carry_spec]), associative and commutative; the loop computes
      [fold16] of the plain sum of the words ([ones_sum_ref]), which does not
      depend on their order ([ones_sum_Permutation]) nor, up to a byte swap,
      on the byte order of the host ([ip_chksum_byte_order]); [ip_chksum]
      returns the complement of that sum over the pseudo-header and the
      payload whatever the stack held ([ip_chksum_ok]), a value that
      verifies ([ip_chksum_verifies]) and that does not change when the two
      addresses change places ([ip_chksum_swap_addresses]); no counter or
      accumulator overflows ([ip_chksum_bounds]); the final test of the
      code compares on 32 bits and never holds ([chksum_finish_complement]);
      the last byte of an odd payload is not summed ([ip_chksum_odd_length]);
      a payload longer than the maximum overruns the local buffer
      ([ip_chksum_too_long]).
    - Error detection: a change of one 16-bit word changes the sum unless
      the word changes by 65535 ([ones_sum_detects]), so the checksum of a
      payload changes with every change of a single byte that is summed
      ([ip_chksum_detects_byte], with [summed] for the bytes the loop
      reaches); it does not change when a word 0x0000 becomes 0xFFFF
      ([ip_chksum_blind_ones]) nor when whole words change places
      ([ip_chksum_blind_reorder]).
    - Packet: every field of the header built by [ip_send] reads back as
      the value the code stored ([build_packet_fields]); [ip_to_hw] returns
      the multicast address and 0 for every input ([ip_to_hw_multicast]).
    - Transmitter: the behaviour of [ip_send] on each course of the loop:
      the link takes the packet whole ([ip_send_one_shot]), fails
      ([ip_send_link_down], and [ip_send_link_down_overrun] when the
      wrapped-around length makes [memmove] leave the buffer), takes a part
      ([ip_send_partial_then_all]: the second frame carries bytes displaced
      by IP_HEADER_LEN; [ip_send_partial_overrun]), takes less than a header
      ([ip_send_short_then_all]: the packet grows); on links that take a
      frame whole or not at all the code is the transmitter of the
      specification ([ip_send_refines_spec]); on links that make progress the
      loop ends ([ip_send_terminates]), without a fault when the payload
      leaves IP_HEADER_LEN bytes of room ([ip_send_safe]), and on a link that
      takes the header only it does not end
      ([ip_send_header_only_diverges]); a link that always takes less than a
      header makes the packet grow until [memmove] leaves it
      ([ip_send_short_link_overruns]), and one that reports more than it was
      handed makes the call fault at once ([ip_send_overreport]); whatever
      the link answers, every frame begins with the header built before the
      loop ([ip_send_frames_header], on the scripted link, which records the
      frames).
    - Transmitter, every course of the loop at once: on every link that
      reports no more than it was handed, [ip_send] is [send_ref]
      ([ip_send_ref_equiv], from [send_iter_ref] for one iteration and
      [send_loop_ref] for the loop); the theorems above on honest links are
      its instances, and the difference with [send_spec] is the offset of
      [slide].
    - Transmitter, without fuel: the tree [ip_send_tree] returns what
      [ip_send] returns with enough fuel, and nothing else
      ([ip_send_tree_fuel]: [ip_send_tree_returns] by induction on the
      fuel, [ip_send_tree_leaf] by the invariant rule of the library for
      the leaves of a loop).  The theorems on the loop with fuel are
      therefore theorems on the loop: it returns on every link that makes
      progress ([ip_send_tree_terminates]) and has no leaf on a link that
      takes the header only ([ip_send_tree_diverges]).  The tree of
      [ip_recv] returns what [ip_recv] returns ([ip_recv_tree_run]).
    - Segments: over a link that takes [mtu] bytes of each frame, the
      transmitter of the specification delivers the payload in as many
      frames as it takes ([spec_loop_chunked_delivers],
      [send_spec_delivers]).  The code is [send_chunked]
      ([ip_send_chunked_frames], from [ref_loop_chunked_frames]): it reads
      past the local [packet] when a payload that needs a second frame
      leaves less than [IP_HEADER_LEN] bytes of room, and otherwise
      reports success after exactly as many iterations as [frames] has
      frames ([length_frames]: the payload length divided by
      [mtu - IP_HEADER_LEN], rounded up), each frame the header
      ([frames_header]) and the next bytes of a data area that has slid
      [IP_HEADER_LEN] bytes too far; the frames carry as many bytes as the
      payload has ([length_delivered_frames], [ip_send_chunked_count]);
      the tree of [ip_send] returns the same ([ip_send_tree_chunked]).
      A receiver that calls [ip_recv] once for each frame
      ([recv_all_chunked]) reads the payload when one frame was enough,
      and otherwise, after the first [mtu - IP_HEADER_LEN] bytes, the byte
      at offset [mtu] of the sender's data area ([send_recv_frames]; byte
      for byte for two frames in [send_recv_two_frames]); [delivered] is
      what the frames in flight carry after their headers.
    - Receiver: the result of [ip_recv] on every frame and buffer, faults
      included, as the reference [ip_recv_ref] ([ip_recv_cases], from
      [ip_recv_none], [ip_recv_strip], [ip_recv_short_frame],
      [ip_recv_long_frame] and [ip_recv_small_buffer]), and the round trip
      of [ip_send] and [ip_recv] over a loopback link
      ([send_recv_roundtrip]).
    - Sessions: [net_init] leaks nothing on failure ([net_init_no_leak],
      [net_init_unsupported]), which calls it has made and what the
      session holds when it returns one ([net_init_session], from
      [net_init_calls], [net_init_fields] and [net_init_resources]),
      [net_free] gives it back
      ([net_init_free_roundtrip]); the invariants of the life cycle by
      induction on the steps: resources ([net_inv_reachable],
      [net_closed_no_leak]) and well-formed sessions ([net_sessions_wf]);
      from every reachable state one call of [net_free] for each session
      held ([free_step]) leads back to the resources of the start
      ([net_release_all]); which sessions reach
      the transport ([net_send_tcp_session], [net_dispatch_stub]).
    - Pointers: the runs of the pointer-level functions refine the life
      cycle ([heap_run_refines], a forward simulation with the relation
      [abstracts]); a pointer can be read exactly when its block is live
      ([deref_defined_iff_allocated]); what is read through a live pointer
      is the same session after every call but [net_free] on that pointer,
      because [net_init] never returns a pointer that is in use
      ([live_session_stable], from [net_init_fresh]).
    - Composition: a session of [net_init] sends ([net_session_ip_send]);
      two sessions, a send, a receive and the checksum computed on both
      sides ([stack_end_to_end]); through every live pointer of every
      reachable heap, [ip_send] and [ip_chksum] find the session they need
      ([reachable_session_usable], from the invariant [sessions_wf] of
      [net.c] and the refinement of [NetHeap.v]).

    A theorem that other proofs build on is stated twice: as a lemma that
    carries the proof ([ip_chksum_value], [chksum_finish_small],
    [ones_sum_fold16], [add_with_carry_ones], [ip_send_all], [ip_send_down],
    [ip_recv_payload], [ip_recv_short_frame_fault], [send_recv_pair],
    [ip_to_hw_eq], [ip_send_send_ref], [ip_send_frames],
    [ip_send_progress_fuel], [ip_send_header_only_fuel]) and as the
    theorem proved from it,
    so that no theorem of the list above depends on another.

    Each theorem with a hypothesis has a witness next to it (the sections
    [Witnesses]) that applies it to a concrete input, over [small_params],
    the links of [Link.v] and the system [example_sim].  The conditions on
    the arguments ([send_args_ok], [chksum_args_ok], [summed]) are decidable
    ([Decision] instances), and the witnesses discharge them by evaluation
    ([by_decide]).

    ** Modelling conventions

    - A C object of [n] bytes is a [list byte] of length [n]. A local
      variable declared without initialiser starts with indeterminate
      contents: the model takes them from an argument [stack] through
      [alloca], so that theorems can state which results depend on them.
    - An access outside an object is undefined behaviour in C; the model
      returns [Fault OutOfBounds]. A copy of zero bytes touches no byte and
      never faults, whatever its pointers.  A read through a pointer to a
      session that is null or freed returns [Fault InvalidPointer].
    - [size_t] is 64 bits wide (LP64); [uint16_t] and [uint32_t] are as named.
      Every conversion to a narrower or unsigned type is written as a [wrap].
    - The do-while loop of [ip_send] ends only if the link lets it: the
      model takes a [fuel] argument, one unit per iteration, and returns
      [Fault OutOfFuel] when it runs out.  [ip_send_terminates] shows that
      [min(data_len, IP_DATA_MAX_LEN) + 1] units are enough on every link
      that fails or takes at least one byte of payload per call, since each
      iteration then takes at least one byte off [data_left];
      [ip_send_header_only_diverges] shows that no fuel is enough otherwise.
      That the fuel is a device of the model and not a bound of the code
      is itself a theorem: [Tree.v] has the loop as [ITree.iter], which
      unfolds as often as the link makes it, and [ip_send_tree_fuel] shows
      that the model with fuel returns exactly what that tree returns.
      [ref_loop] and [spec_loop] take the same fuel, and the equivalence
      [ip_send_ref_equiv] holds for every fuel, the fault [OutOfFuel]
      included; [send_spec_delivers] needs one unit per byte of payload and
      one more.  Over the link [chunked] the fuel needed is known exactly:
      [ip_send_chunked_frames] returns a value with one unit for each
      frame of [frames] and [Fault OutOfFuel] with fewer.  [frames] itself
      needs no fuel: it is defined by well-founded recursion on the bytes
      left to send, without the axiom of functional extensionality, and
      evaluates on closed inputs.
      The loop of [ip_chksum] is bounded by its counter and needs no fuel.
    - In [Net.v] the session is passed by value: [net_init] returns the
      pointer and the record it points to, and the allocator is seen through
      the set of live blocks ([allocated]) and the set of open link handles
      ([opened]).  [NetHeap.v] adds the heap that maps a pointer to its
      session, and its theorems carry the results of [Net.v] over.

    ** What the model assumes of the code that is not in the sources

    - Constants ([IpParams]): [IP_HEADER_LEN = 8 + 2 * IP_ADDR_LEN] (the
      fields of [ip_packet_t] that [ip.c] stores, packed),
      [IP_PACKET_MAX_LEN = IP_HEADER_LEN + IP_DATA_MAX_LEN],
      [IP_DATA_MAX_LEN < 2^16] (the length field has 16 bits) and
      [0 < ETH_ADDR_LEN <= 6] (the address [ip_to_hw] writes has six
      bytes).  With other values in [ip.h] the theorems say nothing.
    - Enumerators ([ProtoIds]): [TCP] and [UDP] of [protocol_t] and the
      protocol numbers are free; only [TCP <> UDP] is assumed, so that
      [net_send_tcp_session] states on which condition a session reaches
      the transport.
    - Link ([LinkLayer]): [eth_send] and [eth_recv] get the session by
      value and cannot write to it; [eth_recv] returns the frame it
      writes, and the count it returns in C is the length of that frame.
      [send_iter] reads the [IP_HEADER_LEN + data_left] bytes of the frame
      from the local packet before the call, so that a frame longer than
      the packet is a fault of [ip_send], not of the link; [ip_recv]
      stores the frame in its local packet, so that a frame longer than
      the packet is a fault of [ip_recv].
    - System ([SystemLaws]): [malloc] returns null or a block that was not
      allocated; [free] releases the block; [hw_init] returns -1 or a
      handle that was not open; [hw_free] closes the handle whatever
      status it returns; [hw_if_addr], [tcp_send] and [tcp_recv] neither
      allocate nor open anything, and get the session by value although
      [net.c] passes them the pointer: they cannot write to the session.
      The invariants of [Net.v] and [NetHeap.v] rest on these.
    - Integers that the code keeps in a machine type and the model in [Z]
      without a wrap: the argument [data_len] of [ip_send] and
      [ip_chksum] (a [size_t]; [send_args_ok] and [chksum_args_ok] keep it
      between 0 and the length of the payload) and the counter [i] of the
      loop of [ip_chksum] (an [int]; [ip_chksum_bounds] shows that it
      stays below [2^31]).
    - Freed cells: [net_free_p] marks the cell of its pointer as freed
      itself, next to the call of [free] in [net_free];
      [deref_defined_iff_allocated] shows that the two agree in every
      reachable heap.

    ** Axioms

    The development states none.  Two of its files load libraries that
    do: [Segments.v] loads Equations, whose own axiom of functional
    extensionality no definition or proof of the file uses (the flag
    [Equations With Funext] is off); [Tree.v] loads ITree, and the
    theorems on the leaves of the tree ([ip_send_tree_leaf] and what
    follows from it) use the invariant rule of the library, which rests on
    the axiom [eq_rect_eq] of the Standard Library.  Every other theorem
    is closed under the global context.

    ** What is not modelled

    - The implementations of the link layer, the hardware layer, the
      allocator and the TCP transport: they are not in the sources, the
      specification puts them out of scope (section 1), and they are
      interfaces with contracts ([SystemLaws]) or with none ([LinkLayer]).
      Every line of code of the two source files is modelled.
    - A link that reports more than it was handed, beyond the first call
      ([ip_send_overreport]): [ip_send_ref_equiv] is for honest links.
    - A repaired transmitter: [send_spec] is the contract of the
      specification, and no C code of the repository implements it on
      links that take a part of a frame.
    - What a call does after undefined behaviour: a fault ends the run.
      [heap_step] and [net_step] have the calls with defined behaviour as
      their steps, so their invariants speak of the callers that respect
      the life cycle.
    - The length of the session's [src_addr]: the session holds the bytes
      [hw_if_addr] returns ([net_init_session]), however many, and the
      sources never read them.
    - Concurrency: the code has none, and the specification asks callers to
      serialise their calls.
    - What [eth_recv] overwrites when it writes a frame longer than the
      local packet of [ip_recv]: the model writes the frame with [store],
      which faults ([ip_recv_long_frame]). *)

From Stdlib Require Export ZArith Lia.
From stdpp Require Export base tactics option list numbers.
From coqutil Require Export Byte.

#[global] Open Scope Z_scope.

Declare Scope tcpip_scope.
Delimit Scope tcpip_scope with tcpip.

(** ** Machine integers *)

Definition wrap (w z : Z) : Z := z mod 2 ^ w.
Definition u8 (z : Z) : Z := wrap 8 z.
Definition u16 (z : Z) : Z := wrap 16 z.
Definition u32 (z : Z) : Z := wrap 32 z.
Definition usize (z : Z) : Z := wrap 64 z.

Definition UINT16_MAX : Z := 65535.

(** [~x] on an unsigned 32-bit operand. *)
Definition not32 (z : Z) : Z := u32 (Z.lnot z).

(** ** Faults and the result monad *)

Inductive fault : Set :=
| OutOfBounds
| OutOfFuel
| InvalidPointer.

Inductive result (A : Type) : Type :=
| Ok (a : A)
| Fault (f : fault).

Arguments Ok {A} a.
Arguments Fault {A} f.

Definition bind {A B : Type} (m : result A) (k : A -> result B) : result B :=
  match m with
  | Ok a => k a
  | Fault f => Fault f
  end.

Notation "'let*' x ':=' m 'in' k" := (bind m (fun x => k))
  (at level 10, x name, m at level 100, k at level 200, only parsing) : tcpip_scope.
Notation "'let*' ' p ':=' m 'in' k" := (bind m (fun x => match x with p => k end))
  (at level 10, p pattern, m at level 100, k at level 200, only parsing) : tcpip_scope.

#[global] Open Scope tcpip_scope.

Definition rmap {A B : Type} (f : A -> B) (m : result A) : result B :=
  match m with
  | Ok a => Ok (f a)
  | Fault e => Fault e
  end.

Definition is_ok {A : Type} (m : result A) : bool :=
  match m with Ok _ => true | Fault _ => false end.

#[export] Instance fault_eq_dec : EqDecision fault.
Proof. solve_decision. Defined.

#[export] Instance result_eq_dec {A : Type} `{EqDecision A} : EqDecision (result A).
Proof. solve_decision. Defined.

#[export] Instance byte_eq_dec : EqDecision byte.
Proof.
  intros a b. destruct (Byte.eqb a b) eqn:E.
  - left. by apply Byte.byte_dec_bl.
  - right. intros Heq%Byte.byte_dec_lb. congruence.
Defined.

#[export] Instance byte_inhabited : Inhabited byte := populate Byte.x00.

(** ** Memory: objects are lists of bytes *)

(** A local object of [n] bytes whose initial contents are whatever the stack
    held: the first [n] bytes of [stack]. *)
Definition alloca (n : Z) (stack : list byte) : list byte :=
  resize (Z.to_nat n) Byte.x00 stack.

(** Whether the [n] bytes at offset [off] lie inside an object of [len]
    bytes.  A range of no bytes is always accepted. *)
Definition in_bounds (off n : Z) (len : nat) : bool :=
  (n =? 0) || ((0 <=? off) && (0 <=? n) && (off + n <=? Z.of_nat len)).

Definition slice (buf : list byte) (off n : Z) : list byte :=
  take (Z.to_nat n) (drop (Z.to_nat off) buf).

Definition splice (buf : list byte) (off : Z) (bs : list byte) : list byte :=
  take (Z.to_nat off) buf ++ bs ++ drop (Z.to_nat off + length bs) buf.

Definition load (buf : list byte) (off n : Z) : result (list byte) :=
  if in_bounds off n (length buf) then Ok (slice buf off n) else Fault OutOfBounds.

Definition store (buf : list byte) (off : Z) (bs : list byte) : result (list byte) :=
  if in_bounds off (Z.of_nat (length bs)) (length buf)
  then Ok (if decide (bs = []) then buf else splice buf off bs)
  else Fault OutOfBounds.

(** [memcpy(dst + doff, src + soff, n)]. *)
Definition memcpy (dst : list byte) (doff : Z) (src : list byte) (soff n : Z)
  : result (list byte) :=
  let* bs := load src soff n in store dst doff bs.

(** [memmove(buf + doff, buf + soff, n)]: the source is read before the
    destination is written, so the ranges may overlap. *)
Definition memmove (buf : list byte) (doff soff n : Z) : result (list byte) :=
  memcpy buf doff buf soff n.

(** [memset(buf + off, c, n)]. *)
Definition memset (buf : list byte) (off : Z) (c : byte) (n : Z) : result (list byte) :=
  store buf off (replicate (Z.to_nat n) c).

(** ** Byte order *)

Inductive endianness : Set :=
| LittleEndian
| BigEndian.

#[export] Instance endianness_eq_dec : EqDecision endianness.
Proof. solve_decision. Defined.

(** The bytes in memory of a 16-bit and of a 32-bit value in network (big
    endian) order: what [htons] and [htonl] leave in memory on any host. *)
Definition be16 (z : Z) : list byte :=
  [byte.of_Z (z / 2 ^ 8); byte.of_Z z].

Definition be32 (z : Z) : list byte :=
  [byte.of_Z (z / 2 ^ 24); byte.of_Z (z / 2 ^ 16); byte.of_Z (z / 2 ^ 8); byte.of_Z z].

Definition htons (z : Z) : list byte := be16 (u16 z).
Definition htonl (z : Z) : list byte := be32 (u32 z).

(** The value of the 16-bit object made of the bytes [b0] (lower address) and
    [b1], read by a host of the given byte order. *)
Definition word16 (e : endianness) (b0 b1 : byte) : Z :=
  match e with
  | LittleEndian => byte.unsigned b0 + 2 ^ 8 * byte.unsigned b1
  | BigEndian => 2 ^ 8 * byte.unsigned b0 + byte.unsigned b1
  end.

(** Exchange of the two bytes of a 16-bit value. *)
Definition swap16 (z : Z) : Z := (z mod 2 ^ 8) * 2 ^ 8 + z / 2 ^ 8.

(** [buffer[i]] for a [uint16_t buffer[]] that overlays the bytes [buf]. *)
Definition load16 (e : endianness) (buf : list byte) (i : Z) : result Z :=
  let* bs := load buf (2 * i) 2 in
  match bs with
  | [b0; b1] => Ok (word16 e b0 b1)
  | _ => Fault OutOfBounds
  end.

(** The bytes of [buf] as 16-bit words; a trailing odd byte is left out. *)
Fixpoint words (e : endianness) (buf : list byte) : list Z :=
  match buf with
  | b0 :: b1 :: rest => word16 e b0 b1 :: words e rest
  | _ => []
  end.

(** ** Tactics and hint databases *)

Create HintDb wrap discriminated.
Create HintDb mem discriminated.
Create Rewrite HintDb wrap.
Create Rewrite HintDb mem.

Ltac unwrap := unfold u8, u16, u32, usize, not32, wrap, UINT16_MAX in *.

(** Arithmetic with [mod] and [/] by constants: expose the Euclidean
    equations, then [lia]. *)
Ltac zmod := unwrap; Z.div_mod_to_equations; lia.

(** Case analysis on the boolean comparisons of a goal. *)
Ltac cases_Z :=
  repeat match goal with
  | |- context [?a =? ?b] => destruct (Z.eqb_spec a b)
  | |- context [?a <=? ?b] => destruct (Z.leb_spec a b)
  | |- context [?a <? ?b] => destruct (Z.ltb_spec a b)
  | H : context [?a =? ?b] |- _ => destruct (Z.eqb_spec a b)
  | H : context [?a <=? ?b] |- _ => destruct (Z.leb_spec a b)
  | H : context [?a <? ?b] |- _ => destruct (Z.ltb_spec a b)
  end.

(** ** Lists with an element deleted *)

Section Delete.
Context {A : Type}.
Implicit Types (l : list A) (i : nat) (x y : A).

Lemma delete_split l i x :
  l !! i = Some x -> exists a b, l = a ++ x :: b /\ delete i l = a ++ b.
Proof.
  intros Hi. exists (take i l), (drop (S i) l).
  by rewrite take_drop_middle, delete_take_drop.
Qed.

Lemma elem_of_delete_ne l i x y :
  l !! i = Some x -> y <> x -> y ∈ l -> y ∈ delete i l.
Proof.
  intros (a & b & -> & ->)%delete_split Hne.
  rewrite !elem_of_app, elem_of_cons. tauto.
Qed.

Lemma elem_of_delete l i y : y ∈ delete i l -> y ∈ l.
Proof. intros. eapply elem_of_sublist; [done|apply sublist_delete]. Qed.

Lemma not_elem_of_delete l i x :
  NoDup l -> l !! i = Some x -> x ∉ delete i l.
Proof.
  intros Hnd (a & b & -> & ->)%delete_split.
  apply list.NoDup_app in Hnd as (_ & Ha & Hb).
  apply list.NoDup_cons in Hb as [Hb _].
  rewrite elem_of_app. intros [Hin | Hin]; [|done].
  apply (Ha x Hin). by left.
Qed.

End Delete.

(** ** Lemmas on machine integers *)

Section Wrap.
Implicit Types w z a b : Z.

Lemma wrap_range w z : 0 <= w -> 0 <= wrap w z < 2 ^ w.
Proof. intros. apply Z.mod_pos_bound. by apply Z.pow_pos_nonneg. Qed.

Lemma wrap_small w z : 0 <= z < 2 ^ w -> wrap w z = z.
Proof. intros. by apply Z.mod_small. Qed.

Lemma wrap_wrap w z : wrap w (wrap w z) = wrap w z.
Proof. apply Zmod_mod. Qed.

Lemma u16_range z : 0 <= u16 z < 65536.
Proof. apply (wrap_range 16). lia. Qed.

Lemma u32_range z : 0 <= u32 z < 4294967296.
Proof. apply (wrap_range 32). lia. Qed.

Lemma usize_range z : 0 <= usize z < 2 ^ 64.
Proof. apply (wrap_range 64). lia. Qed.

Lemma u16_small z : 0 <= z < 65536 -> u16 z = z.
Proof. apply (wrap_small 16). Qed.

Lemma u32_small z : 0 <= z < 4294967296 -> u32 z = z.
Proof. apply (wrap_small 32). Qed.

Lemma usize_small z : 0 <= z < 2 ^ 64 -> usize z = z.
Proof. apply (wrap_small 64). Qed.

(** A difference that underflows wraps to the top of the range. *)
Lemma usize_underflow a b :
  0 <= a < b -> b <= 2 ^ 64 -> usize (a - b) = 2 ^ 64 - (b - a).
Proof. intros. zmod. Qed.

Lemma not32_small z : 0 <= z < 4294967296 -> not32 z = 4294967295 - z.
Proof. intros. unfold not32, Z.lnot. unwrap. zmod. Qed.

End Wrap.

(** Remove the conversions that [lia] shows to be the identity, innermost
    first. *)
Ltac unwrap_small :=
  repeat match goal with
  | |- context [usize ?z] => rewrite (usize_small z) by lia
  | |- context [u32 ?z] => rewrite (u32_small z) by lia
  | |- context [u16 ?z] => rewrite (u16_small z) by lia
  end.

#[export] Hint Resolve u16_range u32_range usize_range : wrap.
#[export] Hint Rewrite wrap_wrap : wrap.
#[export] Hint Rewrite u16_small u32_small usize_small using lia : wrap.

(** ** Lemmas on the result monad *)

Section Result.
Context {A B : Type}.
Implicit Types (m : result A) (k : A -> result B).

Lemma bind_Ok a k : bind (Ok a) k = k a.
Proof. done. Qed.

Lemma bind_Fault f k : bind (Fault f) k = Fault f.
Proof. done. Qed.

Lemma bind_Ok_inv m k b :
  bind m k = Ok b -> exists a, m = Ok a /\ k a = Ok b.
Proof. destruct m; naive_solver. Qed.

Lemma bind_Fault_inv m k f :
  bind m k = Fault f -> m = Fault f \/ exists a, m = Ok a /\ k a = Fault f.
Proof. destruct m; naive_solver. Qed.

Lemma rmap_bind (f : A -> B) m : rmap f m = bind m (fun a => Ok (f a)).
Proof. by destruct m. Qed.

End Result.

#[export] Hint Rewrite @bind_Ok @bind_Fault : mem.

(** Split a successful sequence of binds into its steps. *)
Ltac bind_inv H :=
  repeat match type of H with
  | bind _ _ = Ok _ =>
      let x := fresh "x" in
      let Hx := fresh "Hx" in
      apply bind_Ok_inv in H as (x & Hx & H)
  end.

(** ** Lemmas on bytes and byte order *)

Section Bytes.
Implicit Types (b : byte) (z : Z) (e : endianness).

Lemma byte_range b : 0 <= byte.unsigned b < 256.
Proof. apply byte.unsigned_range. Qed.

Lemma byte_of_Z_small z : 0 <= z < 256 -> byte.unsigned (byte.of_Z z) = z.
Proof.
  intros. rewrite byte.unsigned_of_Z. unfold byte.wrap. by apply Z.mod_small.
Qed.

Lemma byte_of_Z_0 : byte.of_Z 0 = Byte.x00.
Proof. done. Qed.

Lemma word16_range e b0 b1 : 0 <= word16 e b0 b1 < 65536.
Proof.
  pose proof (byte_range b0). pose proof (byte_range b1).
  destruct e; simpl; lia.
Qed.

Lemma swap16_range z : 0 <= z < 65536 -> 0 <= swap16 z < 65536.
Proof. intros. unfold swap16. zmod. Qed.

Lemma swap16_involutive z : 0 <= z < 65536 -> swap16 (swap16 z) = z.
Proof. intros. unfold swap16. zmod. Qed.

(** Reading the same two bytes in the other byte order exchanges the halves. *)
Lemma word16_swap b0 b1 :
  word16 BigEndian b0 b1 = swap16 (word16 LittleEndian b0 b1).
Proof.
  pose proof (byte_range b0). pose proof (byte_range b1).
  unfold swap16. simpl. zmod.
Qed.

Lemma word16_be16 z : 0 <= z < 65536 ->
  match be16 z with
  | [b0; b1] => word16 BigEndian b0 b1 = z
  | _ => False
  end.
Proof.
  intros. simpl. rewrite !byte.unsigned_of_Z. unfold byte.wrap. zmod.
Qed.

Lemma length_be16 z : length (be16 z) = 2%nat.
Proof. done. Qed.

Lemma length_be32 z : length (be32 z) = 4%nat.
Proof. done. Qed.

Lemma length_htons z : length (htons z) = 2%nat.
Proof. done. Qed.

Lemma length_htonl z : length (htonl z) = 4%nat.
Proof. done. Qed.

Lemma words_app e (l1 l2 : list byte) :
  Nat.Even (length l1) -> words e (l1 ++ l2) = words e l1 ++ words e l2.
Proof.
  revert l2. induction l1 as [l1 IH] using (induction_ltof1 _ (@length byte)).
  unfold ltof in IH. intros l2 Hev.
  destruct l1 as [|b0 [|b1 l1]]; [done| |].
  - destruct Hev as [k Hk]. simpl in Hk. lia.
  - simpl. f_equal. apply IH; [simpl; lia|].
    destruct Hev as [k Hk]. exists (k - 1)%nat. simpl in Hk. lia.
Qed.

Lemma length_words e (l : list byte) : length (words e l) = (length l / 2)%nat.
Proof.
  induction l as [l IH] using (induction_ltof1 _ (@length byte)).
  unfold ltof in IH. destruct l as [|b0 [|b1 l]]; [done..|].
  cbn [words length]. rewrite IH by (simpl; lia).
  change (S (S (length l))) with (1 * 2 + length l)%nat.
  rewrite Nat.add_comm, Nat.div_add by lia. lia.
Qed.

Lemma Forall_words_range e (l : list byte) :
  Forall (fun w => 0 <= w < 65536) (words e l).
Proof.
  induction l as [l IH] using (induction_ltof1 _ (@length byte)).
  unfold ltof in IH. destruct l as [|b0 [|b1 l]]; [by constructor..|].
  cbn [words]. constructor; [apply word16_range|]. apply IH. simpl. lia.
Qed.

Lemma words_swap (l : list byte) :
  words BigEndian l = swap16 <$> words LittleEndian l.
Proof.
  induction l as [l IH] using (induction_ltof1 _ (@length byte)).
  unfold ltof in IH. destruct l as [|b0 [|b1 l]]; [done..|].
  cbn [words fmap list_fmap]. rewrite word16_swap. f_equal.
  apply IH. simpl. lia.
Qed.

Lemma words_take e (l : list byte) (n : nat) :
  words e (take (2 * n) l) = take n (words e l).
Proof.
  revert l. induction n as [|n IH]; intros l; [done|].
  replace (2 * S n)%nat with (S (S (2 * n))) by lia.
  destruct l as [|b0 [|b1 l]]; [done..|].
  cbn [take words]. by rewrite IH.
Qed.

(** A trailing odd byte does not contribute a word. *)
Lemma words_take_even e (l : list byte) :
  words e (take (2 * (length l / 2)) l) = words e l.
Proof. by rewrite words_take, <-(length_words e), firstn_all. Qed.

Lemma words_snoc_odd e (l : list byte) (b : byte) :
  Nat.Even (length l) -> words e (l ++ [b]) = words e l.
Proof. intros. rewrite words_app by done. simpl. apply app_nil_r. Qed.

Lemma words_replicate_zero e (n : nat) :
  words e (replicate n Byte.x00) = replicate (n / 2) 0.
Proof.
  induction n as [n IH] using lt_wf_ind.
  destruct n as [|[|n]]; [done..|].
  cbn [replicate words]. rewrite IH by lia.
  change (S (S n)) with (1 * 2 + n)%nat.
  rewrite Nat.add_comm, Nat.div_add by lia.
  rewrite Nat.add_1_r. by destruct e.
Qed.

End Bytes.

#[export] Hint Resolve byte_range word16_range : wrap.
#[export] Hint Rewrite length_be16 length_be32 length_htons length_htonl : mem.

(** Lengths of lists built from slices, appends and the codecs. *)
Ltac len :=
  unfold slice;
  repeat first
    [ rewrite length_app | rewrite length_take | rewrite length_drop
    | rewrite length_resize | rewrite length_replicate | rewrite length_cons
    | rewrite length_nil | rewrite length_htons | rewrite length_htonl
    | rewrite length_be16 | rewrite length_be32 ];
  try lia.

(** ** Lemmas on memory *)

Section Memory.
Implicit Types (buf bs src dst pre post : list byte) (off n : Z).

Lemma length_alloca n stack : length (alloca n stack) = Z.to_nat n.
Proof. apply length_resize. Qed.

Lemma alloca_exact n bs : Z.of_nat (length bs) = n -> alloca n bs = bs.
Proof. intros <-. unfold alloca. rewrite Nat2Z.id. apply resize_all. Qed.

Lemma in_bounds_true off n len :
  0 <= off -> 0 <= n -> off + n <= Z.of_nat len -> in_bounds off n len = true.
Proof. intros. unfold in_bounds. cases_Z; simpl; lia. Qed.

Lemma in_bounds_zero off len : in_bounds off 0 len = true.
Proof. done. Qed.

Lemma in_bounds_false off n len :
  0 < n -> Z.of_nat len < off + n -> in_bounds off n len = false.
Proof. intros. unfold in_bounds. cases_Z; simpl; lia. Qed.

Lemma in_bounds_spec off n len :
  in_bounds off n len = true <->
  n = 0 \/ (0 <= off /\ 0 < n /\ off + n <= Z.of_nat len).
Proof. unfold in_bounds. cases_Z; simpl; intuition lia. Qed.

Lemma length_slice buf off n :
  0 <= off -> 0 <= n -> off + n <= Z.of_nat (length buf) ->
  length (slice buf off n) = Z.to_nat n.
Proof. intros. unfold slice. rewrite length_take, length_drop. lia. Qed.

Lemma slice_zero buf off : slice buf off 0 = [].
Proof. done. Qed.

Lemma slice_all buf : slice buf 0 (Z.of_nat (length buf)) = buf.
Proof. unfold slice. rewrite Nat2Z.id. simpl. apply firstn_all. Qed.

Lemma slice_full buf n : n = Z.of_nat (length buf) -> slice buf 0 n = buf.
Proof. intros ->. apply slice_all. Qed.

Lemma slice_app_l pre post n :
  n = Z.of_nat (length pre) -> slice (pre ++ post) 0 n = pre.
Proof. intros ->. unfold slice. rewrite Nat2Z.id. simpl. apply take_app_length. Qed.

Lemma slice_app_r pre post off n :
  off = Z.of_nat (length pre) -> slice (pre ++ post) off n = slice post 0 n.
Proof.
  intros ->. unfold slice. rewrite Nat2Z.id. simpl. by rewrite drop_app_length.
Qed.

Lemma slice_app_mid pre mid post off n :
  off = Z.of_nat (length pre) -> n = Z.of_nat (length mid) ->
  slice (pre ++ mid ++ post) off n = mid.
Proof. intros. rewrite slice_app_r by done. by apply slice_app_l. Qed.

(** A slice from the start that runs past a prefix. *)
Lemma slice_app_prefix pre post j :
  0 <= j -> slice (pre ++ post) 0 (Z.of_nat (length pre) + j) = pre ++ slice post 0 j.
Proof.
  intros. unfold slice. rewrite !drop_0.
  replace (Z.to_nat (Z.of_nat (length pre) + j))
    with (length pre + Z.to_nat j)%nat by lia.
  by rewrite take_app_add'.
Qed.

Lemma slice_slice_0 buf n j : 0 <= j <= n -> slice (slice buf 0 n) 0 j = slice buf 0 j.
Proof.
  intros. unfold slice. rewrite !drop_0, take_take. f_equal. lia.
Qed.

(** The first [k] bytes of a slice from the start of a buffer are first bytes
    of the buffer: all [k] of them when the slice is that long. *)
Lemma slice_prefix buf n (k : nat) :
  (k <= length buf)%nat ->
  take k (slice buf 0 n) = take (length (slice buf 0 n)) (take k buf).
Proof.
  intros. unfold slice. change (Z.to_nat 0) with 0%nat.
  rewrite drop_0, !take_take, length_take. f_equal. lia.
Qed.

Lemma load_ok buf off n :
  0 <= off -> 0 <= n -> off + n <= Z.of_nat (length buf) ->
  load buf off n = Ok (slice buf off n).
Proof. intros. unfold load. by rewrite in_bounds_true. Qed.

Lemma load_zero buf off : load buf off 0 = Ok [].
Proof. done. Qed.

Lemma load_fault buf off n :
  0 < n -> Z.of_nat (length buf) < off + n -> load buf off n = Fault OutOfBounds.
Proof. intros. unfold load. by rewrite in_bounds_false. Qed.

Lemma load_Ok_inv buf off n bs :
  load buf off n = Ok bs -> bs = slice buf off n /\ in_bounds off n (length buf) = true.
Proof. unfold load. destruct (in_bounds _ _ _); naive_solver. Qed.

Lemma length_splice buf off bs :
  0 <= off -> off + Z.of_nat (length bs) <= Z.of_nat (length buf) ->
  length (splice buf off bs) = length buf.
Proof.
  intros. unfold splice. rewrite !length_app, length_take, length_drop. lia.
Qed.

Lemma store_ok buf off bs :
  0 <= off -> off + Z.of_nat (length bs) <= Z.of_nat (length buf) ->
  store buf off bs = Ok (splice buf off bs).
Proof.
  intros. unfold store. rewrite in_bounds_true by lia. f_equal.
  case_decide as Hbs; [|done]. subst bs. unfold splice. simpl.
  by rewrite Nat.add_0_r, take_drop.
Qed.

Lemma store_nil buf off : store buf off [] = Ok buf.
Proof. done. Qed.

Lemma store_fault buf off bs :
  bs <> [] -> Z.of_nat (length buf) < off + Z.of_nat (length bs) ->
  store buf off bs = Fault OutOfBounds.
Proof.
  intros Hbs ?. unfold store. rewrite in_bounds_false; [done| |lia].
  destruct bs; [done|simpl; lia].
Qed.

Lemma store_length buf off bs buf' :
  store buf off bs = Ok buf' -> length buf' = length buf.
Proof.
  unfold store. destruct (in_bounds _ _ _) eqn:Hb; [|done].
  intros [= <-]. case_decide as Hbs; [done|].
  apply in_bounds_spec in Hb as [Hb|Hb]; [by destruct bs|].
  apply length_splice; lia.
Qed.

(** Writing at the end of an initialised prefix: the shape every field store
    of a packed structure has. *)
Lemma splice_app pre post bs :
  (length bs <= length post)%nat ->
  splice (pre ++ post) (Z.of_nat (length pre)) bs = pre ++ bs ++ drop (length bs) post.
Proof.
  intros. unfold splice. rewrite Nat2Z.id, take_app_length. do 2 f_equal.
  rewrite drop_app_ge by lia. f_equal. lia.
Qed.

Lemma store_app pre post off bs :
  off = Z.of_nat (length pre) -> (length bs <= length post)%nat ->
  store (pre ++ post) off bs = Ok (pre ++ bs ++ drop (length bs) post).
Proof.
  intros -> ?. rewrite store_ok, splice_app; [done|lia..|].
  rewrite length_app. lia.
Qed.

Lemma memcpy_ok dst doff src soff n :
  0 <= soff -> 0 <= n -> soff + n <= Z.of_nat (length src) ->
  0 <= doff -> doff + n <= Z.of_nat (length dst) ->
  memcpy dst doff src soff n = Ok (splice dst doff (slice src soff n)).
Proof.
  intros. unfold memcpy. rewrite load_ok by done. simpl.
  apply store_ok; [done|]. rewrite length_slice; lia.
Qed.

Lemma memcpy_zero dst doff src soff : memcpy dst doff src soff 0 = Ok dst.
Proof. done. Qed.

Lemma memcpy_length dst doff src soff n dst' :
  memcpy dst doff src soff n = Ok dst' -> length dst' = length dst.
Proof.
  unfold memcpy. intros (bs & _ & Hst)%bind_Ok_inv. by eapply store_length.
Qed.

Lemma memcpy_src_fault dst doff src soff n :
  0 < n -> Z.of_nat (length src) < soff + n ->
  memcpy dst doff src soff n = Fault OutOfBounds.
Proof. intros. unfold memcpy. by rewrite load_fault. Qed.

Lemma memcpy_dst_fault dst doff src soff n :
  0 <= soff -> 0 < n -> soff + n <= Z.of_nat (length src) ->
  Z.of_nat (length dst) < doff + n ->
  memcpy dst doff src soff n = Fault OutOfBounds.
Proof.
  intros. unfold memcpy. rewrite load_ok by lia. simpl.
  apply store_fault.
  - intros Hnil%(f_equal length). rewrite length_slice in Hnil by lia. simpl in Hnil. lia.
  - rewrite length_slice; lia.
Qed.

(** A store over the first byte of an object. *)
Lemma store_head b b' (rest : list byte) :
  store (b :: rest) 0 [b'] = Ok (b' :: rest).
Proof. rewrite store_ok by (simpl; lia). done. Qed.

(** Stores that extend an initialised prefix [pre] of an object whose
    remaining bytes are still those of [buf]: the shape of every field
    store of a packed structure, in declaration order. *)
Lemma store_frontier buf pre (k : nat) off bs :
  length pre = k -> Z.of_nat k = off ->
  off + Z.of_nat (length bs) <= Z.of_nat (length buf) ->
  store (pre ++ drop k buf) off bs = Ok ((pre ++ bs) ++ drop (k + length bs) buf).
Proof.
  intros <- <- ?. rewrite store_app; [|done|rewrite length_drop; lia].
  by rewrite drop_drop, <-app_assoc.
Qed.

Lemma memcpy_frontier buf pre (k : nat) off src n :
  length pre = k -> Z.of_nat k = off -> 0 <= n ->
  n <= Z.of_nat (length src) -> off + n <= Z.of_nat (length buf) ->
  memcpy (pre ++ drop k buf) off src 0 n
  = Ok ((pre ++ slice src 0 n) ++ drop (k + Z.to_nat n) buf).
Proof.
  intros. unfold memcpy. rewrite load_ok by lia. simpl.
  rewrite (store_frontier _ _ k); rewrite ?length_slice by lia; [done..|lia].
Qed.

Lemma load16_cons e buf i b0 b1 rest :
  0 <= i -> drop (Z.to_nat (2 * i)) buf = b0 :: b1 :: rest ->
  load16 e buf i = Ok (word16 e b0 b1).
Proof.
  intros Hi Hd. unfold load16.
  assert (Hlen : (Z.to_nat (2 * i) + 2 <= length buf)%nat).
  { apply (f_equal length) in Hd. rewrite length_drop in Hd. simpl in Hd. lia. }
  rewrite load_ok by lia. unfold slice. by rewrite Hd.
Qed.

Lemma load16_in_bounds e buf i :
  0 <= i -> 2 * i + 2 <= Z.of_nat (length buf) ->
  exists w, load16 e buf i = Ok w /\ 0 <= w < 65536.
Proof.
  intros. destruct (drop (Z.to_nat (2 * i)) buf) as [|b0 [|b1 rest]] eqn:Hd;
    try (apply (f_equal length) in Hd; rewrite length_drop in Hd;
         simpl in Hd; lia).
  exists (word16 e b0 b1). split; [by eapply load16_cons|apply word16_range].
Qed.

Lemma load16_Ok_range e buf i w : load16 e buf i = Ok w -> 0 <= w < 65536.
Proof.
  unfold load16. intros (bs & _ & Hw)%bind_Ok_inv.
  destruct bs as [|b0 [|b1 [|]]]; try done.
  injection Hw as <-. apply word16_range.
Qed.

Lemma load16_swap buf i :
  load16 BigEndian buf i = rmap swap16 (load16 LittleEndian buf i).
Proof.
  unfold load16. destruct (load buf (2 * i) 2) as [bs|]; [|done].
  destruct bs as [|b0 [|b1 [|]]]; try done.
  cbn [bind rmap]. by rewrite word16_swap.
Qed.

Lemma load16_fault e buf i :
  Z.of_nat (length buf) < 2 * i + 2 -> load16 e buf i = Fault OutOfBounds.
Proof. intros. unfold load16. by rewrite load_fault by lia. Qed.

Lemma splice_slice_same buf off n :
  0 <= off -> 0 <= n -> off + n <= Z.of_nat (length buf) ->
  splice buf off (slice buf off n) = buf.
Proof.
  intros. unfold splice. rewrite length_slice by lia. unfold slice.
  rewrite <-(take_drop (Z.to_nat off) buf) at 4. f_equal.
  rewrite <-(take_drop (Z.to_nat n) (drop (Z.to_nat off) buf)) at 2. f_equal.
  by rewrite drop_drop.
Qed.

(** Moving a range onto itself changes nothing, but the range is accessed. *)
Lemma memmove_same buf off n :
  0 <= off -> 0 <= n -> off + n <= Z.of_nat (length buf) ->
  memmove buf off off n = Ok buf.
Proof.
  intros. unfold memmove. rewrite memcpy_ok by lia.
  by rewrite splice_slice_same.
Qed.

Lemma memmove_fault buf doff soff n :
  0 <= soff -> 0 <= doff -> 0 < n ->
  Z.of_nat (length buf) < soff + n \/ Z.of_nat (length buf) < doff + n ->
  memmove buf doff soff n = Fault OutOfBounds.
Proof.
  intros ? ? ? [?|?]; unfold memmove.
  - by apply memcpy_src_fault.
  - destruct (decide (soff + n <= Z.of_nat (length buf))).
    + by apply memcpy_dst_fault.
    + apply memcpy_src_fault; lia.
Qed.

(** A slice taken past a prefix is a slice of what follows it. *)
Lemma slice_app_skip pre post o n :
  0 <= o -> slice (pre ++ post) (Z.of_nat (length pre) + o) n = slice post o n.
Proof.
  intros. unfold slice. f_equal.
  replace (Z.to_nat (Z.of_nat (length pre) + o))
    with (length pre + Z.to_nat o)%nat by lia.
  by rewrite <-drop_drop, drop_app_length.
Qed.

(** [memmove] inside what follows a prefix: the [m] bytes at offset [o]
    move to the front, the bytes after the first [m] stay. *)
Lemma memmove_app pre post o m :
  0 <= o -> 0 <= m -> o + m <= Z.of_nat (length post) ->
  memmove (pre ++ post) (Z.of_nat (length pre)) (Z.of_nat (length pre) + o) m
  = Ok (pre ++ slice post o m ++ drop (Z.to_nat m) post).
Proof.
  intros. unfold memmove. rewrite memcpy_ok by (rewrite ?length_app; lia).
  rewrite slice_app_skip by done. f_equal.
  rewrite splice_app by (rewrite length_slice; lia).
  by rewrite length_slice by lia.
Qed.

Lemma memmove_zero buf doff soff : memmove buf doff soff 0 = Ok buf.
Proof. done. Qed.

Lemma memmove_length buf doff soff n buf' :
  memmove buf doff soff n = Ok buf' -> length buf' = length buf.
Proof. apply memcpy_length. Qed.

(** A store leaves the bytes before its offset as they were. *)
Lemma store_take buf off bs buf' :
  store buf off bs = Ok buf' ->
  take (Z.to_nat off) buf' = take (Z.to_nat off) buf.
Proof.
  unfold store. destruct (in_bounds _ _ _) eqn:Hb; [|done]. intros [= <-].
  case_decide as Hbs; [done|]. apply in_bounds_spec in Hb as [Hb|(? & ? & ?)].
  { destruct bs; [done|]. simpl in Hb. lia. }
  unfold splice. apply take_app_length'. rewrite length_take. lia.
Qed.

Lemma memmove_take buf doff soff n buf' :
  memmove buf doff soff n = Ok buf' ->
  take (Z.to_nat doff) buf' = take (Z.to_nat doff) buf.
Proof.
  unfold memmove, memcpy. intros (bs & _ & Hst)%bind_Ok_inv. by eapply store_take.
Qed.

(** The memory operations have one fault. *)
Lemma load_Fault_inv buf off n e : load buf off n = Fault e -> e = OutOfBounds.
Proof. unfold load. case_match; congruence. Qed.

Lemma store_Fault_inv buf off bs e : store buf off bs = Fault e -> e = OutOfBounds.
Proof. unfold store. case_match; congruence. Qed.

Lemma memcpy_Fault_inv dst doff src soff n e :
  memcpy dst doff src soff n = Fault e -> e = OutOfBounds.
Proof.
  unfold memcpy.
  intros [?%load_Fault_inv|(bs & _ & ?%store_Fault_inv)]%bind_Fault_inv; done.
Qed.

Lemma memmove_Fault_inv buf doff soff n e :
  memmove buf doff soff n = Fault e -> e = OutOfBounds.
Proof. apply memcpy_Fault_inv. Qed.

End Memory.

(** Finds the operation that faulted in a sequence of memory operations. *)
Ltac fault_inv :=
  repeat match goal with
  | H : bind _ _ = Fault _ |- _ =>
      apply bind_Fault_inv in H as [H|(? & _ & H)]
  | H : load _ _ _ = Fault _ |- _ => apply load_Fault_inv in H
  | H : store _ _ _ = Fault _ |- _ => apply store_Fault_inv in H
  | H : memcpy _ _ _ _ _ = Fault _ |- _ => apply memcpy_Fault_inv in H
  | H : memmove _ _ _ _ = Fault _ |- _ => apply memmove_Fault_inv in H
  end.

(** A closed instance of a decidable condition, by evaluation of its
    decision procedure. *)
Ltac by_decide := apply (bool_decide_unpack _); vm_compute; exact I.

(** The stores of a sequence keep the length of the object. *)
Ltac same_length :=
  repeat match goal with
  | H : store _ _ _ = Ok _ |- _ => apply store_length in H
  | H : memcpy _ _ _ _ _ = Ok _ |- _ => apply memcpy_length in H
  | H : memmove _ _ _ _ = Ok _ |- _ => apply memmove_length in H
  | H : memset _ _ _ _ = Ok _ |- _ => apply store_length in H
  end.

#[export] Hint Rewrite length_alloca : mem.
#[export] Hint Rewrite load_zero store_nil memcpy_zero memmove_zero : mem.
#[export] Hint Resolve in_bounds_true in_bounds_zero : mem.
