(* ===== verification/Layout.v ===== *)
(** * Layout: constants, session and the two packed unions

    The constants of [ip.h] and [ethernet.h] are the fields of the class
    [IpParams]; its laws are the relations between them that the layout of
    [ip_packet_t] (src/src/ip.c, lines 10-30) and the code rely on.  The
    offsets of the fields of [ip_packet_t] and [pseudo_packet_t] follow from
    the declarations, which are [PACKED]: no padding. *)

From S2P Require Import Prelude.

(** ** Constants of the headers *)

Class IpParams : Type := {
  IP_ADDR_LEN : Z;
  IP_HEADER_LEN : Z;
  IP_DATA_MAX_LEN : Z;
  IP_PACKET_MAX_LEN : Z;
  ETH_ADDR_LEN : Z;
  (** byte order of the machine the code runs on *)
  host_order : endianness;
  IP_ADDR_LEN_range : 0 < IP_ADDR_LEN < 2 ^ 16;
  IP_HEADER_LEN_eq : IP_HEADER_LEN = 8 + 2 * IP_ADDR_LEN;
  IP_DATA_MAX_LEN_range : 0 <= IP_DATA_MAX_LEN < 2 ^ 16;
  IP_PACKET_MAX_LEN_eq : IP_PACKET_MAX_LEN = IP_HEADER_LEN + IP_DATA_MAX_LEN;
  ETH_ADDR_LEN_range : 0 < ETH_ADDR_LEN <= 6;
}.

(** IPv6 over Ethernet on a little-endian host: 16-byte addresses, a 40-byte
    header and 1500-byte frames. *)
Definition ipv6_ethernet : IpParams := {|
  IP_ADDR_LEN := 16;
  IP_HEADER_LEN := 40;
  IP_DATA_MAX_LEN := 1460;
  IP_PACKET_MAX_LEN := 1500;
  ETH_ADDR_LEN := 6;
  host_order := LittleEndian;
  IP_ADDR_LEN_range := ltac:(lia);
  IP_HEADER_LEN_eq := eq_refl;
  IP_DATA_MAX_LEN_range := ltac:(lia);
  IP_PACKET_MAX_LEN_eq := eq_refl;
  ETH_ADDR_LEN_range := ltac:(lia);
|}.

(** The same layout with room for 80 bytes of payload only, on a big-endian
    host: small enough to run every path of the code on concrete inputs. *)
Definition small_params : IpParams := {|
  IP_ADDR_LEN := 16;
  IP_HEADER_LEN := 40;
  IP_DATA_MAX_LEN := 80;
  IP_PACKET_MAX_LEN := 120;
  ETH_ADDR_LEN := 6;
  host_order := BigEndian;
  IP_ADDR_LEN_range := ltac:(lia);
  IP_HEADER_LEN_eq := eq_refl;
  IP_DATA_MAX_LEN_range := ltac:(lia);
  IP_PACKET_MAX_LEN_eq := eq_refl;
  ETH_ADDR_LEN_range := ltac:(lia);
|}.

(** The same constants on a host of byte order [e]. *)
Definition with_order (e : endianness) (P : IpParams) : IpParams := {|
  IP_ADDR_LEN := IP_ADDR_LEN;
  IP_HEADER_LEN := IP_HEADER_LEN;
  IP_DATA_MAX_LEN := IP_DATA_MAX_LEN;
  IP_PACKET_MAX_LEN := IP_PACKET_MAX_LEN;
  ETH_ADDR_LEN := ETH_ADDR_LEN;
  host_order := e;
  IP_ADDR_LEN_range := IP_ADDR_LEN_range;
  IP_HEADER_LEN_eq := IP_HEADER_LEN_eq;
  IP_DATA_MAX_LEN_range := IP_DATA_MAX_LEN_range;
  IP_PACKET_MAX_LEN_eq := IP_PACKET_MAX_LEN_eq;
  ETH_ADDR_LEN_range := ETH_ADDR_LEN_range;
|}.

(** ** The session (net.h) *)

Record session : Type := Session {
  session_id : Z;
  src_addr : list byte;
  src_ip : list byte;
  port : Z;
  protocol : Z;
}.

(** Two addresses and a session used to run the model on concrete inputs. *)
Definition example_src : list byte :=
  [Byte.xfe; Byte.x80; Byte.x00; Byte.x00; Byte.x00; Byte.x00; Byte.x00; Byte.x00;
   Byte.x02; Byte.x1a; Byte.x2b; Byte.xff; Byte.xfe; Byte.x3c; Byte.x4d; Byte.x5e].

Definition example_dst : list byte :=
  [Byte.xff; Byte.x02; Byte.x00; Byte.x00; Byte.x00; Byte.x00; Byte.x00; Byte.x00;
   Byte.x00; Byte.x00; Byte.x00; Byte.x00; Byte.x00; Byte.x00; Byte.x00; Byte.x01].

Definition example_session : session := {|
  session_id := 3;
  src_addr := [Byte.x02; Byte.x1a; Byte.x2b; Byte.x3c; Byte.x4d; Byte.x5e];
  src_ip := example_src;
  port := 8080;
  protocol := 6;
|}.

Section Layout.
Context `{P : IpParams}.

(** ** [ip_packet_t] *)

Definition off_flow : Z := 0.
Definition off_version : Z := 0.
Definition off_payload_length : Z := 4.
Definition off_next_header : Z := 6.
Definition off_hop_limit : Z := 7.
Definition off_src_ip : Z := 8.
Definition off_dst_ip : Z := 8 + IP_ADDR_LEN.
Definition off_data : Z := 8 + 2 * IP_ADDR_LEN.

(** The union of the structure and of [buffer[IP_PACKET_MAX_LEN]]. *)
Definition sizeof_ip_packet : Z :=
  Z.max (off_data + IP_DATA_MAX_LEN) IP_PACKET_MAX_LEN.

(** ** [pseudo_packet_t] *)

Definition PSEUDO_PACKET_HEADER_LEN : Z := 2 * IP_ADDR_LEN + 8.

Definition pseudo_off_src_ip : Z := 0.
Definition pseudo_off_dst_ip : Z := IP_ADDR_LEN.
Definition pseudo_off_len : Z := 2 * IP_ADDR_LEN.
Definition pseudo_off_zeros : Z := 2 * IP_ADDR_LEN + 4.
Definition pseudo_off_next_header : Z := 2 * IP_ADDR_LEN + 7.
Definition pseudo_off_data : Z := 2 * IP_ADDR_LEN + 8.

(** The union of the structure and of
    [uint16_t buffer[(PSEUDO_PACKET_HEADER_LEN + IP_DATA_MAX_LEN)/2]]. *)
Definition sizeof_pseudo_packet : Z :=
  Z.max (pseudo_off_data + IP_DATA_MAX_LEN)
        (2 * ((PSEUDO_PACKET_HEADER_LEN + IP_DATA_MAX_LEN) / 2)).

(** ** Facts on the layout *)

Lemma off_data_header : off_data = IP_HEADER_LEN.
Proof. unfold off_data. by rewrite IP_HEADER_LEN_eq. Qed.

Lemma sizeof_ip_packet_eq : sizeof_ip_packet = IP_PACKET_MAX_LEN.
Proof.
  unfold sizeof_ip_packet. rewrite off_data_header, IP_PACKET_MAX_LEN_eq. lia.
Qed.

Lemma sizeof_pseudo_packet_eq :
  sizeof_pseudo_packet = PSEUDO_PACKET_HEADER_LEN + IP_DATA_MAX_LEN.
Proof.
  unfold sizeof_pseudo_packet, pseudo_off_data, PSEUDO_PACKET_HEADER_LEN.
  pose proof IP_DATA_MAX_LEN_range. zmod.
Qed.

Lemma IP_HEADER_LEN_range : 10 <= IP_HEADER_LEN < 2 ^ 18.
Proof. pose proof IP_ADDR_LEN_range. rewrite IP_HEADER_LEN_eq. lia. Qed.

Lemma IP_PACKET_MAX_LEN_range : 10 <= IP_PACKET_MAX_LEN < 2 ^ 19.
Proof.
  pose proof IP_HEADER_LEN_range. pose proof IP_DATA_MAX_LEN_range.
  rewrite IP_PACKET_MAX_LEN_eq. lia.
Qed.

Lemma PSEUDO_PACKET_HEADER_LEN_even : PSEUDO_PACKET_HEADER_LEN mod 2 = 0.
Proof. unfold PSEUDO_PACKET_HEADER_LEN. zmod. Qed.

End Layout.

(** Everything a proof needs to know about the sizes, as linear facts. *)
Ltac layout_facts :=
  pose proof IP_ADDR_LEN_range;
  pose proof IP_HEADER_LEN_eq;
  pose proof IP_DATA_MAX_LEN_range;
  pose proof IP_PACKET_MAX_LEN_eq;
  pose proof ETH_ADDR_LEN_range;
  pose proof sizeof_ip_packet_eq;
  pose proof sizeof_pseudo_packet_eq;
  pose proof off_data_header.

Ltac unfold_offsets :=
  unfold off_flow, off_version, off_payload_length, off_next_header,
    off_hop_limit, off_src_ip, off_dst_ip, off_data,
    PSEUDO_PACKET_HEADER_LEN, pseudo_off_src_ip, pseudo_off_dst_ip,
    pseudo_off_len, pseudo_off_zeros, pseudo_off_next_header,
    pseudo_off_data in *.
