(* ===== verification/Checksum.v ===== *)
(** * Checksum: [add_with_carry] and [ip_chksum] (src/src/ip.c, lines 94-137)

    The code sums the pseudo-header and the payload as 16-bit words of the
    host's byte order with end-around carry, and returns the complement.
    This file holds the model of the two functions, a reference definition
    of the one's-complement sum ([fold16] of the plain sum of the words), and
    the theorems: the loop computes the reference sum, the sum does not
    depend on the order of the words nor (up to a byte swap) on the host's
    byte order, the closed form of the result on every valid input, the
    faults on invalid ones, and what the final test of the code really
    does. *)

From S2P Require Import Prelude.
From S2P Require Import Layout.

(** ** The code *)

(** [static uint16_t add_with_carry(uint16_t acc, uint16_t val)]: the
    arguments are converted to 16 bits by the call, the sum and the
    comparison are computed in [int], the result is converted back. *)
Definition add_with_carry (acc val : Z) : Z :=
  let acc := u16 acc in
  let val := u16 val in
  u16 ((acc + val) + (if UINT16_MAX - val <? acc then 1 else 0)).

(** Line 136, [return (~acc == 0 ? acc : ~acc);] with [uint32_t acc]: the
    complement and the comparison are 32 bits wide, the result is converted
    to [uint16_t]. *)
Definition chksum_finish (acc : Z) : Z :=
  u16 (if not32 acc =? 0 then acc else not32 acc).

Section Code.
Context `{P : IpParams}.

(** Lines 124-130: the pseudo-header and a copy of the payload, written over
    the indeterminate contents of the local [packet]. *)
Definition build_pseudo (stack : list byte) (s : session) (dst_ip : list byte)
    (protocol : byte) (data : list byte) (data_len : Z) : result (list byte) :=
  let packet := alloca sizeof_pseudo_packet stack in
  let* packet := memcpy packet pseudo_off_src_ip (src_ip s) 0 IP_ADDR_LEN in
  let* packet := memcpy packet pseudo_off_dst_ip dst_ip 0 IP_ADDR_LEN in
  let* packet := store packet pseudo_off_len (htonl data_len) in
  let* packet := memset packet pseudo_off_zeros Byte.x00 3 in
  let* packet := store packet pseudo_off_next_header [protocol] in
  memcpy packet pseudo_off_data data 0 data_len.

(** Lines 133-134: [n] iterations of the loop from index [i]. *)
Fixpoint chksum_loop (buf : list byte) (n : nat) (i acc : Z) : result Z :=
  match n with
  | O => Ok acc
  | S n =>
      let* w := load16 host_order buf i in
      chksum_loop buf n (i + 1) (add_with_carry acc w)
  end.

(** [uint16_t ip_chksum(session, dst_ip, protocol, data, data_len)]. *)
Definition ip_chksum (stack : list byte) (s : session) (dst_ip : list byte)
    (protocol : byte) (data : list byte) (data_len : Z) : result Z :=
  let* packet := build_pseudo stack s dst_ip protocol data data_len in
  let n := usize (PSEUDO_PACKET_HEADER_LEN + data_len) / 2 in
  let* acc := chksum_loop packet (Z.to_nat n) 0 0 in
  Ok (chksum_finish acc).

(** ** Reference definitions *)

(** The bytes the code initialises in [packet]: the pseudo-header of
    section 3 of the specification, then the payload. *)
Definition pseudo_header (s : session) (dst_ip : list byte) (protocol : byte)
    (data_len : Z) : list byte :=
  slice (src_ip s) 0 IP_ADDR_LEN ++ slice dst_ip 0 IP_ADDR_LEN
  ++ htonl data_len ++ [Byte.x00; Byte.x00; Byte.x00] ++ [protocol].

Definition pseudo_bytes (s : session) (dst_ip : list byte) (protocol : byte)
    (data : list byte) (data_len : Z) : list byte :=
  pseudo_header s dst_ip protocol data_len ++ slice data 0 data_len.

(** The inputs [ip_chksum] is defined on: two addresses of [IP_ADDR_LEN]
    bytes at least and a payload of [data_len] bytes at least that fits the
    buffer. *)
Definition chksum_args_ok (s : session) (dst data : list byte) (data_len : Z)
  : Prop :=
  IP_ADDR_LEN <= Z.of_nat (length (src_ip s)) /\
  IP_ADDR_LEN <= Z.of_nat (length dst) /\
  0 <= data_len <= IP_DATA_MAX_LEN /\
  data_len <= Z.of_nat (length data).

#[export] Instance chksum_args_ok_dec s dst data data_len :
  Decision (chksum_args_ok s dst data data_len).
Proof. unfold chksum_args_ok. apply _. Defined.

End Code.

Fixpoint Zsum (ws : list Z) : Z :=
  match ws with
  | [] => 0
  | w :: ws => w + Zsum ws
  end.

(** The representative in [0, 65535] of a natural number modulo 65535 that
    one's-complement addition keeps: zero for zero only, 65535 for the other
    multiples of 65535. *)
Definition fold16 (s : Z) : Z :=
  if s =? 0 then 0 else (s - 1) mod 65535 + 1.

(** The accumulator of the loop of [ip_chksum] after the words [ws]. *)
Definition ones_sum (ws : list Z) : Z := fold_left add_with_carry ws 0.

(** A value is a 16-bit word. *)
Definition is_u16 (z : Z) : Prop := 0 <= z < 65536.

Create HintDb chksum discriminated.

(** ** One's-complement addition *)

Section AddWithCarry.
Implicit Types a b c v s t : Z.

Lemma add_with_carry_range a v : is_u16 (add_with_carry a v).
Proof. apply u16_range. Qed.

Lemma add_with_carry_wrap a v :
  add_with_carry a v = add_with_carry (u16 a) (u16 v).
Proof. unfold add_with_carry. by rewrite !(wrap_wrap 16). Qed.

Lemma add_with_carry_ones a v :
  is_u16 a -> is_u16 v ->
  add_with_carry a v = if a + v <=? 65535 then a + v else a + v - 65535.
Proof.
  unfold is_u16. intros. unfold add_with_carry. cbv zeta.
  rewrite (u16_small a), (u16_small v) by lia. unfold UINT16_MAX.
  cases_Z; try lia; zmod.
Qed.

(** [add_with_carry] is addition with end-around carry: on 16-bit
    operands the result is the sum when it fits 16 bits, and the sum minus
    65535 (the carry added back into the low bits) when it does not.  No
    information is lost by the conversion back to 16 bits. *)
Theorem add_with_carry_spec a v :
  is_u16 a -> is_u16 v ->
  add_with_carry a v = if a + v <=? 65535 then a + v else a + v - 65535.
Proof. apply add_with_carry_ones. Qed.

Lemma add_with_carry_spec_witness :
  (is_u16 65535 /\ is_u16 2) /\ add_with_carry 65535 2 = 2.
Proof.
  assert (H : is_u16 65535 /\ is_u16 2) by (unfold is_u16; lia).
  split; [exact H|]. exact (add_with_carry_spec 65535 2 (proj1 H) (proj2 H)).
Defined.

Lemma fold16_range s : 0 <= s -> is_u16 (fold16 s).
Proof. unfold is_u16, fold16. intros. cases_Z; zmod. Qed.

Lemma fold16_small s : is_u16 s -> fold16 s = s.
Proof. unfold is_u16, fold16. intros. cases_Z; zmod. Qed.

Lemma fold16_add_l s t :
  0 <= s -> 0 <= t -> fold16 (fold16 s + t) = fold16 (s + t).
Proof. intros. unfold fold16. cases_Z; try lia; zmod. Qed.

Lemma fold16_zero s : 0 <= s -> fold16 s = 0 <-> s = 0.
Proof. intros. unfold fold16. cases_Z; [done|]. split; [zmod|lia]. Qed.

Lemma fold16_mod s : 0 <= s -> fold16 s mod 65535 = s mod 65535.
Proof. intros. unfold fold16. cases_Z; [by subst|zmod]. Qed.

Lemma add_with_carry_fold16 a v :
  is_u16 a -> is_u16 v -> add_with_carry a v = fold16 (a + v).
Proof.
  intros Ha Hv. rewrite add_with_carry_ones by done.
  unfold is_u16, fold16 in *. cases_Z; try lia; zmod.
Qed.

(** The sum is the operands' sum modulo 65535, for any integer arguments. *)
Lemma add_with_carry_fold16_wrap a v :
  add_with_carry a v = fold16 (u16 a + u16 v).
Proof.
  rewrite add_with_carry_wrap.
  apply add_with_carry_fold16; apply u16_range.
Qed.

Lemma add_with_carry_comm a b : add_with_carry a b = add_with_carry b a.
Proof. rewrite !add_with_carry_fold16_wrap. f_equal. lia. Qed.

Lemma add_with_carry_3 a b c :
  add_with_carry (add_with_carry a b) c = fold16 (u16 a + u16 b + u16 c).
Proof.
  pose proof (u16_range a). pose proof (u16_range b). pose proof (u16_range c).
  rewrite (add_with_carry_fold16_wrap (add_with_carry a b)).
  rewrite (u16_small (add_with_carry a b)) by apply add_with_carry_range.
  rewrite (add_with_carry_fold16_wrap a b). apply fold16_add_l; lia.
Qed.

(** End-around-carry addition is associative (and commutative), so the
    accumulator of the checksum loop does not depend on how the additions
    are grouped. *)
Theorem add_with_carry_assoc a b c :
  add_with_carry (add_with_carry a b) c = add_with_carry a (add_with_carry b c).
Proof.
  rewrite (add_with_carry_comm a (add_with_carry b c)), !add_with_carry_3.
  f_equal. lia.
Qed.

Lemma add_with_carry_0_l a : is_u16 a -> add_with_carry 0 a = a.
Proof.
  intros. rewrite add_with_carry_fold16 by (unfold is_u16 in *; lia).
  by apply fold16_small.
Qed.

Lemma add_with_carry_zero a v :
  is_u16 a -> is_u16 v -> add_with_carry a v = 0 <-> a = 0 /\ v = 0.
Proof.
  intros Ha Hv. rewrite add_with_carry_fold16 by done.
  unfold is_u16 in *. rewrite fold16_zero by lia. lia.
Qed.

(** Two one's-complement representatives of the same class are equal. *)
Lemma ones_repr_unique a b :
  0 <= a <= 65535 -> 0 <= b <= 65535 ->
  a mod 65535 = b mod 65535 -> (a = 0 <-> b = 0) -> a = b.
Proof. intros. zmod. Qed.

Lemma swap16_add_with_carry a b :
  is_u16 a -> is_u16 b ->
  add_with_carry (swap16 a) (swap16 b) = swap16 (add_with_carry a b).
Proof.
  unfold is_u16. intros.
  pose proof (swap16_range a). pose proof (swap16_range b).
  rewrite !add_with_carry_ones by (unfold is_u16; lia). unfold swap16 in *.
  cases_Z; zmod.
Qed.

End AddWithCarry.

#[export] Hint Resolve add_with_carry_range fold16_range : chksum.

(** ** The sum of a list of words *)

Section Sum.
Implicit Types (ws : list Z) (a w : Z).

Lemma Zsum_app ws1 ws2 : Zsum (ws1 ++ ws2) = Zsum ws1 + Zsum ws2.
Proof. induction ws1 as [|w ws1 IH]; cbn [Zsum app]; lia. Qed.

Lemma Zsum_u16_nonneg ws : 0 <= Zsum (u16 <$> ws).
Proof.
  induction ws as [|w ws IH]; cbn [fmap list_fmap Zsum]; [lia|].
  pose proof (u16_range w). lia.
Qed.

Lemma Zsum_Permutation ws1 ws2 : ws1 ≡ₚ ws2 -> Zsum ws1 = Zsum ws2.
Proof. induction 1; cbn [Zsum]; lia. Qed.

#[export] Instance Zsum_proper : Proper ((≡ₚ) ==> (=)) Zsum.
Proof. intros ws1 ws2. apply Zsum_Permutation. Qed.

Lemma Zsum_replicate_zero (n : nat) : Zsum (replicate n 0) = 0.
Proof. induction n as [|n IH]; cbn [replicate Zsum]; lia. Qed.

Lemma fmap_u16_words e (l : list byte) : u16 <$> words e l = words e l.
Proof.
  pose proof (Forall_words_range e l) as Hall.
  induction Hall as [|w ws Hw _ IH]; cbn [fmap list_fmap]; [done|].
  by rewrite IH, u16_small.
Qed.

Lemma fold_left_add_with_carry ws a :
  is_u16 a ->
  fold_left add_with_carry ws a = fold16 (a + Zsum (u16 <$> ws)).
Proof.
  revert a. induction ws as [|w ws IH]; intros a Ha;
    cbn [fmap list_fmap Zsum fold_left].
  - by rewrite Z.add_0_r, fold16_small.
  - pose proof (u16_range w). pose proof (Zsum_u16_nonneg ws).
    rewrite IH by apply add_with_carry_range.
    rewrite add_with_carry_fold16_wrap, (u16_small a) by done.
    unfold is_u16 in Ha. rewrite fold16_add_l by lia. f_equal. lia.
Qed.

Lemma ones_sum_fold16 ws : ones_sum ws = fold16 (Zsum (u16 <$> ws)).
Proof.
  unfold ones_sum. rewrite fold_left_add_with_carry by (unfold is_u16; lia).
  done.
Qed.

(** C23: the accumulator of the checksum loop is the one's-complement sum of
    the words: the representative [fold16] of their plain sum modulo 65535,
    which is zero only when every word is zero.  This is the reference
    definition of the Internet checksum's sum; the loop's end-around carry
    implements it for every list of words. *)
Theorem ones_sum_ref ws : ones_sum ws = fold16 (Zsum (u16 <$> ws)).
Proof. apply ones_sum_fold16. Qed.

Lemma ones_sum_range ws : is_u16 (ones_sum ws).
Proof. rewrite ones_sum_fold16. apply fold16_range, Zsum_u16_nonneg. Qed.

(** The sum does not depend on the order of the words. *)
Theorem ones_sum_Permutation ws1 ws2 :
  ws1 ≡ₚ ws2 -> ones_sum ws1 = ones_sum ws2.
Proof. intros Hp. rewrite !ones_sum_fold16. by rewrite Hp. Qed.

Lemma ones_sum_Permutation_witness :
  [1; 65535; 7] ≡ₚ [7; 1; 65535] /\ ones_sum [1; 65535; 7] = ones_sum [7; 1; 65535].
Proof.
  assert (H : [1; 65535; 7] ≡ₚ [7; 1; 65535]).
  { change ([1; 65535] ++ [7] ≡ₚ [7] ++ [1; 65535]). apply Permutation_app_comm. }
  split; [exact H|]. exact (ones_sum_Permutation _ _ H).
Defined.

#[export] Instance ones_sum_proper : Proper ((≡ₚ) ==> (=)) ones_sum.
Proof. intros ws1 ws2 Hp. rewrite !ones_sum_fold16. by rewrite Hp. Qed.

Lemma ones_sum_app ws1 ws2 :
  ones_sum (ws1 ++ ws2) = add_with_carry (ones_sum ws1) (ones_sum ws2).
Proof.
  pose proof (Zsum_u16_nonneg ws1) as H1. pose proof (Zsum_u16_nonneg ws2) as H2.
  pose proof (fold16_range _ H2) as H3. unfold is_u16 in H3.
  rewrite add_with_carry_fold16 by apply ones_sum_range.
  rewrite !ones_sum_fold16, fmap_app, Zsum_app.
  rewrite fold16_add_l by lia.
  rewrite (Z.add_comm _ (fold16 _)), fold16_add_l by lia.
  f_equal. lia.
Qed.

Lemma ones_sum_replicate_zero (n : nat) : ones_sum (replicate n 0) = 0.
Proof.
  rewrite ones_sum_fold16, fmap_replicate. change (u16 0) with 0.
  by rewrite Zsum_replicate_zero.
Qed.

Lemma fold_left_add_with_carry_swap ws a :
  is_u16 a -> Forall is_u16 ws ->
  fold_left add_with_carry (swap16 <$> ws) (swap16 a)
  = swap16 (fold_left add_with_carry ws a).
Proof.
  intros Ha Hws. revert a Ha.
  induction Hws as [|w ws Hw _ IH]; intros a Ha; cbn [fmap list_fmap fold_left].
  - done.
  - rewrite swap16_add_with_carry by done. apply IH, add_with_carry_range.
Qed.

(** The sum of the byte-swapped words is the byte-swapped sum (RFC 1071,
    byte-order independence). *)
Lemma ones_sum_swap ws :
  Forall is_u16 ws -> ones_sum (swap16 <$> ws) = swap16 (ones_sum ws).
Proof.
  intros. unfold ones_sum. change 0 with (swap16 0) at 1.
  apply fold_left_add_with_carry_swap; [unfold is_u16; lia|done].
Qed.

End Sum.

#[export] Hint Resolve ones_sum_range : chksum.

(** ** The final complement *)

Section Finish.
Implicit Types acc : Z.

Lemma chksum_finish_small acc :
  is_u16 acc -> chksum_finish acc = 65535 - acc.
Proof.
  unfold is_u16, chksum_finish. intros.
  rewrite not32_small by lia. cases_Z; [lia|]. zmod.
Qed.

(** C16: the test [~acc == 0] of line 136 is made on 32 bits, where the
    complement of a 16-bit accumulator is never zero: the function returns
    the 16-bit complement of the accumulator in every case, and so returns
    0, not 0xFFFF, when the accumulator is 0xFFFF. *)
Theorem chksum_finish_complement acc :
  is_u16 acc -> chksum_finish acc = 65535 - acc.
Proof. apply chksum_finish_small. Qed.

Lemma chksum_finish_complement_witness :
  is_u16 65535 /\ chksum_finish 65535 = 0.
Proof.
  assert (H : is_u16 65535) by (unfold is_u16; lia).
  split; [exact H|]. exact (chksum_finish_complement 65535 H).
Defined.

Lemma chksum_finish_range acc : is_u16 (chksum_finish acc).
Proof. apply u16_range. Qed.

Lemma chksum_finish_swap acc :
  is_u16 acc -> chksum_finish (swap16 acc) = swap16 (chksum_finish acc).
Proof.
  intros Ha. pose proof (swap16_range acc Ha).
  rewrite !chksum_finish_small by done.
  unfold is_u16, swap16 in *. zmod.
Qed.

End Finish.

(** ** The loop and the pseudo-header *)

Section Loop.
Context `{P : IpParams}.
Implicit Types (buf stack dst data : list byte) (s : session) (n : nat).

(** [n] iterations from index [i] fold the [n] words at byte offset [2 i]. *)
Lemma chksum_loop_words buf n i acc :
  0 <= i -> 2 * i + 2 * Z.of_nat n <= Z.of_nat (length buf) ->
  chksum_loop buf n i acc
  = Ok (fold_left add_with_carry
          (take n (words host_order (drop (Z.to_nat (2 * i)) buf))) acc).
Proof.
  revert i acc. induction n as [|n IH]; intros i acc Hi Hlen; [done|].
  destruct (drop (Z.to_nat (2 * i)) buf) as [|b0 [|b1 rest]] eqn:Hd;
    try (apply (f_equal length) in Hd; rewrite length_drop in Hd;
         simpl in Hd; lia).
  cbn [chksum_loop]. rewrite (load16_cons _ _ _ b0 b1 rest) by done.
  cbn [bind]. rewrite IH by lia.
  replace (Z.to_nat (2 * (i + 1))) with (Z.to_nat (2 * i) + 2)%nat by lia.
  by rewrite <-drop_drop, Hd.
Qed.

(** The accumulator stays a 16-bit value. *)
Lemma chksum_loop_range buf n i acc r :
  is_u16 acc -> chksum_loop buf n i acc = Ok r -> is_u16 r.
Proof.
  revert i acc. induction n as [|n IH]; intros i acc Hacc; cbn [chksum_loop].
  - by intros [= <-].
  - intros (w & _ & Hr)%bind_Ok_inv. eapply IH, Hr. apply add_with_carry_range.
Qed.

(** The loop stops at the first word that is not inside the buffer. *)
Lemma chksum_loop_fault buf n i acc :
  0 <= i -> (0 < n)%nat -> Z.of_nat (length buf) < 2 * i + 2 * Z.of_nat n ->
  chksum_loop buf n i acc = Fault OutOfBounds.
Proof.
  revert i acc. induction n as [|n IH]; intros i acc Hi Hn Hlen; [lia|].
  cbn [chksum_loop].
  destruct (decide (Z.of_nat (length buf) < 2 * i + 2)) as [Hlt|Hge].
  - by rewrite load16_fault.
  - destruct (load16_in_bounds host_order buf i) as (w & -> & _); [lia..|].
    cbn [bind]. apply IH; lia.
Qed.

Lemma length_pseudo_header s dst protocol data_len :
  IP_ADDR_LEN <= Z.of_nat (length (src_ip s)) ->
  IP_ADDR_LEN <= Z.of_nat (length dst) ->
  Z.of_nat (length (pseudo_header s dst protocol data_len))
  = PSEUDO_PACKET_HEADER_LEN.
Proof.
  intros. layout_facts. unfold pseudo_header, PSEUDO_PACKET_HEADER_LEN. len.
Qed.

Lemma length_pseudo_bytes s dst protocol data data_len :
  IP_ADDR_LEN <= Z.of_nat (length (src_ip s)) ->
  IP_ADDR_LEN <= Z.of_nat (length dst) ->
  0 <= data_len <= Z.of_nat (length data) ->
  Z.of_nat (length (pseudo_bytes s dst protocol data data_len))
  = PSEUDO_PACKET_HEADER_LEN + data_len.
Proof.
  intros. unfold pseudo_bytes.
  rewrite length_app, Nat2Z.inj_add, length_pseudo_header by done. len.
Qed.

(** Closed form of the local [packet] after lines 125-130. *)
Lemma build_pseudo_ok stack s dst protocol data data_len :
  chksum_args_ok s dst data data_len ->
  build_pseudo stack s dst protocol data data_len
  = Ok (pseudo_bytes s dst protocol data data_len
        ++ drop (Z.to_nat (PSEUDO_PACKET_HEADER_LEN + data_len))
             (alloca sizeof_pseudo_packet stack)).
Proof.
  intros (? & ? & ? & ?). layout_facts. unfold build_pseudo, memset.
  set (buf := alloca _ _).
  assert (Hbuf : Z.of_nat (length buf) = PSEUDO_PACKET_HEADER_LEN + IP_DATA_MAX_LEN).
  { unfold buf. rewrite length_alloca. unfold_offsets. lia. }
  unfold_offsets. change buf with ([] ++ drop 0 buf) at 1.
  do 2 (rewrite (memcpy_frontier buf) by len; cbn [bind]).
  do 3 (rewrite (store_frontier buf) by len; cbn [bind]).
  rewrite (memcpy_frontier buf) by len.
  unfold pseudo_bytes, pseudo_header. rewrite <-!app_assoc, app_nil_l.
  do 7 f_equal. len. f_equal. lia.
Qed.

Lemma words_pseudo_buffer s dst protocol data data_len junk :
  chksum_args_ok s dst data data_len ->
  take (Z.to_nat ((PSEUDO_PACKET_HEADER_LEN + data_len) / 2))
    (words host_order (pseudo_bytes s dst protocol data data_len ++ junk))
  = words host_order (pseudo_bytes s dst protocol data data_len).
Proof.
  intros (? & ? & ? & ?).
  pose proof (length_pseudo_bytes s dst protocol data data_len) as Hlen.
  rewrite <-Hlen by lia. set (pb := pseudo_bytes _ _ _ _ _).
  rewrite <-(Nat2Z.inj_div _ 2), Nat2Z.id, <-words_take.
  rewrite take_app_le, words_take_even; [done|].
  pose proof (Nat.Div0.mul_div_le (length pb) 2). lia.
Qed.

End Loop.

(** ** Theorems on [ip_chksum] *)

Section IpChksum.
Context `{P : IpParams}.
Implicit Types (buf stack dst data : list byte) (s : session).

Lemma ip_chksum_value stack s dst protocol data data_len :
  chksum_args_ok s dst data data_len ->
  ip_chksum stack s dst protocol data data_len
  = Ok (65535 - ones_sum (words host_order
                            (pseudo_bytes s dst protocol data data_len))).
Proof.
  intros Hok. pose proof Hok as (? & ? & ? & ?). layout_facts.
  unfold ip_chksum. rewrite build_pseudo_ok by done. cbn [bind].
  pose proof (length_pseudo_bytes s dst protocol data data_len).
  assert (PSEUDO_PACKET_HEADER_LEN = 2 * IP_ADDR_LEN + 8) by done.
  rewrite usize_small by lia.
  rewrite chksum_loop_words; [|lia|rewrite length_app; zmod].
  cbn [bind]. rewrite drop_0, words_pseudo_buffer by done.
  by rewrite chksum_finish_small by apply ones_sum_range.
Qed.

(** C2: on every valid input [ip_chksum] returns the complement of the
    one's-complement sum of the pseudo-header and payload bytes read as
    16-bit words in the host's byte order.  The result does not depend on
    the prior contents of the stack: the code reads no uninitialised byte. *)
Theorem ip_chksum_ok stack s dst protocol data data_len :
  chksum_args_ok s dst data data_len ->
  ip_chksum stack s dst protocol data data_len
  = Ok (65535 - ones_sum (words host_order
                            (pseudo_bytes s dst protocol data data_len))).
Proof. apply ip_chksum_value. Qed.

(** C32: the value returned verifies.  The one's-complement sum of the words
    that [ip_chksum] read, followed by the value it returned, is 0xFFFF:
    the test a receiver makes on a packet that carries the checksum.  This
    holds for the value 0 that the code returns when the sum is 0xFFFF as
    well. *)
Theorem ip_chksum_verifies stack s dst protocol data data_len c :
  chksum_args_ok s dst data data_len ->
  ip_chksum stack s dst protocol data data_len = Ok c ->
  ones_sum (words host_order (pseudo_bytes s dst protocol data data_len) ++ [c])
  = 65535.
Proof.
  intros Hok. rewrite ip_chksum_value by done. intros [= <-].
  set (ws := words _ _). pose proof (ones_sum_range ws) as Hr.
  unfold ones_sum in *. rewrite fold_left_app. cbn [fold_left].
  unfold is_u16 in Hr. rewrite add_with_carry_ones by (unfold is_u16; lia).
  cases_Z; lia.
Qed.

(** C39: a payload longer than [IP_DATA_MAX_LEN] overruns the local
    [packet]: [ip_chksum] does not clamp [data_len] the way [ip_send] does. *)
Theorem ip_chksum_too_long stack s dst protocol data data_len :
  IP_ADDR_LEN <= Z.of_nat (length (src_ip s)) ->
  IP_ADDR_LEN <= Z.of_nat (length dst) ->
  IP_DATA_MAX_LEN < data_len <= Z.of_nat (length data) ->
  ip_chksum stack s dst protocol data data_len = Fault OutOfBounds.
Proof.
  intros. layout_facts. unfold ip_chksum, build_pseudo, memset.
  set (buf := alloca _ _).
  assert (Hbuf : Z.of_nat (length buf) = PSEUDO_PACKET_HEADER_LEN + IP_DATA_MAX_LEN).
  { unfold buf. rewrite length_alloca. unfold_offsets. lia. }
  unfold_offsets. change buf with ([] ++ drop 0 buf) at 1.
  do 2 (rewrite (memcpy_frontier buf) by len; cbn [bind]).
  do 3 (rewrite (store_frontier buf) by len; cbn [bind]).
  rewrite memcpy_dst_fault; [done|len..].
Qed.

(** C36: the machine integers of [ip_chksum] never overflow.  On valid
    arguments the number of iterations fits the [int] counter [i]; after any
    [k] of them the loop has read only words inside [packet.buffer], and the
    accumulator, held in a [uint32_t], is a 16-bit value. *)
Theorem ip_chksum_bounds stack s dst protocol data n packet (k : nat) :
  chksum_args_ok s dst data n ->
  build_pseudo stack s dst protocol data n = Ok packet ->
  let count := usize (PSEUDO_PACKET_HEADER_LEN + n) / 2 in
  Z.of_nat k <= count ->
  count < 2 ^ 31 /\ 2 * count <= Z.of_nat (length packet) /\
  exists acc, chksum_loop packet k 0 0 = Ok acc /\ 0 <= acc < 2 ^ 16.
Proof.
  intros Hok Hb count Hk. pose proof Hok as (? & ? & ? & ?). layout_facts.
  rewrite build_pseudo_ok in Hb by done. injection Hb as <-.
  pose proof (length_pseudo_bytes s dst protocol data n).
  assert (PSEUDO_PACKET_HEADER_LEN = 2 * IP_ADDR_LEN + 8) by done.
  assert (Hc : 2 * count <= PSEUDO_PACKET_HEADER_LEN + n).
  { unfold count. rewrite usize_small by lia. zmod. }
  assert (Hlen : 2 * count <= Z.of_nat (length
            (pseudo_bytes s dst protocol data n
             ++ drop (Z.to_nat (PSEUDO_PACKET_HEADER_LEN + n))
                  (alloca sizeof_pseudo_packet stack)))).
  { rewrite length_app, length_drop, length_alloca. lia. }
  split_and!; [lia|done|].
  rewrite chksum_loop_words by lia. eexists. split; [done|].
  apply (ones_sum_range (take k _)).
Qed.

(** The two addresses of the pseudo-header can change places: the sum does
    not depend on the order of the words, and addresses of even length begin
    and end on a word.  A receiver whose own address is the destination of
    the sender computes the sender's checksum. *)
Lemma ip_chksum_swap_addresses stack stack' s s' dst dst' protocol data data' n :
  IP_ADDR_LEN mod 2 = 0 ->
  chksum_args_ok s dst data n -> chksum_args_ok s' dst' data' n ->
  slice (src_ip s') 0 IP_ADDR_LEN = slice dst 0 IP_ADDR_LEN ->
  slice dst' 0 IP_ADDR_LEN = slice (src_ip s) 0 IP_ADDR_LEN ->
  slice data' 0 n = slice data 0 n ->
  ip_chksum stack' s' dst' protocol data' n = ip_chksum stack s dst protocol data n.
Proof.
  intros Hev Hok Hok' Hsrc Hdst Hdata. pose proof Hok as (? & ? & ? & ?).
  layout_facts. rewrite !ip_chksum_value by done. do 2 f_equal.
  unfold pseudo_bytes, pseudo_header. rewrite Hsrc, Hdst, Hdata.
  assert (Heven : forall buf, IP_ADDR_LEN <= Z.of_nat (length buf) ->
            Nat.Even (length (slice buf 0 IP_ADDR_LEN))).
  { intros buf Hbuf. exists (Z.to_nat (IP_ADDR_LEN / 2)).
    rewrite length_slice by lia. zmod. }
  rewrite <-!app_assoc, !(words_app _ (slice _ 0 IP_ADDR_LEN)) by auto.
  apply ones_sum_proper. rewrite !app_assoc. f_equiv. apply Permutation_app_comm.
Qed.

End IpChksum.

(** ** Byte order, zero input, odd lengths *)

Section ByteOrder.
Context (P : IpParams).
Implicit Types (buf stack dst data : list byte) (s : session).

Lemma chksum_loop_swap buf n i acc :
  is_u16 acc ->
  @chksum_loop (with_order BigEndian P) buf n i (swap16 acc)
  = rmap swap16 (@chksum_loop (with_order LittleEndian P) buf n i acc).
Proof.
  revert i acc. induction n as [|n IH]; intros i acc Hacc; [done|].
  cbn [chksum_loop host_order with_order]. rewrite load16_swap.
  destruct (load16 LittleEndian buf i) as [w|] eqn:Hw; [|done].
  apply load16_Ok_range in Hw. cbn [rmap bind].
  rewrite swap16_add_with_carry by done. apply IH, add_with_carry_range.
Qed.

(** C35: byte-order independence (RFC 1071).  On the same arguments, the
    value a big-endian host computes is the byte swap of the value a
    little-endian host computes, faults included: stored in memory as a
    host-order [uint16_t], the checksum is the same two bytes on both. *)
Theorem ip_chksum_byte_order stack s dst protocol data data_len :
  @ip_chksum (with_order BigEndian P) stack s dst protocol data data_len
  = rmap swap16
      (@ip_chksum (with_order LittleEndian P) stack s dst protocol data data_len).
Proof.
  unfold ip_chksum.
  change (@build_pseudo (with_order BigEndian P))
    with (@build_pseudo (with_order LittleEndian P)).
  destruct (build_pseudo _ _ _ _ _ _) as [buf|]; [|done]. cbn [bind].
  change (@PSEUDO_PACKET_HEADER_LEN (with_order BigEndian P))
    with (@PSEUDO_PACKET_HEADER_LEN (with_order LittleEndian P)).
  change 0 with (swap16 0) at 2.
  rewrite chksum_loop_swap by (unfold is_u16; lia).
  destruct (chksum_loop _ _ _ _) as [acc|] eqn:Hacc; [|done]. cbn [rmap bind].
  f_equal. apply chksum_finish_swap.
  eapply (@chksum_loop_range (with_order LittleEndian P)), Hacc.
  unfold is_u16. lia.
Qed.

End ByteOrder.

Section Inputs.
Context `{P : IpParams}.
Implicit Types (buf stack dst data : list byte) (s : session).

Lemma pseudo_bytes_zero s dst data :
  src_ip s = replicate (Z.to_nat IP_ADDR_LEN) Byte.x00 ->
  dst = replicate (Z.to_nat IP_ADDR_LEN) Byte.x00 ->
  pseudo_bytes s dst Byte.x00 data 0
  = replicate (Z.to_nat PSEUDO_PACKET_HEADER_LEN) Byte.x00.
Proof.
  intros Hs ->. layout_facts.
  unfold pseudo_bytes, pseudo_header, PSEUDO_PACKET_HEADER_LEN.
  rewrite Hs, !slice_full, slice_zero, app_nil_r by (rewrite length_replicate; lia).
  change (htonl 0) with (replicate 4 Byte.x00).
  change [Byte.x00; Byte.x00; Byte.x00] with (replicate 3 Byte.x00).
  change [Byte.x00] with (replicate 1 Byte.x00).
  rewrite <-!replicate_add. f_equal. lia.
Qed.

(** The checksum of an all-zero pseudo-header and an empty payload is
    0xFFFF (section 8 of the specification): the accumulator stays zero and
    its complement is all ones. *)
Theorem ip_chksum_zero stack s dst data :
  src_ip s = replicate (Z.to_nat IP_ADDR_LEN) Byte.x00 ->
  dst = replicate (Z.to_nat IP_ADDR_LEN) Byte.x00 ->
  ip_chksum stack s dst Byte.x00 data 0 = Ok 65535.
Proof.
  intros Hs Hd. layout_facts. rewrite ip_chksum_value.
  - rewrite pseudo_bytes_zero, words_replicate_zero by done.
    by rewrite ones_sum_replicate_zero.
  - unfold chksum_args_ok. rewrite Hs, Hd, !length_replicate. lia.
Qed.

(** C40: the last byte of a payload of odd length is not summed: the code
    neither pads it with a zero byte nor reads it, so two payloads that
    differ in that byte only have the same checksum. *)
Theorem ip_chksum_odd_length stack s dst protocol data b b' :
  Nat.Even (length data) ->
  IP_ADDR_LEN <= Z.of_nat (length (src_ip s)) ->
  IP_ADDR_LEN <= Z.of_nat (length dst) ->
  Z.of_nat (length data) < IP_DATA_MAX_LEN ->
  ip_chksum stack s dst protocol (data ++ [b]) (Z.of_nat (length data) + 1)
  = ip_chksum stack s dst protocol (data ++ [b']) (Z.of_nat (length data) + 1).
Proof.
  intros Hev Hs Hd Hlen.
  assert (Hpb : forall c, words host_order
            (pseudo_bytes s dst protocol (data ++ [c]) (Z.of_nat (length data) + 1))
          = words host_order
              (pseudo_header s dst protocol (Z.of_nat (length data) + 1) ++ data)).
  { intros c. unfold pseudo_bytes.
    rewrite slice_full, app_assoc by (rewrite length_app; simpl; lia).
    apply words_snoc_odd. rewrite length_app. apply Nat.Even_Even_add; [|done].
    pose proof (length_pseudo_header s dst protocol (Z.of_nat (length data) + 1) Hs Hd) as Hl.
    unfold PSEUDO_PACKET_HEADER_LEN in Hl.
    exists (Z.to_nat (IP_ADDR_LEN + 4)). lia. }
  rewrite !ip_chksum_value, !Hpb; [done|..];
    unfold chksum_args_ok; rewrite length_app; simpl; lia.
Qed.

End Inputs.

(** ** The theorems at concrete inputs *)

Section Witnesses.

Lemma ip_chksum_ok_witness :
  @chksum_args_ok ipv6_ethernet example_session example_dst
    [Byte.x01; Byte.x02; Byte.x03] 3 /\
  @ip_chksum ipv6_ethernet [Byte.xaa; Byte.xbb] example_session example_dst
    Byte.x06 [Byte.x01; Byte.x02; Byte.x03] 3 = Ok 48007.
Proof.
  assert (H : @chksum_args_ok ipv6_ethernet example_session example_dst
                [Byte.x01; Byte.x02; Byte.x03] 3)
    by (unfold chksum_args_ok; simpl; lia).
  split; [exact H|].
  rewrite (@ip_chksum_ok ipv6_ethernet _ _ _ Byte.x06 _ _ H).
  vm_compute. reflexivity.
Defined.

Lemma ip_chksum_verifies_witness :
  ones_sum (words (@host_order ipv6_ethernet)
              (@pseudo_bytes ipv6_ethernet example_session example_dst Byte.x06
                 [Byte.x01; Byte.x02; Byte.x03] 3) ++ [48007])
  = 65535.
Proof.
  apply (@ip_chksum_verifies ipv6_ethernet [Byte.xaa; Byte.xbb] example_session
           example_dst Byte.x06 [Byte.x01; Byte.x02; Byte.x03] 3 48007).
  - by_decide.
  - vm_compute. reflexivity.
Defined.

Lemma ip_chksum_bounds_witness :
  usize (@PSEUDO_PACKET_HEADER_LEN small_params + 3) / 2 < 2 ^ 31 /\
  2 * (usize (@PSEUDO_PACKET_HEADER_LEN small_params + 3) / 2) <= Z.of_nat (length
         (@pseudo_bytes small_params example_session example_dst Byte.x06
            [Byte.x01; Byte.x02; Byte.x03] 3 ++ replicate 77 Byte.x00)) /\
  exists acc,
    @chksum_loop small_params
      (@pseudo_bytes small_params example_session example_dst Byte.x06
         [Byte.x01; Byte.x02; Byte.x03] 3 ++ replicate 77 Byte.x00) 21 0 0
    = Ok acc /\ 0 <= acc < 2 ^ 16.
Proof.
  apply (@ip_chksum_bounds small_params [] example_session example_dst Byte.x06
           [Byte.x01; Byte.x02; Byte.x03] 3 _ 21).
  - by_decide.
  - by vm_compute.
  - by vm_compute.
Defined.

Lemma ip_chksum_too_long_witness :
  @ip_chksum small_params [] example_session example_dst Byte.x06
    (replicate 100 Byte.x01) 81 = Fault OutOfBounds.
Proof.
  apply (@ip_chksum_too_long small_params); simpl; lia.
Defined.

Lemma ip_chksum_zero_witness :
  @ip_chksum ipv6_ethernet [Byte.xff; Byte.xff]
    (Session 0 [] (replicate 16 Byte.x00) 0 0) (replicate 16 Byte.x00)
    Byte.x00 [] 0 = Ok 65535.
Proof. apply (@ip_chksum_zero ipv6_ethernet); reflexivity. Defined.

Lemma ip_chksum_odd_length_witness :
  @ip_chksum ipv6_ethernet [] example_session example_dst Byte.x11
    ([Byte.x01; Byte.x02] ++ [Byte.x03]) (Z.of_nat 2 + 1)
  = @ip_chksum ipv6_ethernet [] example_session example_dst Byte.x11
      ([Byte.x01; Byte.x02] ++ [Byte.xff]) (Z.of_nat 2 + 1).
Proof.
  apply (@ip_chksum_odd_length ipv6_ethernet); try (simpl; lia).
  exists 1%nat. reflexivity.
Defined.

End Witnesses.
