(* ===== verification/Detect.v ===== *)
(** * Detect: the errors [ip_chksum] detects (src/src/ip.c, lines 94-137)

    A checksum is there to tell a damaged packet from the packet that was
    sent.  This file shows what the value [ip_chksum] returns tells apart.
    A change of one 16-bit word of what it sums changes the value, unless
    the word goes from 0x0000 to 0xFFFF or back ([ones_sum_detects],
    [ones_sum_blind]).  So the change of a single byte of the payload,
    among those that are summed ([summed]), is always detected
    ([ip_chksum_detects_byte]); a word 0x0000 overwritten ([set_word]) by
    0xFFFF never is ([ip_chksum_blind_ones]), and neither is the exchange
    of whole words ([ip_chksum_blind_reorder]).  The theorems are stated on
    the code of [Checksum.v]; the arithmetic is that of its reference
    definition [fold16]. *)

From S2P Require Import Prelude.
From S2P Require Import Layout.
From S2P Require Import Checksum.

(** ** Damage *)

(** The byte at index [i] of a payload is among those [ip_chksum] sums: all
    of them when the length is even, all but the last when it is odd (the
    bound of the loop, line 133, is a number of whole words). *)
Definition summed (data : list byte) (i : nat) : Prop :=
  (i < 2 * (length data / 2))%nat.

#[export] Instance summed_dec data i : Decision (summed data i).
Proof. unfold summed. apply _. Defined.

(** A payload with the word at index [j] (its bytes [2 * j] and
    [2 * j + 1]) overwritten by the bytes [b0] and [b1]. *)
Definition set_word (data : list byte) (j : nat) (b0 b1 : byte) : list byte :=
  <[(2 * j + 1)%nat := b1]> (<[(2 * j)%nat := b0]> data).

(** ** The sum *)

Section Sum.
Implicit Types (ws : list Z) (a b s t : Z).

(** Two sums with the same representative are congruent modulo 65535. *)
Lemma fold16_eq_mod s t :
  0 <= s -> 0 <= t -> fold16 s = fold16 t -> (s - t) mod 65535 = 0.
Proof.
  intros Hs Ht Heq.
  pose proof (fold16_mod s Hs) as Hms. pose proof (fold16_mod t Ht) as Hmt.
  rewrite Heq in Hms. zmod.
Qed.

(** The sum of a list of words with one word singled out. *)
Lemma ones_sum_insert ws1 ws2 a :
  ones_sum (ws1 ++ a :: ws2)
  = fold16 (Zsum (u16 <$> ws1) + u16 a + Zsum (u16 <$> ws2)).
Proof.
  rewrite ones_sum_fold16, fmap_app, Zsum_app. cbn [fmap list_fmap Zsum].
  f_equal. lia.
Qed.

(** A word that changes changes the sum, unless it changes by 65535. *)
Lemma ones_sum_detects ws1 ws2 a b :
  is_u16 a -> is_u16 b -> a <> b -> Z.abs (a - b) <> 65535 ->
  ones_sum (ws1 ++ a :: ws2) <> ones_sum (ws1 ++ b :: ws2).
Proof.
  unfold is_u16. intros Ha Hb Hne Habs. rewrite !ones_sum_insert.
  rewrite !u16_small by lia.
  pose proof (Zsum_u16_nonneg ws1). pose proof (Zsum_u16_nonneg ws2).
  intros Heq%fold16_eq_mod; [|lia..]. zmod.
Qed.

(** The blind spot: among words that are not all zero, 0x0000 and 0xFFFF
    are the same word. *)
Lemma ones_sum_blind ws1 ws2 :
  Zsum (u16 <$> ws1 ++ ws2) <> 0 ->
  ones_sum (ws1 ++ 0 :: ws2) = ones_sum (ws1 ++ 65535 :: ws2).
Proof.
  rewrite fmap_app, Zsum_app. intros Hnz. rewrite !ones_sum_insert.
  pose proof (Zsum_u16_nonneg ws1). pose proof (Zsum_u16_nonneg ws2).
  change (u16 0) with 0. change (u16 65535) with 65535.
  unfold fold16. cases_Z; try lia. zmod.
Qed.

End Sum.

(** ** The words of two buffers that differ in one byte *)

Section Words.
Implicit Types (l : list byte) (x y z : byte).

Lemma word16_change_l e x y z :
  x <> y ->
  word16 e x z <> word16 e y z /\
  Z.abs (word16 e x z - word16 e y z) <> 65535.
Proof.
  intros Hne. pose proof (byte.unsigned_range x). pose proof (byte.unsigned_range y).
  assert (byte.unsigned x <> byte.unsigned y) by (by intros ?%byte.unsigned_inj).
  destruct e; cbn [word16]; lia.
Qed.

Lemma word16_change_r e x y z :
  x <> y ->
  word16 e z x <> word16 e z y /\
  Z.abs (word16 e z x - word16 e z y) <> 65535.
Proof.
  intros Hne. pose proof (byte.unsigned_range x). pose proof (byte.unsigned_range y).
  assert (byte.unsigned x <> byte.unsigned y) by (by intros ?%byte.unsigned_inj).
  destruct e; cbn [word16]; lia.
Qed.

(** A list of odd length ends with a byte that follows a list of even
    length. *)
Lemma odd_length_snoc l :
  Nat.Odd (length l) -> exists l' z, l = l' ++ [z] /\ Nat.Even (length l').
Proof.
  intros Hodd. destruct (decide (l = [])) as [->|Hne].
  - destruct Hodd as [k Hk]. simpl in Hk. lia.
  - destruct (exists_last Hne) as (l' & z & ->). exists l', z. split; [done|].
    rewrite length_app in Hodd. simpl in Hodd.
    destruct Hodd as [k Hk]. exists k. lia.
Qed.

(** Two buffers that differ in one byte among those that are summed have
    the same words but one, and that word differs by less than 65535. *)
Lemma words_change_byte e l1 l2 x y :
  x <> y -> (length l1 < 2 * (length (l1 ++ x :: l2) / 2))%nat ->
  exists ws1 ws2 a b,
    words e (l1 ++ x :: l2) = ws1 ++ a :: ws2 /\
    words e (l1 ++ y :: l2) = ws1 ++ b :: ws2 /\
    is_u16 a /\ is_u16 b /\ a <> b /\ Z.abs (a - b) <> 65535.
Proof.
  intros Hne Hin. rewrite length_app in Hin. cbn [length] in Hin.
  destruct (Nat.Even_or_Odd (length l1)) as [Hev|Hodd].
  - destruct l2 as [|z l2].
    { destruct Hev as [k Hk]. cbn [length] in Hin.
      pose proof (Nat.div_mod_eq (length l1 + 1) 2). lia. }
    exists (words e l1), (words e l2), (word16 e x z), (word16 e y z).
    rewrite !words_app by done. cbn [words].
    split_and!; try done; try apply word16_range; by apply word16_change_l.
  - destruct (odd_length_snoc l1 Hodd) as (l' & z & -> & Hev).
    exists (words e l'), (words e l2), (word16 e z x), (word16 e z y).
    rewrite <-!app_assoc, !(words_app e l') by done. cbn [app words].
    split_and!; try done; try apply word16_range; by apply word16_change_r.
Qed.

(** The word at index [j] overwritten, as a list. *)
Lemma set_word_split l (j : nat) b0 b1 :
  (2 * j + 1 < length l)%nat ->
  set_word l j b0 b1 = take (2 * j) l ++ [b0; b1] ++ drop (2 * j + 2) l.
Proof.
  intros Hlt. unfold set_word.
  assert (Hrest : drop (2 * j + 2) l = drop 2 (drop (2 * j) l))
    by (rewrite drop_drop; f_equal; lia).
  rewrite Hrest. rewrite <-(take_drop (2 * j) l) at 1.
  pose proof (length_drop l (2 * j)) as Hlen.
  destruct (drop (2 * j) l) as [|x0 [|x1 rest]]; [simpl in Hlen; lia..|].
  rewrite !insert_app_r_alt by (rewrite ?length_insert, length_take; lia).
  rewrite length_take, Nat.min_l by lia.
  replace (2 * j - 2 * j)%nat with 0%nat by lia.
  replace (2 * j + 1 - 2 * j)%nat with 1%nat by lia.
  done.
Qed.

(** Overwriting a word with the bytes it holds changes nothing. *)
Lemma set_word_zero l (j : nat) :
  l !! (2 * j)%nat = Some Byte.x00 -> l !! (2 * j + 1)%nat = Some Byte.x00 ->
  set_word l j Byte.x00 Byte.x00 = l.
Proof.
  intros H0 H1. unfold set_word. rewrite (list_insert_id l (2 * j)) by done.
  by apply list_insert_id.
Qed.

End Words.

(** ** The checksum of a damaged payload *)

Section Payload.
Context `{P : IpParams}.
Implicit Types (stack dst data d : list byte) (s : session).

(** The words [ip_chksum] sums of a whole payload: those of the
    pseudo-header, then those of the payload. *)
Lemma pseudo_words_whole s dst protocol data :
  IP_ADDR_LEN <= Z.of_nat (length (src_ip s)) ->
  IP_ADDR_LEN <= Z.of_nat (length dst) ->
  words host_order (pseudo_bytes s dst protocol data (Z.of_nat (length data)))
  = words host_order (pseudo_header s dst protocol (Z.of_nat (length data)))
    ++ words host_order data.
Proof.
  intros Hs Hd. unfold pseudo_bytes. rewrite slice_full by done.
  apply words_app.
  pose proof (length_pseudo_header s dst protocol (Z.of_nat (length data)) Hs Hd) as Hl.
  unfold PSEUDO_PACKET_HEADER_LEN in Hl.
  exists (Z.to_nat (IP_ADDR_LEN + 4)). lia.
Qed.

(** The checksum of a whole payload, from the words of the payload. *)
Lemma ip_chksum_whole stack s dst protocol data n :
  n = Z.of_nat (length data) -> chksum_args_ok s dst data n ->
  ip_chksum stack s dst protocol data n
  = Ok (65535
        - ones_sum (words host_order (pseudo_header s dst protocol n)
                    ++ words host_order data)).
Proof.
  intros -> Hok. pose proof Hok as (? & ? & ? & ?).
  by rewrite ip_chksum_value, pseudo_words_whole.
Qed.

(** The arguments stay valid when the payload changes and its length does
    not. *)
Lemma chksum_args_ok_length s dst data data' n :
  length data' = length data ->
  chksum_args_ok s dst data n -> chksum_args_ok s dst data' n.
Proof. unfold chksum_args_ok. by intros ->. Qed.

(** Two payloads that differ in the byte after [d1]. *)
Lemma ip_chksum_detects_split stack stack' s dst protocol d1 d2 x y :
  let n := Z.of_nat (length (d1 ++ x :: d2)) in
  chksum_args_ok s dst (d1 ++ x :: d2) n ->
  x <> y -> Z.of_nat (length d1) < 2 * (n / 2) ->
  exists c c',
    ip_chksum stack s dst protocol (d1 ++ x :: d2) n = Ok c /\
    ip_chksum stack' s dst protocol (d1 ++ y :: d2) n = Ok c' /\
    c <> c'.
Proof.
  intros n Hok Hne Hin.
  assert (Hlen : length (d1 ++ y :: d2) = length (d1 ++ x :: d2))
    by (by rewrite !length_app).
  destruct (words_change_byte host_order d1 d2 x y Hne)
    as (ws1 & ws2 & a & b & Hx & Hy & Ha & Hb & Hab & Habs).
  { unfold n in Hin. rewrite <-(Nat2Z.inj_div _ 2) in Hin. lia. }
  do 2 eexists. split_and!;
    [apply ip_chksum_whole; [done|exact Hok]
    |apply ip_chksum_whole; [by rewrite Hlen|by eapply chksum_args_ok_length]|].
  rewrite Hx, Hy, !app_assoc.
  pose proof (ones_sum_detects
                (words host_order (pseudo_header s dst protocol n) ++ ws1)
                ws2 a b Ha Hb Hab Habs).
  lia.
Qed.

(** The order of the words is not protected.  Two payloads that differ
    by the exchange of two neighbouring runs of whole words have the same
    checksum. *)
Theorem ip_chksum_blind_reorder stack s dst protocol d1 u v d2 :
  let n := Z.of_nat (length (d1 ++ u ++ v ++ d2)) in
  chksum_args_ok s dst (d1 ++ u ++ v ++ d2) n ->
  Nat.Even (length d1) -> Nat.Even (length u) -> Nat.Even (length v) ->
  ip_chksum stack s dst protocol (d1 ++ v ++ u ++ d2) n
  = ip_chksum stack s dst protocol (d1 ++ u ++ v ++ d2) n.
Proof.
  intros n Hok H1 Hu Hv.
  assert (Hlen : length (d1 ++ v ++ u ++ d2) = length (d1 ++ u ++ v ++ d2))
    by (rewrite !length_app; lia).
  rewrite !ip_chksum_whole;
    [|done|done|by rewrite Hlen|by eapply chksum_args_ok_length].
  rewrite !words_app by done. do 2 f_equal. apply ones_sum_proper.
  do 2 f_equiv. rewrite !app_assoc. f_equiv. apply Permutation_app_comm.
Qed.

(** The length field of the pseudo-header makes the sum of its words
    positive for every payload that is not empty. *)
Lemma Zsum_pseudo_header_pos s dst protocol n :
  IP_ADDR_LEN <= Z.of_nat (length (src_ip s)) ->
  IP_ADDR_LEN <= Z.of_nat (length dst) -> 0 < n < 2 ^ 16 ->
  0 < Zsum (words host_order (pseudo_header s dst protocol n)).
Proof.
  intros Hs Hd Hn. layout_facts. unfold pseudo_header.
  rewrite app_assoc, words_app.
  2:{ exists (Z.to_nat IP_ADDR_LEN). rewrite length_app, !length_slice; lia. }
  rewrite Zsum_app. rewrite <-(fmap_u16_words _ (_ ++ _)).
  pose proof (Zsum_u16_nonneg
                (words host_order (slice (src_ip s) 0 IP_ADDR_LEN
                                   ++ slice dst 0 IP_ADDR_LEN))).
  unfold htonl, be32. rewrite u32_small by lia. cbn [app words Zsum].
  pose proof (word16_range host_order (byte.of_Z (n / 2 ^ 24)) (byte.of_Z (n / 2 ^ 16))).
  pose proof (word16_range host_order Byte.x00 Byte.x00).
  pose proof (word16_range host_order Byte.x00 protocol).
  assert (0 < word16 host_order (byte.of_Z (n / 2 ^ 8)) (byte.of_Z n)); [|lia].
  destruct host_order; cbn [word16]; rewrite !byte.unsigned_of_Z;
    unfold byte.wrap; zmod.
Qed.

(** Two payloads that differ in the word after [d1], 0x0000 in the one and
    0xFFFF in the other. *)
Lemma ip_chksum_blind_split stack s dst protocol d1 d2 :
  let n := Z.of_nat (length (d1 ++ [Byte.x00; Byte.x00] ++ d2)) in
  chksum_args_ok s dst (d1 ++ [Byte.x00; Byte.x00] ++ d2) n ->
  Nat.Even (length d1) ->
  ip_chksum stack s dst protocol (d1 ++ [Byte.xff; Byte.xff] ++ d2) n
  = ip_chksum stack s dst protocol (d1 ++ [Byte.x00; Byte.x00] ++ d2) n.
Proof.
  intros n Hok Hev. pose proof Hok as (Hs & Hd & Hn & _). layout_facts.
  assert (Hlen : length (d1 ++ [Byte.xff; Byte.xff] ++ d2)
                 = length (d1 ++ [Byte.x00; Byte.x00] ++ d2))
    by (by rewrite !length_app).
  rewrite !ip_chksum_whole;
    [|done|done|by rewrite Hlen|by eapply chksum_args_ok_length].
  rewrite !(words_app _ d1) by done. cbn [app words].
  replace (word16 host_order Byte.xff Byte.xff) with 65535
    by (by destruct host_order).
  replace (word16 host_order Byte.x00 Byte.x00) with 0
    by (by destruct host_order).
  rewrite !app_assoc, <-ones_sum_blind; [done|].
  rewrite !fmap_app, !fmap_u16_words, !Zsum_app.
  pose proof (Zsum_pseudo_header_pos s dst protocol n Hs Hd) as Hpos.
  pose proof (Zsum_u16_nonneg (words host_order d1)) as Hd1.
  pose proof (Zsum_u16_nonneg (words host_order d2)) as Hd2.
  rewrite fmap_u16_words in Hd1, Hd2.
  assert (2 <= n) by (unfold n; rewrite !length_app; simpl; lia). lia.
Qed.

(** C10: every single-byte error is detected.  A payload and the same
    payload with one byte changed, among the bytes the code sums, have
    different checksums, whatever the stack held at either call. *)
Theorem ip_chksum_detects_byte stack stack' s dst protocol data (i : nat) x y :
  let n := Z.of_nat (length data) in
  chksum_args_ok s dst data n ->
  data !! i = Some x -> x <> y -> summed data i ->
  exists c c',
    ip_chksum stack s dst protocol data n = Ok c /\
    ip_chksum stack' s dst protocol (<[i := y]> data) n = Ok c' /\
    c <> c'.
Proof.
  intros n Hok Hi Hne Hin. pose proof (lookup_lt_Some _ _ _ Hi) as Hlt.
  pose proof (ip_chksum_detects_split stack stack' s dst protocol
                (take i data) (drop (S i) data) x y) as Hd.
  cbv zeta in Hd. rewrite (take_drop_middle data i x Hi) in Hd.
  rewrite insert_take_drop by done. apply Hd; [done..|].
  rewrite length_take. unfold summed in Hin.
  rewrite <-(Nat2Z.inj_div _ 2). lia.
Qed.

(** C34: the checksum cannot tell 0x0000 from 0xFFFF.  A payload in which a
    whole word 0x0000 is overwritten by 0xFFFF has the checksum of the
    original. *)
Theorem ip_chksum_blind_ones stack s dst protocol data (j : nat) :
  let n := Z.of_nat (length data) in
  chksum_args_ok s dst data n ->
  data !! (2 * j)%nat = Some Byte.x00 ->
  data !! (2 * j + 1)%nat = Some Byte.x00 ->
  ip_chksum stack s dst protocol (set_word data j Byte.xff Byte.xff) n
  = ip_chksum stack s dst protocol data n.
Proof.
  intros n Hok H0 H1. pose proof (lookup_lt_Some _ _ _ H1) as Hlt.
  pose proof (ip_chksum_blind_split stack s dst protocol
                (take (2 * j) data) (drop (2 * j + 2) data)) as Hb.
  assert (Hsame : take (2 * j) data ++ [Byte.x00; Byte.x00]
                  ++ drop (2 * j + 2) data = data)
    by (rewrite <-set_word_split by lia; by apply set_word_zero).
  cbv zeta in Hb. rewrite Hsame in Hb. rewrite <-set_word_split in Hb by lia.
  apply Hb; [done|]. exists j. rewrite length_take. lia.
Qed.

End Payload.

(** ** The theorems at concrete inputs *)

Section Witnesses.

Lemma ip_chksum_detects_byte_witness :
  exists c c',
    @ip_chksum small_params [] example_session example_dst Byte.x06
      [Byte.x01; Byte.x02; Byte.x03; Byte.x04] 4 = Ok c /\
    @ip_chksum small_params [] example_session example_dst Byte.x06
      [Byte.x01; Byte.x02; Byte.xff; Byte.x04] 4 = Ok c' /\
    c <> c'.
Proof.
  apply (@ip_chksum_detects_byte small_params [] [] example_session example_dst
           Byte.x06 [Byte.x01; Byte.x02; Byte.x03; Byte.x04] 2 Byte.x03 Byte.xff).
  - by_decide.
  - reflexivity.
  - discriminate.
  - by_decide.
Defined.

Lemma ip_chksum_blind_reorder_witness :
  @ip_chksum small_params [] example_session example_dst Byte.x06
    [Byte.x03; Byte.x04; Byte.x01; Byte.x02] 4
  = @ip_chksum small_params [] example_session example_dst Byte.x06
      [Byte.x01; Byte.x02; Byte.x03; Byte.x04] 4.
Proof.
  apply (@ip_chksum_blind_reorder small_params [] example_session example_dst
           Byte.x06 [] [Byte.x01; Byte.x02] [Byte.x03; Byte.x04] []).
  - by_decide.
  - by exists 0%nat.
  - by exists 1%nat.
  - by exists 1%nat.
Defined.

Lemma ip_chksum_blind_ones_witness :
  @ip_chksum small_params [] example_session example_dst Byte.x06
    [Byte.x01; Byte.x02; Byte.xff; Byte.xff] 4
  = @ip_chksum small_params [] example_session example_dst Byte.x06
      [Byte.x01; Byte.x02; Byte.x00; Byte.x00] 4.
Proof.
  apply (@ip_chksum_blind_ones small_params [] example_session example_dst
           Byte.x06 [Byte.x01; Byte.x02; Byte.x00; Byte.x00] 1).
  - by_decide.
  - reflexivity.
  - reflexivity.
Defined.

End Witnesses.
