(* ===== verification/Link.v ===== *)
(** * Link: the link layer as an interface

    [ip_send] and [ip_recv] call [eth_send] and [eth_recv] of [ethernet.h],
    which are not part of the sources.  The class [LinkLayer] is what the
    network layer sees of them (section 6 of the specification): a state,
    a send primitive that returns the number of bytes it took, a receive
    primitive that returns a frame.  The theorems on the network layer are
    proved for every instance; four instances are given: a scripted link whose
    answers are listed in advance, a link that takes of each frame a number
    of bytes computed from its length, a loopback link that delivers the
    frames it was handed, and a link with a frame size that delivers the
    part of each frame that fits. *)

From S2P Require Import Prelude.
From S2P Require Import Layout.

(** ** The interface *)

Class LinkLayer (L : Type) : Type := {
  (** [eth_send(session, dst_hw_addr, buffer, len)]: the link is handed the
      [len] bytes at [buffer] and returns how many it sent. *)
  eth_send : L -> session -> list byte -> list byte -> Z * L;
  (** [eth_recv(session, buffer)]: the frame written at [buffer]; the value
      returned is its length, zero when there is none. *)
  eth_recv : L -> session -> list byte * L;
}.

(** ** A scripted link *)

Record wire : Type := Wire {
  (** the values the next calls of [eth_send] return; zero once exhausted *)
  replies : list Z;
  (** the address and bytes handed to [eth_send], oldest first *)
  handed : list (list byte * list byte);
  (** the frames the next calls of [eth_recv] return *)
  inbox : list (list byte);
}.

Definition wire_send (w : wire) (s : session) (hw frame : list byte) : Z * wire :=
  match replies w with
  | [] => (0, Wire [] (handed w ++ [(hw, frame)]) (inbox w))
  | r :: rs => (r, Wire rs (handed w ++ [(hw, frame)]) (inbox w))
  end.

Definition wire_recv (w : wire) (s : session) : list byte * wire :=
  match inbox w with
  | [] => ([], w)
  | f :: fs => (f, Wire (replies w) (handed w) fs)
  end.

#[export] Instance wire_link : LinkLayer wire := {|
  eth_send := wire_send;
  eth_recv := wire_recv;
|}.

(** ** Links that follow a policy *)

(** A link that, handed [n] bytes, takes [f n] of them: [Z.min c] for a
    link that takes at most [c] bytes per call, the identity for one that
    takes every frame whole, a constant for one that is stuck. *)
Record policy (f : Z -> Z) : Type := Policy {
  (** the bytes the link took, call by call, oldest first *)
  taken : list (list byte);
}.

Arguments Policy {f} taken.
Arguments taken {f} p.

Definition policy_send {f : Z -> Z} (c : policy f) (s : session)
    (hw frame : list byte) : Z * policy f :=
  let n := f (Z.of_nat (length frame)) in
  (n, Policy (taken c ++ [slice frame 0 n])).

Definition policy_recv {f : Z -> Z} (c : policy f) (s : session)
  : list byte * policy f :=
  ([], c).

#[export] Instance policy_link (f : Z -> Z) : LinkLayer (policy f) := {|
  eth_send := policy_send;
  eth_recv := policy_recv;
|}.

(** ** A loopback link *)

(** Every frame sent is taken whole and queued for reception. *)
Record loopback : Type := Loopback {
  queue : list (list byte);
}.

Definition loopback_send (q : loopback) (s : session) (hw frame : list byte)
  : Z * loopback :=
  (Z.of_nat (length frame), Loopback (queue q ++ [frame])).

Definition loopback_recv (q : loopback) (s : session) : list byte * loopback :=
  match queue q with
  | [] => ([], q)
  | f :: fs => (f, Loopback fs)
  end.

#[export] Instance loopback_link : LinkLayer loopback := {|
  eth_send := loopback_send;
  eth_recv := loopback_recv;
|}.

(** ** A link with a frame size *)

(** Every call takes the first [mtu] bytes of the frame it is handed, all
    of it when it is not longer, and what it took is queued for reception
    as one frame. *)
Record chunked (mtu : Z) : Type := Chunked {
  in_flight : list (list byte);
}.

Arguments Chunked {mtu} in_flight.
Arguments in_flight {mtu} c.

Definition chunked_send {mtu : Z} (q : chunked mtu) (s : session)
    (hw frame : list byte) : Z * chunked mtu :=
  let n := Z.min mtu (Z.of_nat (length frame)) in
  (n, Chunked (in_flight q ++ [slice frame 0 n])).

Definition chunked_recv {mtu : Z} (q : chunked mtu) (s : session)
  : list byte * chunked mtu :=
  match in_flight q with
  | [] => ([], q)
  | f :: fs => (f, Chunked fs)
  end.

#[export] Instance chunked_link (mtu : Z) : LinkLayer (chunked mtu) := {|
  eth_send := chunked_send;
  eth_recv := chunked_recv;
|}.

(** ** Classes of links *)

Section Links.
Context (L : Type) `{LinkLayer L}.

(** Every call takes the whole frame or nothing. *)
Definition all_or_nothing : Prop :=
  forall (l : L) s hw frame,
    (eth_send l s hw frame).1 = 0 \/
    (eth_send l s hw frame).1 = Z.of_nat (length frame).

(** Every call fails, or takes the whole frame, or takes the header and at
    least one byte of payload; it never takes more than it was handed. *)
Definition progressing (header_len : Z) : Prop :=
  forall (l : L) s hw frame,
    (eth_send l s hw frame).1 = 0 \/
    (eth_send l s hw frame).1 = Z.of_nat (length frame) \/
    header_len < (eth_send l s hw frame).1 <= Z.of_nat (length frame).

(** No call takes more than it was handed. *)
Definition honest : Prop :=
  forall (l : L) s hw frame,
    0 <= (eth_send l s hw frame).1 <= Z.of_nat (length frame).

(** Every call takes at least one byte and less than a header. *)
Definition short_only (header_len : Z) : Prop :=
  forall (l : L) s hw frame, 0 < (eth_send l s hw frame).1 < header_len.

(** Every call takes the header and nothing else. *)
Definition header_only (header_len : Z) : Prop :=
  forall (l : L) s hw frame, (eth_send l s hw frame).1 = header_len.

End Links.

(** The scripted link records every frame it is handed. *)
Lemma wire_send_handed (w w' : wire) s hw frame r :
  eth_send w s hw frame = (r, w') -> handed w' = handed w ++ [(hw, frame)].
Proof. cbn. unfold wire_send. by destruct (replies w); intros [= <- <-]. Qed.

Lemma progressing_honest (L : Type) `{LinkLayer L} (header_len : Z) :
  0 <= header_len -> progressing L header_len -> honest L.
Proof. intros ? Hp l s hw frame. specialize (Hp l s hw frame). lia. Qed.

Lemma all_or_nothing_honest (L : Type) `{LinkLayer L} :
  all_or_nothing L -> honest L.
Proof. intros Ha l s hw frame. specialize (Ha l s hw frame). lia. Qed.

Lemma policy_honest (f : Z -> Z) :
  (forall n, 0 <= n -> 0 <= f n <= n) -> honest (policy f).
Proof. intros Hf l s hw frame. apply Hf. lia. Qed.

Lemma chunked_honest (mtu : Z) : 0 <= mtu -> honest (chunked mtu).
Proof. intros ? l s hw frame. cbn. lia. Qed.

Lemma chunked_progressing (mtu header_len : Z) :
  header_len < mtu -> progressing (chunked mtu) header_len.
Proof. intros ? l s hw frame. cbn. lia. Qed.

(** A frame that fits is taken whole; of a longer one the first [mtu]
    bytes are taken. *)
Lemma chunked_send_whole (mtu : Z) (q : chunked mtu) s hw frame :
  Z.of_nat (length frame) <= mtu ->
  eth_send q s hw frame
  = (Z.of_nat (length frame), Chunked (in_flight q ++ [frame])).
Proof.
  intros. cbn. unfold chunked_send. rewrite Z.min_r by done.
  by rewrite slice_all.
Qed.

Lemma chunked_send_part (mtu : Z) (q : chunked mtu) s hw frame :
  mtu <= Z.of_nat (length frame) ->
  eth_send q s hw frame = (mtu, Chunked (in_flight q ++ [slice frame 0 mtu])).
Proof. intros. cbn. unfold chunked_send. by rewrite Z.min_l by done. Qed.

Lemma loopback_honest : honest loopback.
Proof. intros l s hw frame. cbn. lia. Qed.

Lemma policy_progressing (f : Z -> Z) (header_len : Z) :
  (forall n, 0 <= n -> f n = 0 \/ f n = n \/ header_len < f n <= n) ->
  progressing (policy f) header_len.
Proof. intros Hf l s hw frame. apply Hf. lia. Qed.

Lemma policy_header_only (header_len : Z) :
  header_only (policy (fun _ => header_len)) header_len.
Proof. by intros l s hw frame. Qed.

Lemma policy_short_only (j header_len : Z) :
  0 < j < header_len -> short_only (policy (fun _ => j)) header_len.
Proof. by intros Hj l s hw frame. Qed.

Lemma policy_all_or_nothing : all_or_nothing (policy (fun n => n)).
Proof. intros l s hw frame. by right. Qed.
