(* ===== verification/Packet.v ===== *)
(** * Packet: construction of the header and destination resolution
    (src/src/ip.c, lines 32-58)

    [build_packet] is the first part of [ip_send]: the field stores, in the
    order of the code, over the indeterminate contents of the local
    [packet].  [ip_header] is the header the specification describes
    (section 3), and [build_packet_ok] shows that the stores produce it,
    followed by the payload, followed by what the stack held. *)

From S2P Require Import Prelude.
From S2P Require Import Layout.

Section Code.
Context `{P : IpParams}.

(** [static int ip_to_hw(const uint8_t ip_addr[], uint8_t hw_addr[])]. *)
Definition ip_to_hw (ip_addr hw_addr : list byte) : Z * result (list byte) :=
  let addr := [Byte.x33; Byte.x33; Byte.x00; Byte.x00; Byte.x00; Byte.x00] in
  (0, memcpy hw_addr 0 addr 0 ETH_ADDR_LEN).

(** Lines 46-54 of [ip_send], for the clamped [data_len]. *)
Definition build_packet (stack : list byte) (s : session) (dst_ip : list byte)
    (protocol : byte) (data : list byte) (data_len : Z) : result (list byte) :=
  let packet := alloca sizeof_ip_packet stack in
  let* packet := store packet off_flow (htonl 0) in
  let* packet := store packet off_version [Byte.x60] in
  let* packet := store packet off_payload_length (htons data_len) in
  let* packet := store packet off_next_header [protocol] in
  let* packet := store packet off_hop_limit [byte.of_Z 64] in
  let* packet := memcpy packet off_src_ip (src_ip s) 0 IP_ADDR_LEN in
  let* packet := memcpy packet off_dst_ip dst_ip 0 IP_ADDR_LEN in
  memcpy packet off_data data 0 data_len.

(** ** Reference definitions *)

(** The header of section 3 of the specification: version 6 with traffic
    class and flow zero, the payload length in network byte order, the next
    protocol, the hop limit 64 and the two addresses. *)
Definition ip_header (s : session) (dst_ip : list byte) (protocol : byte)
    (data_len : Z) : list byte :=
  [Byte.x60; Byte.x00; Byte.x00; Byte.x00]
  ++ be16 data_len ++ [protocol] ++ [Byte.x40]
  ++ slice (src_ip s) 0 IP_ADDR_LEN ++ slice dst_ip 0 IP_ADDR_LEN.

(** The local [packet] once built: header, payload, then what the stack
    held. *)
Definition packet_image (stack : list byte) (s : session) (dst_ip : list byte)
    (protocol : byte) (data : list byte) (data_len : Z) : list byte :=
  ip_header s dst_ip protocol data_len ++ slice data 0 data_len
  ++ drop (Z.to_nat (IP_HEADER_LEN + data_len)) (alloca sizeof_ip_packet stack).

(** The link address every destination resolves to. *)
Definition multicast_hw : list byte :=
  slice [Byte.x33; Byte.x33; Byte.x00; Byte.x00; Byte.x00; Byte.x00] 0 ETH_ADDR_LEN.

(** The inputs [ip_send] is defined on. *)
Definition send_args_ok (s : session) (dst data : list byte) (data_len : Z)
  : Prop :=
  IP_ADDR_LEN <= Z.of_nat (length (src_ip s)) /\
  IP_ADDR_LEN <= Z.of_nat (length dst) /\
  0 <= data_len <= Z.of_nat (length data).

#[export] Instance send_args_ok_dec s dst data data_len :
  Decision (send_args_ok s dst data data_len).
Proof. unfold send_args_ok. apply _. Defined.

(** The fields of a header, read back from the bytes of a frame. *)
Definition hdr_version (frame : list byte) : Z :=
  match frame with
  | b :: _ => byte.unsigned b / 16
  | [] => 0
  end.

Definition hdr_payload_length (frame : list byte) : Z :=
  match slice frame off_payload_length 2 with
  | [b0; b1] => word16 BigEndian b0 b1
  | _ => 0
  end.

Definition hdr_next_header (frame : list byte) : list byte :=
  slice frame off_next_header 1.

Definition hdr_hop_limit (frame : list byte) : list byte :=
  slice frame off_hop_limit 1.

Definition hdr_src_ip (frame : list byte) : list byte :=
  slice frame off_src_ip IP_ADDR_LEN.

Definition hdr_dst_ip (frame : list byte) : list byte :=
  slice frame off_dst_ip IP_ADDR_LEN.

End Code.

(** ** The header the code builds *)

Section Build.
Context `{P : IpParams}.
Implicit Types (stack dst data : list byte) (s : session).

Lemma length_ip_header s dst protocol data_len :
  IP_ADDR_LEN <= Z.of_nat (length (src_ip s)) ->
  IP_ADDR_LEN <= Z.of_nat (length dst) ->
  Z.of_nat (length (ip_header s dst protocol data_len)) = IP_HEADER_LEN.
Proof. intros. layout_facts. unfold ip_header. len. Qed.

(** Closed form of the local [packet] after lines 47-54. *)
Lemma build_packet_ok stack s dst protocol data data_len :
  send_args_ok s dst data data_len -> data_len <= IP_DATA_MAX_LEN ->
  build_packet stack s dst protocol data data_len
  = Ok (packet_image stack s dst protocol data data_len).
Proof.
  intros (? & ? & ?) ?. layout_facts. unfold build_packet, packet_image.
  set (buf := alloca _ _).
  assert (Hbuf : Z.of_nat (length buf) = IP_HEADER_LEN + IP_DATA_MAX_LEN).
  { unfold buf. rewrite length_alloca. lia. }
  unfold_offsets. change buf with ([] ++ drop 0 buf) at 1.
  rewrite (store_frontier buf) by len.
  change (htonl 0) with [Byte.x00; Byte.x00; Byte.x00; Byte.x00].
  cbn [bind app length Nat.add]. rewrite store_head. cbn [bind].
  change (Byte.x60 :: ?l)
    with ([Byte.x60; Byte.x00; Byte.x00; Byte.x00] ++ drop 4 buf).
  do 3 (rewrite (store_frontier buf) by len; cbn [bind]).
  do 3 (rewrite (memcpy_frontier buf) by len; cbn [bind]).
  unfold ip_header, htons. rewrite u16_small by lia. rewrite <-!app_assoc.
  do 8 f_equal. len. f_equal. lia.
Qed.

(** The fields of every frame that begins with the header. *)
Lemma ip_header_fields s dst protocol n rest :
  IP_ADDR_LEN <= Z.of_nat (length (src_ip s)) ->
  IP_ADDR_LEN <= Z.of_nat (length dst) -> 0 <= n < 2 ^ 16 ->
  let frame := ip_header s dst protocol n ++ rest in
  hdr_version frame = 6 /\
  hdr_payload_length frame = n /\
  hdr_next_header frame = [protocol] /\
  hdr_hop_limit frame = [Byte.x40] /\
  hdr_src_ip frame = slice (src_ip s) 0 IP_ADDR_LEN /\
  hdr_dst_ip frame = slice dst 0 IP_ADDR_LEN.
Proof.
  intros ? ? ? frame. layout_facts. unfold frame, ip_header.
  rewrite <-!app_assoc. cbn [app]. repeat split; try done.
  - unfold hdr_payload_length. cbn.
    pose proof (word16_be16 n) as Hw. cbn in Hw. apply Hw. lia.
  - apply (slice_app_mid [_; _; _; _; _; _; _; _]); [done|len].
  - apply (slice_app_mid ([_; _; _; _; _; _; _; _] ++ slice (src_ip s) 0 _) _ rest);
      unfold_offsets; len.
Qed.

(** C21: the packet codec (section 4.1 of the specification).  On valid
    arguments [build_packet] succeeds, and the packet it leaves in memory
    reads back as: version 6, the payload length in network byte order, the
    next-protocol byte, hop limit 64, the session's source address, the
    destination address, then the [data_len] bytes of the payload. *)
Theorem build_packet_fields stack s dst protocol data data_len :
  send_args_ok s dst data data_len -> data_len <= IP_DATA_MAX_LEN ->
  exists packet,
    build_packet stack s dst protocol data data_len = Ok packet /\
    hdr_version packet = 6 /\
    hdr_payload_length packet = data_len /\
    hdr_next_header packet = [protocol] /\
    hdr_hop_limit packet = [Byte.x40] /\
    hdr_src_ip packet = slice (src_ip s) 0 IP_ADDR_LEN /\
    hdr_dst_ip packet = slice dst 0 IP_ADDR_LEN /\
    slice packet off_data data_len = slice data 0 data_len.
Proof.
  intros Hok Hmax. pose proof Hok as (? & ? & ?). layout_facts.
  eexists. split; [by apply build_packet_ok|]. unfold packet_image.
  destruct (ip_header_fields s dst protocol data_len
              (slice data 0 data_len
               ++ drop (Z.to_nat (IP_HEADER_LEN + data_len))
                    (alloca sizeof_ip_packet stack)))
    as (? & ? & ? & ? & ? & ?); [done|done|lia|].
  split_and!; [done..|].
  apply slice_app_mid; [rewrite length_ip_header; lia|len].
Qed.

(** Length of the local [packet] once built. *)
Lemma build_packet_length stack s dst protocol data data_len packet :
  build_packet stack s dst protocol data data_len = Ok packet ->
  Z.of_nat (length packet) = IP_PACKET_MAX_LEN.
Proof.
  unfold build_packet. layout_facts. intros Hb.
  bind_inv Hb. same_length. rewrite length_alloca in *. lia.
Qed.

(** The construction of the packet faults only by leaving an object. *)
Lemma build_packet_fault stack s dst protocol data data_len e :
  build_packet stack s dst protocol data data_len = Fault e -> e = OutOfBounds.
Proof. unfold build_packet. intros Hb. by fault_inv. Qed.

End Build.

(** ** Destination resolution *)

Section Resolve.
Context `{P : IpParams}.

Lemma ip_to_hw_eq (ip_addr hw_addr : list byte) :
  Z.of_nat (length hw_addr) = ETH_ADDR_LEN ->
  ip_to_hw ip_addr hw_addr = (0, Ok multicast_hw).
Proof.
  intros Hlen. layout_facts. unfold ip_to_hw, multicast_hw. f_equal.
  rewrite memcpy_ok by (simpl; lia). f_equal. unfold splice.
  rewrite length_slice by (simpl; lia).
  rewrite drop_ge, app_nil_r by lia. done.
Qed.

(** Destination resolution ignores the destination: every address
    resolves to the first [ETH_ADDR_LEN] bytes of 33:33:00:00:00:00, and the
    call never fails, so the early return of [ip_send] is dead code. *)
Theorem ip_to_hw_multicast (ip_addr hw_addr : list byte) :
  Z.of_nat (length hw_addr) = ETH_ADDR_LEN ->
  ip_to_hw ip_addr hw_addr = (0, Ok multicast_hw).
Proof. apply ip_to_hw_eq. Qed.

End Resolve.

Lemma build_packet_fields_witness :
  exists packet,
    @build_packet small_params [] example_session example_dst Byte.x06
      [Byte.x01; Byte.x02; Byte.x03] 3 = Ok packet /\
    hdr_version packet = 6 /\
    hdr_payload_length packet = 3 /\
    hdr_next_header packet = [Byte.x06] /\
    hdr_hop_limit packet = [Byte.x40] /\
    @hdr_src_ip small_params packet = example_src /\
    @hdr_dst_ip small_params packet = example_dst /\
    slice packet (@off_data small_params) 3 = [Byte.x01; Byte.x02; Byte.x03].
Proof.
  apply (@build_packet_fields small_params [] example_session example_dst
           Byte.x06 [Byte.x01; Byte.x02; Byte.x03] 3).
  - unfold send_args_ok. simpl. lia.
  - simpl. lia.
Defined.

Lemma ip_to_hw_multicast_witness :
  @ip_to_hw ipv6_ethernet example_dst (replicate 6 Byte.xee)
  = (0, Ok [Byte.x33; Byte.x33; Byte.x00; Byte.x00; Byte.x00; Byte.x00]).
Proof. apply (@ip_to_hw_multicast ipv6_ethernet). reflexivity. Defined.
