(* ===== verification/Send.v ===== *)
(** * Send: the segmented transmitter [ip_send] (src/src/ip.c, lines 39-78)

    [send_iter] is one iteration of the do-while loop, [send_loop] the loop
    with fuel, [ip_send] the function; [send_spec] is the transmitter the
    specification describes (section 4.3).  The lemmas [send_iter_*] give
    the iteration on each answer of the link (everything, nothing, a part,
    less than a header, more than it was handed), with the wrap-around of
    [size_t] written out; the theorems compose them into the behaviour of
    [ip_send] on the first answers of the link and its refinement of
    [send_spec].  The theorems on whole classes of links are in
    [SendLoop.v]. *)

From S2P Require Import Prelude.
From S2P Require Import Layout.
From S2P Require Import Link.
From S2P Require Import Packet.

Section Code.
Context `{P : IpParams} {L : Type} `{LinkLayer L}.

(** One iteration of the [do ... while] loop, lines 64-73: the link state,
    the packet and [data_left] after it, and the value of [sent]. *)
Definition send_iter (s : session) (dst_hw_addr : list byte) (l : L)
    (packet : list byte) (data_left : Z) : result (L * list byte * Z * Z) :=
  let packet_len := usize (IP_HEADER_LEN + data_left) in
  let* frame := load packet 0 packet_len in
  let '(sent, l) := eth_send l s dst_hw_addr frame in
  let sent := usize sent in
  let data_sent := usize (sent - IP_HEADER_LEN) in
  let data_left := usize (data_left - data_sent) in
  let* packet :=
    if data_sent =? 0 then Ok packet
    else memmove packet off_data (off_data + sent) data_left in
  Ok (l, packet, data_left, sent).

(** The loop, lines 62-75: at most [fuel] iterations. *)
Fixpoint send_loop (fuel : nat) (s : session) (dst_hw_addr : list byte) (l : L)
    (packet : list byte) (data_left : Z) : result (L * Z) :=
  match fuel with
  | O => Fault OutOfFuel
  | S fuel =>
      let* '(l, packet, data_left, sent) :=
        send_iter s dst_hw_addr l packet data_left in
      if negb (sent =? 0) && negb (data_left =? 0)
      then send_loop fuel s dst_hw_addr l packet data_left
      else Ok (l, data_left)
  end.

(** [size_t ip_send(session, dst_ip, protocol, data, data_len)]: the link
    state after the call and the value returned. *)
Definition ip_send (fuel : nat) (stack : list byte) (l : L) (s : session)
    (dst_ip : list byte) (protocol : byte) (data : list byte) (data_len : Z)
  : result (L * Z) :=
  let data_len := Z.min data_len IP_DATA_MAX_LEN in
  let* packet := build_packet stack s dst_ip protocol data data_len in
  let dst_hw_addr := alloca ETH_ADDR_LEN (drop (Z.to_nat sizeof_ip_packet) stack) in
  let '(rc, hw) := ip_to_hw dst_ip dst_hw_addr in
  let* dst_hw_addr := hw in
  if negb (rc =? 0) then Ok (l, 0)
  else
    let* '(l, data_left) := send_loop fuel s dst_hw_addr l packet data_len in
    Ok (l, if data_left =? 0 then data_len else 0).

(** ** The transmitter the specification asks for

    Section 4.3: hand the link the header followed by the unsent rest of the
    payload until nothing is left or the link reports no progress; after a
    partial send, drop from the rest the payload bytes that were sent. *)

Fixpoint spec_loop (fuel : nat) (s : session) (hw : list byte) (l : L)
    (header rest : list byte) : result (L * bool) :=
  match fuel with
  | O => Fault OutOfFuel
  | S fuel =>
      let '(sent, l) := eth_send l s hw (header ++ rest) in
      if sent =? 0 then Ok (l, false)
      else
        let rest := drop (Z.to_nat (sent - Z.of_nat (length header))) rest in
        if decide (rest = []) then Ok (l, true)
        else spec_loop fuel s hw l header rest
  end.

Definition send_spec (fuel : nat) (l : L) (s : session) (dst_ip : list byte)
    (protocol : byte) (data : list byte) (data_len : Z) : result (L * Z) :=
  let n := Z.min data_len IP_DATA_MAX_LEN in
  let* '(l, done) :=
    spec_loop fuel s multicast_hw l (ip_header s dst_ip protocol n)
      (slice data 0 n) in
  Ok (l, if done : bool then n else 0).

(** ** Auxiliary definitions *)

(** What an iteration starts from: a packet of the size of the local and a
    [data_left] that fits it. *)
Definition iter_ok (packet : list byte) (d : Z) : Prop :=
  Z.of_nat (length packet) = IP_PACKET_MAX_LEN /\ 0 <= d <= IP_DATA_MAX_LEN.

(** The bytes after the payload in the local [packet]: what the stack held. *)
Definition stack_tail (stack : list byte) (n : Z) : list byte :=
  drop (Z.to_nat (IP_HEADER_LEN + n)) (alloca sizeof_ip_packet stack).

End Code.

(** ** One iteration *)

Section Iteration.
Context `{P : IpParams} {L : Type} `{LinkLayer L}.
Implicit Types (l : L) (s : session) (hw packet : list byte) (d k : Z).

Lemma send_iter_frame s hw l packet d :
  iter_ok packet d ->
  load packet 0 (usize (IP_HEADER_LEN + d))
  = Ok (slice packet 0 (IP_HEADER_LEN + d)).
Proof.
  intros [? ?]. layout_facts. rewrite usize_small by lia. apply load_ok; lia.
Qed.

(** The iteration once the frame is read and the link has answered [r]. *)
Lemma send_iter_answer s hw l l' packet d r :
  iter_ok packet d ->
  eth_send l s hw (slice packet 0 (IP_HEADER_LEN + d)) = (r, l') ->
  send_iter s hw l packet d
  = (let sent := usize r in
     let data_sent := usize (sent - IP_HEADER_LEN) in
     let data_left := usize (d - data_sent) in
     let* packet :=
       if data_sent =? 0 then Ok packet
       else memmove packet off_data (off_data + sent) data_left in
     Ok (l', packet, data_left, sent)).
Proof.
  intros Hok Hsend. unfold send_iter.
  rewrite send_iter_frame by done. cbn [bind]. by rewrite Hsend.
Qed.

(** Starts the proof of an iteration lemma from the answer of the link. *)
Ltac iter_answer Hok Hsend :=
  rewrite (send_iter_answer _ _ _ _ _ _ _ Hok Hsend);
  destruct Hok as [? ?]; layout_facts; cbv zeta.

(** The link takes the whole frame: nothing is left, nothing moves. *)
Lemma send_iter_all s hw l l' packet d :
  iter_ok packet d ->
  eth_send l s hw (slice packet 0 (IP_HEADER_LEN + d)) = (IP_HEADER_LEN + d, l') ->
  send_iter s hw l packet d = Ok (l', packet, 0, IP_HEADER_LEN + d).
Proof.
  intros Hok Hsend.
  iter_answer Hok Hsend. unwrap_small.
  replace (IP_HEADER_LEN + d - IP_HEADER_LEN) with d by lia.
  unwrap_small. rewrite Z.sub_diag. unwrap_small.
  destruct (d =? 0); [done|]. by rewrite memmove_zero.
Qed.

(** The link takes the header and nothing else: nothing changes. *)
Lemma send_iter_header s hw l l' packet d :
  iter_ok packet d ->
  eth_send l s hw (slice packet 0 (IP_HEADER_LEN + d)) = (IP_HEADER_LEN, l') ->
  send_iter s hw l packet d = Ok (l', packet, d, IP_HEADER_LEN).
Proof.
  intros Hok Hsend.
  iter_answer Hok Hsend. unwrap_small. rewrite Z.sub_diag. unwrap_small.
  rewrite Z.sub_0_r. unwrap_small. done.
Qed.

(** The link fails: [sent - IP_HEADER_LEN] wraps around, [data_left] grows by
    the length of the header, and [memmove] is called on that many bytes. *)
Lemma send_iter_down s hw l l' packet d :
  iter_ok packet d -> d + IP_HEADER_LEN <= IP_DATA_MAX_LEN ->
  eth_send l s hw (slice packet 0 (IP_HEADER_LEN + d)) = (0, l') ->
  send_iter s hw l packet d = Ok (l', packet, d + IP_HEADER_LEN, 0).
Proof.
  intros Hok Hfit Hsend.
  iter_answer Hok Hsend. rewrite (usize_small 0), (usize_underflow 0) by lia.
  replace (usize (d - _)) with (d + IP_HEADER_LEN) by zmod.
  destruct (Z.eqb_spec (2 ^ 64 - (IP_HEADER_LEN - 0)) 0); [lia|].
  rewrite Z.add_0_r, memmove_same by lia. done.
Qed.

Lemma send_iter_down_overrun s hw l l' packet d :
  iter_ok packet d -> IP_DATA_MAX_LEN < d + IP_HEADER_LEN ->
  eth_send l s hw (slice packet 0 (IP_HEADER_LEN + d)) = (0, l') ->
  send_iter s hw l packet d = Fault OutOfBounds.
Proof.
  intros Hok Hfit Hsend.
  iter_answer Hok Hsend. rewrite (usize_small 0), (usize_underflow 0) by lia.
  replace (usize (d - _)) with (d + IP_HEADER_LEN) by zmod.
  destruct (Z.eqb_spec (2 ^ 64 - (IP_HEADER_LEN - 0)) 0); [lia|].
  rewrite memmove_fault by lia. done.
Qed.

(** The link takes the header and [k] bytes of payload, [0 < k < d]: the
    [d - k] bytes moved to the front of the payload are those at offset
    [IP_HEADER_LEN + k] of the payload, not those at offset [k]. *)
Lemma send_iter_partial s hw l l' packet d k :
  iter_ok packet d -> 0 < k < d -> d + IP_HEADER_LEN <= IP_DATA_MAX_LEN ->
  eth_send l s hw (slice packet 0 (IP_HEADER_LEN + d)) = (IP_HEADER_LEN + k, l') ->
  send_iter s hw l packet d
  = Ok (l',
        splice packet off_data
          (slice packet (off_data + IP_HEADER_LEN + k) (d - k)),
        d - k, IP_HEADER_LEN + k).
Proof.
  intros Hok Hk Hfit Hsend.
  iter_answer Hok Hsend. unwrap_small.
  replace (IP_HEADER_LEN + k - IP_HEADER_LEN) with k by lia.
  unwrap_small. destruct (Z.eqb_spec k 0); [lia|].
  unfold memmove. rewrite memcpy_ok by lia. cbn [bind].
  by rewrite Z.add_assoc.
Qed.

Lemma send_iter_partial_overrun s hw l l' packet d k :
  iter_ok packet d -> 0 < k < d -> IP_DATA_MAX_LEN < d + IP_HEADER_LEN ->
  eth_send l s hw (slice packet 0 (IP_HEADER_LEN + d)) = (IP_HEADER_LEN + k, l') ->
  send_iter s hw l packet d = Fault OutOfBounds.
Proof.
  intros Hok Hk Hfit Hsend.
  iter_answer Hok Hsend. unwrap_small.
  replace (IP_HEADER_LEN + k - IP_HEADER_LEN) with k by lia.
  unwrap_small. destruct (Z.eqb_spec k 0); [lia|].
  rewrite memmove_fault by lia. done.
Qed.

(** The link takes [j] bytes, fewer than a header: [sent - IP_HEADER_LEN]
    wraps around, [data_left] grows by the [IP_HEADER_LEN - j] bytes that the
    header lacks, and the bytes [j] and following of the data area move to
    its front. *)
Lemma send_iter_short s hw l l' packet d j :
  iter_ok packet d -> 0 < j < IP_HEADER_LEN ->
  d + IP_HEADER_LEN <= IP_DATA_MAX_LEN ->
  eth_send l s hw (slice packet 0 (IP_HEADER_LEN + d)) = (j, l') ->
  send_iter s hw l packet d
  = Ok (l',
        splice packet off_data
          (slice packet (off_data + j) (d + (IP_HEADER_LEN - j))),
        d + (IP_HEADER_LEN - j), j).
Proof.
  intros Hok Hj Hfit Hsend.
  iter_answer Hok Hsend. rewrite (usize_small j), (usize_underflow j) by lia.
  replace (usize (d - _)) with (d + (IP_HEADER_LEN - j)) by zmod.
  destruct (Z.eqb_spec (2 ^ 64 - (IP_HEADER_LEN - j)) 0); [lia|].
  unfold memmove. by rewrite memcpy_ok by lia.
Qed.

Lemma send_iter_short_overrun s hw l l' packet d j :
  iter_ok packet d -> 0 < j < IP_HEADER_LEN ->
  IP_DATA_MAX_LEN < d + IP_HEADER_LEN ->
  eth_send l s hw (slice packet 0 (IP_HEADER_LEN + d)) = (j, l') ->
  send_iter s hw l packet d = Fault OutOfBounds.
Proof.
  intros Hok Hj Hfit Hsend.
  iter_answer Hok Hsend. rewrite (usize_small j), (usize_underflow j) by lia.
  replace (usize (d - _)) with (d + (IP_HEADER_LEN - j)) by zmod.
  destruct (Z.eqb_spec (2 ^ 64 - (IP_HEADER_LEN - j)) 0); [lia|].
  rewrite memmove_fault by lia. done.
Qed.

(** The link reports more bytes than it was handed: [data_left - data_sent]
    wraps around to nearly 2^64 and [memmove] is asked for that many bytes. *)
Lemma send_iter_overreport s hw l l' packet d sent :
  iter_ok packet d -> IP_HEADER_LEN + d < sent < 2 ^ 64 ->
  eth_send l s hw (slice packet 0 (IP_HEADER_LEN + d)) = (sent, l') ->
  send_iter s hw l packet d = Fault OutOfBounds.
Proof.
  intros Hok Hs Hsend.
  iter_answer Hok Hsend. rewrite (usize_small sent), (usize_small (sent - _)) by lia.
  replace (usize (d - _)) with (2 ^ 64 - (sent - IP_HEADER_LEN - d)) by zmod.
  destruct (Z.eqb_spec (sent - IP_HEADER_LEN) 0); [lia|].
  rewrite memmove_fault by lia. done.
Qed.

(** What every iteration that returns has done: handed the link the first
    [IP_HEADER_LEN + data_left] bytes of the packet, and left the length of
    the packet and its bytes before the data area as they were. *)
Lemma send_iter_inv s hw l packet d l' packet' d' sent :
  send_iter s hw l packet d = Ok (l', packet', d', sent) ->
  exists r,
    in_bounds 0 (usize (IP_HEADER_LEN + d)) (length packet) = true /\
    eth_send l s hw (slice packet 0 (usize (IP_HEADER_LEN + d))) = (r, l') /\
    length packet' = length packet /\
    take (Z.to_nat off_data) packet' = take (Z.to_nat off_data) packet.
Proof.
  unfold send_iter. intros (frame & [-> Hb]%load_Ok_inv & Hrest)%bind_Ok_inv.
  destruct (eth_send l s hw _) as [r l1] eqn:Hsend. cbv zeta in Hrest.
  apply bind_Ok_inv in Hrest as (p1 & Hmove & [= <- <- <- <-]).
  exists r. split_and!; [done..| |].
  - destruct (_ =? 0); [by injection Hmove as <-|by eapply memmove_length].
  - destruct (_ =? 0); [by injection Hmove as <-|by eapply memmove_take].
Qed.

(** An iteration faults only by leaving an object. *)
Lemma send_iter_fault s hw l packet d e :
  send_iter s hw l packet d = Fault e -> e = OutOfBounds.
Proof.
  unfold send_iter. intros [?%load_Fault_inv|(frame & _ & Hrest)]%bind_Fault_inv;
    [done|].
  destruct (eth_send l s hw frame) as [sent l']. fault_inv; [|done].
  case_match; [done|]. by fault_inv.
Qed.

End Iteration.

(** ** The whole call *)

Section IpSend.
Context `{P : IpParams} {L : Type} `{LinkLayer L}.
Implicit Types (l : L) (s : session) (stack dst data hw packet : list byte).
Implicit Types (d k n : Z) (fuel : nat).

Lemma length_packet_image stack s dst protocol data n :
  send_args_ok s dst data n -> n <= IP_DATA_MAX_LEN ->
  Z.of_nat (length (packet_image stack s dst protocol data n)) = IP_PACKET_MAX_LEN.
Proof.
  intros. eapply build_packet_length. by apply build_packet_ok.
Qed.

Lemma send_args_ok_min s dst data data_len :
  send_args_ok s dst data data_len ->
  send_args_ok s dst data (Z.min data_len IP_DATA_MAX_LEN).
Proof. intros (? & ? & ?). layout_facts. unfold send_args_ok. lia. Qed.

Lemma iter_ok_packet_image stack s dst protocol data data_len :
  send_args_ok s dst data data_len ->
  iter_ok
    (packet_image stack s dst protocol data (Z.min data_len IP_DATA_MAX_LEN))
    (Z.min data_len IP_DATA_MAX_LEN).
Proof.
  intros Hok. pose proof Hok as (? & ? & ?). layout_facts. split; [|lia].
  apply length_packet_image; [by apply send_args_ok_min|lia].
Qed.

(** The frame of the first iteration: the header and the payload. *)
Lemma packet_image_frame stack s dst protocol data n :
  send_args_ok s dst data n ->
  slice (packet_image stack s dst protocol data n) 0 (IP_HEADER_LEN + n)
  = ip_header s dst protocol n ++ slice data 0 n.
Proof.
  intros (? & ? & ?). unfold packet_image. rewrite app_assoc.
  apply slice_app_l. rewrite length_app, Nat2Z.inj_add, length_ip_header by done.
  len.
Qed.

Lemma first_frame stack s dst protocol data data_len :
  send_args_ok s dst data data_len ->
  let n := Z.min data_len IP_DATA_MAX_LEN in
  slice (packet_image stack s dst protocol data n) 0 (IP_HEADER_LEN + n)
  = ip_header s dst protocol n ++ slice data 0 n.
Proof. intros. by apply packet_image_frame, send_args_ok_min. Qed.

(** [ip_send] is the loop run on the packet image with the multicast
    address, for the clamped length. *)
Lemma ip_send_unfold fuel stack l s dst protocol data data_len :
  send_args_ok s dst data data_len ->
  ip_send fuel stack l s dst protocol data data_len
  = let n := Z.min data_len IP_DATA_MAX_LEN in
    let* '(l, data_left) :=
      send_loop fuel s multicast_hw l
        (packet_image stack s dst protocol data n) n in
    Ok (l, if data_left =? 0 then n else 0).
Proof.
  intros Hok. layout_facts. unfold ip_send. cbv zeta.
  rewrite build_packet_ok by (try apply send_args_ok_min; done || lia).
  cbn [bind]. rewrite ip_to_hw_eq by (rewrite length_alloca; lia).
  done.
Qed.

Lemma ip_send_all fuel stack l l' s dst protocol data data_len :
  send_args_ok s dst data data_len ->
  let n := Z.min data_len IP_DATA_MAX_LEN in
  eth_send l s multicast_hw (ip_header s dst protocol n ++ slice data 0 n)
  = (IP_HEADER_LEN + n, l') ->
  ip_send (S fuel) stack l s dst protocol data data_len = Ok (l', n).
Proof.
  intros Hok n Hsend. rewrite ip_send_unfold by done. fold n. cbn [send_loop].
  rewrite (send_iter_all _ _ _ l').
  - cbn [bind]. by rewrite Z.eqb_refl, andb_false_r.
  - by apply iter_ok_packet_image.
  - by rewrite (first_frame _ _ _ _ _ data_len).
Qed.

(** C4: when the link takes the whole packet in one call, [ip_send] hands it
    the header followed by the first [min(data_len, IP_DATA_MAX_LEN)] bytes
    of the payload, once, and returns that clamped length: a payload longer
    than the maximum is silently truncated. *)
Theorem ip_send_one_shot fuel stack l l' s dst protocol data data_len :
  send_args_ok s dst data data_len ->
  let n := Z.min data_len IP_DATA_MAX_LEN in
  eth_send l s multicast_hw (ip_header s dst protocol n ++ slice data 0 n)
  = (IP_HEADER_LEN + n, l') ->
  ip_send (S fuel) stack l s dst protocol data data_len = Ok (l', n).
Proof. apply ip_send_all. Qed.

Lemma ip_send_down fuel stack l l' s dst protocol data data_len :
  send_args_ok s dst data data_len ->
  let n := Z.min data_len IP_DATA_MAX_LEN in
  n + IP_HEADER_LEN <= IP_DATA_MAX_LEN ->
  eth_send l s multicast_hw (ip_header s dst protocol n ++ slice data 0 n)
  = (0, l') ->
  ip_send (S fuel) stack l s dst protocol data data_len = Ok (l', 0).
Proof.
  intros Hok n Hfit Hsend. pose proof Hok as (? & ? & ?). layout_facts.
  rewrite ip_send_unfold by done. fold n. cbn [send_loop].
  rewrite (send_iter_down _ _ _ l').
  - cbn [bind]. rewrite Z.eqb_refl. cbn [negb andb bind].
    destruct (Z.eqb_spec (n + IP_HEADER_LEN) 0); [lia|done].
  - by apply iter_ok_packet_image.
  - done.
  - by rewrite (first_frame _ _ _ _ _ data_len).
Qed.

(** When the link fails on the first call and the payload is at least
    [IP_HEADER_LEN] bytes shorter than the maximum, [ip_send] returns 0. *)
Theorem ip_send_link_down fuel stack l l' s dst protocol data data_len :
  send_args_ok s dst data data_len ->
  let n := Z.min data_len IP_DATA_MAX_LEN in
  n + IP_HEADER_LEN <= IP_DATA_MAX_LEN ->
  eth_send l s multicast_hw (ip_header s dst protocol n ++ slice data 0 n)
  = (0, l') ->
  ip_send (S fuel) stack l s dst protocol data data_len = Ok (l', 0).
Proof. apply ip_send_down. Qed.

(** C30: when the link fails on the first call and the payload is within
    [IP_HEADER_LEN] bytes of the maximum, the wrapped-around [data_left]
    makes [memmove] run past the end of the local [packet]. *)
Theorem ip_send_link_down_overrun fuel stack l l' s dst protocol data data_len :
  send_args_ok s dst data data_len ->
  let n := Z.min data_len IP_DATA_MAX_LEN in
  IP_DATA_MAX_LEN < n + IP_HEADER_LEN ->
  eth_send l s multicast_hw (ip_header s dst protocol n ++ slice data 0 n)
  = (0, l') ->
  ip_send (S fuel) stack l s dst protocol data data_len = Fault OutOfBounds.
Proof.
  intros Hok n Hfit Hsend. rewrite ip_send_unfold by done. fold n.
  cbn [send_loop]. rewrite (send_iter_down_overrun _ _ _ l'); [done| |done|].
  - by apply iter_ok_packet_image.
  - by rewrite (first_frame _ _ _ _ _ data_len).
Qed.

(** The frame of the iteration that follows a [memmove] of [m] bytes from
    offset [o] of the data area: the header, then the bytes [o] and
    following of the payload and of what the stack held after it. *)
Lemma moved_frame stack s dst protocol data n o m :
  send_args_ok s dst data n -> n <= IP_DATA_MAX_LEN ->
  0 <= o -> 0 <= m -> o + m <= IP_DATA_MAX_LEN ->
  let packet := packet_image stack s dst protocol data n in
  slice (splice packet off_data (slice packet (off_data + o) m))
    0 (IP_HEADER_LEN + m)
  = ip_header s dst protocol n
    ++ slice (slice data 0 n ++ stack_tail stack n) o m.
Proof.
  intros Hok Hn Ho Hm Hfit packet. pose proof Hok as (? & ? & ?). layout_facts.
  pose proof (length_ip_header s dst protocol n) as Hh.
  pose proof (length_packet_image stack s dst protocol data n Hok) as Hp.
  fold packet in Hp. unfold splice. rewrite app_assoc.
  assert (Hpre : take (Z.to_nat off_data) packet = ip_header s dst protocol n).
  { unfold packet, packet_image. rewrite take_app_length'; [done|lia]. }
  assert (Hdata : drop (Z.to_nat off_data) packet
                  = slice data 0 n ++ stack_tail stack n).
  { unfold packet, packet_image. rewrite drop_app_length'; [done|lia]. }
  rewrite slice_app_l by (rewrite length_app, length_take, length_slice; lia).
  rewrite Hpre. f_equal. unfold slice at 1.
  replace (Z.to_nat (off_data + o)) with (Z.to_nat off_data + Z.to_nat o)%nat
    by lia.
  by rewrite <-drop_drop, Hdata.
Qed.

(** Two calls: the first iteration moves [m] bytes from offset [o] of the
    data area to its front, and the link takes the frame of the second
    whole. *)
Lemma ip_send_moved_then_all fuel stack l l1 l2 s dst protocol data data_len r o m :
  send_args_ok s dst data data_len ->
  let n := Z.min data_len IP_DATA_MAX_LEN in
  let packet := packet_image stack s dst protocol data n in
  send_iter s multicast_hw l packet n
  = Ok (l1, splice packet off_data (slice packet (off_data + o) m), m, r) ->
  r <> 0 -> 0 <= o -> 0 < m -> o + m <= IP_DATA_MAX_LEN ->
  eth_send l1 s multicast_hw
    (ip_header s dst protocol n
     ++ slice (slice data 0 n ++ stack_tail stack n) o m)
  = (IP_HEADER_LEN + m, l2) ->
  ip_send (S (S fuel)) stack l s dst protocol data data_len = Ok (l2, n).
Proof.
  intros Hok n packet Hiter Hr Ho Hm Hfit Hsend.
  pose proof (send_args_ok_min _ _ _ _ Hok) as Hmin. fold n in Hmin.
  pose proof (iter_ok_packet_image stack s dst protocol data data_len Hok)
    as [Hlen _]. fold n packet in Hlen. layout_facts.
  rewrite ip_send_unfold by done. cbv zeta. fold n packet. cbn [send_loop].
  rewrite Hiter. cbn [bind].
  destruct (Z.eqb_spec r 0), (Z.eqb_spec m 0); try lia.
  cbn [negb andb]. rewrite (send_iter_all _ _ _ l2).
  - cbn [bind]. by rewrite Z.eqb_refl, andb_false_r.
  - split; [|lia]. rewrite <-Hlen. apply Nat2Z.inj_iff.
    rewrite length_splice; [done|lia|]. rewrite length_slice; lia.
  - unfold packet. rewrite moved_frame; [done|done|lia..].
Qed.

(** C1: a partial send corrupts the payload and is reported as a success.
    When the link takes the header and [k] bytes of a payload of [n] bytes,
    the next frame carries, as the [n - k] bytes that remain, the bytes
    [IP_HEADER_LEN + k] and following of the data area, which run into the
    uninitialised part of the local [packet], not the bytes [k] and
    following of the payload.  When the link takes that frame, [ip_send]
    returns [n]. *)
Theorem ip_send_partial_then_all fuel stack l l1 l2 s dst protocol data data_len k :
  send_args_ok s dst data data_len ->
  let n := Z.min data_len IP_DATA_MAX_LEN in
  0 < k < n -> n + IP_HEADER_LEN <= IP_DATA_MAX_LEN ->
  eth_send l s multicast_hw (ip_header s dst protocol n ++ slice data 0 n)
  = (IP_HEADER_LEN + k, l1) ->
  eth_send l1 s multicast_hw
    (ip_header s dst protocol n
     ++ slice (slice data 0 n ++ stack_tail stack n) (IP_HEADER_LEN + k) (n - k))
  = (IP_HEADER_LEN + (n - k), l2) ->
  ip_send (S (S fuel)) stack l s dst protocol data data_len = Ok (l2, n).
Proof.
  intros Hok n Hk Hfit Hsend1 Hsend2. pose proof Hok as (? & ? & ?).
  pose proof (send_args_ok_min _ _ _ _ Hok) as Hmin. fold n in Hmin.
  layout_facts.
  apply (ip_send_moved_then_all _ _ _ l1 _ _ _ _ _ _
           (IP_HEADER_LEN + k) (IP_HEADER_LEN + k) (n - k));
    [done| |lia..|done].
  fold n. rewrite Z.add_assoc. apply send_iter_partial; [|lia..|].
  - by apply iter_ok_packet_image.
  - by rewrite packet_image_frame.
Qed.

(** A partial send of a payload within [IP_HEADER_LEN] bytes of the
    maximum makes [memmove] read past the end of the local [packet]. *)
Theorem ip_send_partial_overrun fuel stack l l1 s dst protocol data data_len k :
  send_args_ok s dst data data_len ->
  let n := Z.min data_len IP_DATA_MAX_LEN in
  0 < k < n -> IP_DATA_MAX_LEN < n + IP_HEADER_LEN ->
  eth_send l s multicast_hw (ip_header s dst protocol n ++ slice data 0 n)
  = (IP_HEADER_LEN + k, l1) ->
  ip_send (S fuel) stack l s dst protocol data data_len = Fault OutOfBounds.
Proof.
  intros Hok n Hk Hfit Hsend. rewrite ip_send_unfold by done. fold n.
  cbn [send_loop].
  rewrite (send_iter_partial_overrun _ _ _ l1 _ _ k); [done| |done..|].
  - by apply iter_ok_packet_image.
  - by rewrite (first_frame _ _ _ _ _ data_len).
Qed.

(** C33: a send of fewer bytes than a header makes the packet grow.  When the
    link takes [j] bytes, [0 < j < IP_HEADER_LEN], of a packet with [n]
    bytes of payload, the next frame has [n + IP_HEADER_LEN - j] bytes after
    its header: the payload from its byte [j] on, followed by the
    [IP_HEADER_LEN] bytes that the stack held after it.  When the link takes
    that frame, [ip_send] returns [n]: the bytes [j] and following of the
    payload and a part of the stack went out in place of the payload, and
    the call is reported as a success. *)
Theorem ip_send_short_then_all fuel stack l l1 l2 s dst protocol data data_len j :
  send_args_ok s dst data data_len ->
  let n := Z.min data_len IP_DATA_MAX_LEN in
  0 < j < IP_HEADER_LEN -> n + IP_HEADER_LEN <= IP_DATA_MAX_LEN ->
  eth_send l s multicast_hw (ip_header s dst protocol n ++ slice data 0 n)
  = (j, l1) ->
  eth_send l1 s multicast_hw
    (ip_header s dst protocol n
     ++ slice (slice data 0 n ++ stack_tail stack n) j (n + (IP_HEADER_LEN - j)))
  = (IP_HEADER_LEN + (n + (IP_HEADER_LEN - j)), l2) ->
  ip_send (S (S fuel)) stack l s dst protocol data data_len = Ok (l2, n).
Proof.
  intros Hok n Hj Hfit Hsend1 Hsend2. pose proof Hok as (? & ? & ?).
  pose proof (send_args_ok_min _ _ _ _ Hok) as Hmin. fold n in Hmin.
  layout_facts.
  apply (ip_send_moved_then_all _ _ _ l1 _ _ _ _ _ _
           j j (n + (IP_HEADER_LEN - j)));
    [done| |lia..|done].
  fold n. apply send_iter_short; [|lia..|].
  - by apply iter_ok_packet_image.
  - by rewrite packet_image_frame.
Qed.

(** C37: a link that reports more bytes than it was handed breaks [ip_send]
    at once: [data_left] wraps around below zero and [memmove] is asked for
    nearly 2^64 bytes. *)
Theorem ip_send_overreport fuel stack l l' s dst protocol data data_len sent :
  send_args_ok s dst data data_len ->
  let n := Z.min data_len IP_DATA_MAX_LEN in
  IP_HEADER_LEN + n < sent < 2 ^ 64 ->
  eth_send l s multicast_hw (ip_header s dst protocol n ++ slice data 0 n)
  = (sent, l') ->
  ip_send (S fuel) stack l s dst protocol data data_len = Fault OutOfBounds.
Proof.
  intros Hok n Hs Hsend. rewrite ip_send_unfold by done. fold n.
  cbn [send_loop]. rewrite (send_iter_overreport _ _ _ l' _ _ sent); [done| |done|].
  - by apply iter_ok_packet_image.
  - by rewrite (first_frame _ _ _ _ _ data_len).
Qed.

(** C9: refinement.  On a link that takes every frame whole or not at all,
    and for a payload at least [IP_HEADER_LEN] bytes shorter than the
    maximum, [ip_send] is the transmitter of the specification: same value
    returned, same frames handed to the link, same link state. *)
Theorem ip_send_refines_spec fuel stack l s dst protocol data data_len :
  all_or_nothing L -> send_args_ok s dst data data_len ->
  Z.min data_len IP_DATA_MAX_LEN + IP_HEADER_LEN <= IP_DATA_MAX_LEN ->
  ip_send (S fuel) stack l s dst protocol data data_len
  = send_spec (S fuel) l s dst protocol data data_len.
Proof.
  intros Hlink Hok Hfit. pose proof Hok as (? & ? & ?). layout_facts.
  pose proof (send_args_ok_min _ _ _ _ Hok) as Hmin.
  unfold send_spec. cbv zeta. cbn [spec_loop].
  set (n := Z.min data_len IP_DATA_MAX_LEN) in *.
  pose proof (length_ip_header s dst protocol n) as Hh.
  specialize (Hlink l s multicast_hw (ip_header s dst protocol n ++ slice data 0 n)).
  destruct (eth_send l s multicast_hw _) as [sent l'] eqn:Hsend.
  cbn [fst] in Hlink. rewrite length_app, Nat2Z.inj_add, Hh in Hlink by done.
  rewrite length_slice in Hlink by lia.
  destruct Hlink as [-> | ->].
  - by rewrite (ip_send_down _ _ _ l') by done.
  - rewrite Z2Nat.id in Hsend by lia.
    rewrite (ip_send_all _ _ _ l') by done. fold n.
    destruct (Z.eqb_spec (IP_HEADER_LEN + Z.of_nat (Z.to_nat n)) 0); [lia|].
    rewrite Hh by done. rewrite decide_True; [done|].
    apply nil_length_inv. rewrite length_drop, length_slice; lia.
Qed.

End IpSend.

(** ** The theorems at concrete inputs

    All on [small_params] (a 40-byte header, 80 bytes of payload at most),
    with a stack that holds the byte 0xEE everywhere. *)

Section Witnesses.

Definition example_stack : list byte := replicate 200 Byte.xee.

Definition example_payload : list byte :=
  [Byte.x01; Byte.x02; Byte.x03; Byte.x04].

(** A payload of 100 bytes is truncated to 80 and sent in one frame. *)
Lemma ip_send_one_shot_witness :
  @ip_send small_params wire _ 1 example_stack (Wire [120] [] [])
    example_session example_dst Byte.x06 (replicate 100 Byte.x01) 100
  = Ok (Wire [] [(@multicast_hw small_params,
                  @ip_header small_params example_session example_dst Byte.x06 80
                  ++ replicate 80 Byte.x01)] [], 80).
Proof.
  apply (@ip_send_one_shot small_params wire _ 0).
  - by_decide.
  - reflexivity.
Defined.

Lemma ip_send_link_down_witness :
  @ip_send small_params wire _ 1 example_stack (Wire [] [] [])
    example_session example_dst Byte.x06 example_payload 4
  = Ok (Wire [] [(@multicast_hw small_params,
                  @ip_header small_params example_session example_dst Byte.x06 4
                  ++ example_payload)] [], 0).
Proof.
  apply (@ip_send_link_down small_params wire _ 0).
  - by_decide.
  - simpl. lia.
  - reflexivity.
Defined.

Lemma ip_send_link_down_overrun_witness :
  @ip_send small_params wire _ 1 example_stack (Wire [] [] [])
    example_session example_dst Byte.x06 (replicate 50 Byte.x01) 50
  = Fault OutOfBounds.
Proof.
  eapply (@ip_send_link_down_overrun small_params wire _ 0).
  - by_decide.
  - simpl. lia.
  - reflexivity.
Defined.

(** The link takes the header and two bytes, then the whole second frame:
    the second frame carries two bytes of the stack, and the call returns 4. *)
Lemma ip_send_partial_then_all_witness :
  @ip_send small_params wire _ 2 example_stack (Wire [42; 42] [] [])
    example_session example_dst Byte.x06 example_payload 4
  = Ok (Wire [] [(@multicast_hw small_params,
                  @ip_header small_params example_session example_dst Byte.x06 4
                  ++ example_payload);
                 (@multicast_hw small_params,
                  @ip_header small_params example_session example_dst Byte.x06 4
                  ++ [Byte.xee; Byte.xee])] [], 4).
Proof.
  eapply (@ip_send_partial_then_all small_params wire _ 0 example_stack _ _ _
            example_session example_dst Byte.x06 example_payload 4 2).
  - by_decide.
  - simpl. lia.
  - simpl. lia.
  - reflexivity.
  - reflexivity.
Defined.

(** The link takes two bytes, then the whole second frame: the second frame
    carries the payload from its third byte on and 40 bytes of the stack. *)
Lemma ip_send_short_then_all_witness :
  @ip_send small_params wire _ 2 example_stack (Wire [2; 82] [] [])
    example_session example_dst Byte.x06 example_payload 4
  = Ok (Wire [] [(@multicast_hw small_params,
                  @ip_header small_params example_session example_dst Byte.x06 4
                  ++ example_payload);
                 (@multicast_hw small_params,
                  @ip_header small_params example_session example_dst Byte.x06 4
                  ++ [Byte.x03; Byte.x04] ++ replicate 40 Byte.xee)] [], 4).
Proof.
  eapply (@ip_send_short_then_all small_params wire _ 0 example_stack _ _ _
            example_session example_dst Byte.x06 example_payload 4 2).
  - by_decide.
  - simpl. lia.
  - simpl. lia.
  - reflexivity.
  - reflexivity.
Defined.

Lemma ip_send_partial_overrun_witness :
  @ip_send small_params wire _ 1 example_stack (Wire [60] [] [])
    example_session example_dst Byte.x06 (replicate 50 Byte.x01) 50
  = Fault OutOfBounds.
Proof.
  eapply (@ip_send_partial_overrun small_params wire _ 0 example_stack _ _
            example_session example_dst Byte.x06 (replicate 50 Byte.x01) 50 20).
  - by_decide.
  - simpl. lia.
  - simpl. lia.
  - reflexivity.
Defined.

Lemma ip_send_refines_spec_witness :
  @ip_send small_params loopback _ 1 example_stack (Loopback [])
    example_session example_dst Byte.x06 example_payload 4
  = @send_spec small_params loopback _ 1 (Loopback [])
      example_session example_dst Byte.x06 example_payload 4.
Proof.
  apply (@ip_send_refines_spec small_params loopback _ 0).
  - intros l s hw frame. by right.
  - by_decide.
  - simpl. lia.
Defined.

(** A link that reports 100 bytes sent of a frame of 44. *)
Lemma ip_send_overreport_witness :
  @ip_send small_params wire _ 1 example_stack (Wire [100] [] [])
    example_session example_dst Byte.x06 example_payload 4
  = Fault OutOfBounds.
Proof.
  eapply (@ip_send_overreport small_params wire _ 0 example_stack _ _
            example_session example_dst Byte.x06 example_payload 4 100).
  - by_decide.
  - simpl. lia.
  - reflexivity.
Defined.

End Witnesses.
