(* ===== verification/SendLoop.v ===== *)
(** * SendLoop: the loop of [ip_send] over classes of links
    (src/src/ip.c, lines 60-75)

    What the do-while loop of [ip_send] does on every link of a class, by
    induction on the iterations: it ends on links that make progress and
    touches no byte outside the packet when the payload leaves room
    ([send_loop_progress], [send_loop_safe]); it never ends on a link that
    takes the header only ([diverges]); it runs out of the packet on a link
    that takes less than a header; and every frame it hands to the link
    begins with the header built before the loop ([carries_header]).
    [enough_fuel] is the number of iterations that the theorems show to be
    enough. *)

From S2P Require Import Prelude.
From S2P Require Import Layout.
From S2P Require Import Link.
From S2P Require Import Packet.
From S2P Require Import Send.

(** ** Definitions *)

Section Code.
Context `{P : IpParams}.

(** The fuel that is enough for a payload of [data_len] bytes: one
    iteration for each byte of the clamped payload, and one more. *)
Definition enough_fuel (data_len : Z) : nat :=
  S (Z.to_nat (Z.min data_len IP_DATA_MAX_LEN)).

(** A run that no fuel ends. *)
Definition diverges {A : Type} (run : nat -> result A) : Prop :=
  forall fuel, run fuel = Fault OutOfFuel.

(** A frame handed to the link for the address [hw] begins with [header],
    or with as much of it as the frame has room for. *)
Definition carries_header (hw header : list byte)
    (call : list byte * list byte) : Prop :=
  call.1 = hw /\
  take (length header) call.2 = take (length call.2) header.

End Code.

(** ** Termination *)

Section Termination.
Context `{P : IpParams} {L : Type} `{LinkLayer L}.
Implicit Types (l : L) (s : session) (stack dst data hw packet : list byte).
Implicit Types (d k n : Z) (fuel : nat).

(** An iteration on a link that makes progress: the call fails, or it runs
    past the packet, or [data_left] decreases. *)
Lemma send_iter_progress s hw l packet d :
  progressing L IP_HEADER_LEN -> iter_ok packet d ->
  (IP_DATA_MAX_LEN < d + IP_HEADER_LEN /\
   send_iter s hw l packet d = Fault OutOfBounds) \/
  (exists l', send_iter s hw l packet d = Ok (l', packet, d + IP_HEADER_LEN, 0)) \/
  (exists l' sent, send_iter s hw l packet d = Ok (l', packet, 0, sent)) \/
  (exists l' packet' k sent,
     send_iter s hw l packet d = Ok (l', packet', d - k, sent) /\
     0 < k < d /\ sent <> 0 /\ iter_ok packet' (d - k)).
Proof.
  intros Hprog Hok. pose proof Hok as [Hlen ?]. layout_facts.
  specialize (Hprog l s hw (slice packet 0 (IP_HEADER_LEN + d))).
  rewrite length_slice in Hprog by lia.
  destruct (eth_send l s hw _) as [sent l'] eqn:Hsend. cbn [fst] in Hprog.
  destruct Hprog as [->|Hsent].
  - destruct (decide (d + IP_HEADER_LEN <= IP_DATA_MAX_LEN)).
    + right; left. exists l'. by apply send_iter_down.
    + left. split; [lia|]. apply (send_iter_down_overrun _ _ _ l'); [done|lia|done].
  - destruct (decide (sent = IP_HEADER_LEN + d)) as [->|Hne]; [|destruct Hsent; [lia|]].
    + right; right; left. exists l', (IP_HEADER_LEN + d). by apply send_iter_all.
    + replace sent with (IP_HEADER_LEN + (sent - IP_HEADER_LEN)) in Hsend by lia.
      destruct (decide (d + IP_HEADER_LEN <= IP_DATA_MAX_LEN)).
      * right; right; right.
        eexists l', _, (sent - IP_HEADER_LEN), _. split; [|split; [|split]].
        -- apply send_iter_partial; [done|lia|done|exact Hsend].
        -- lia.
        -- lia.
        -- split; [|lia]. rewrite <-Hlen. apply Nat2Z.inj_iff.
           rewrite length_splice; [done|lia|]. rewrite length_slice; lia.
      * left. split; [lia|].
        apply (send_iter_partial_overrun _ _ _ l' _ _ (sent - IP_HEADER_LEN));
          [done|lia|lia|exact Hsend].
Qed.

Lemma send_loop_progress fuel s hw l packet d :
  progressing L IP_HEADER_LEN -> iter_ok packet d -> d < Z.of_nat fuel ->
  send_loop fuel s hw l packet d <> Fault OutOfFuel.
Proof.
  intros Hprog. revert l packet d.
  induction fuel as [|fuel IH]; intros l packet d Hok Hfuel; [destruct Hok; lia|].
  cbn [send_loop].
  destruct (send_iter_progress s hw l packet d Hprog Hok)
    as [[_ ->]|[(l' & ->)|[(l' & sent & ->)|(l' & packet' & k & sent & -> & ? & ? & ?)]]];
    cbn [bind]; try done.
  - by rewrite andb_false_r.
  - destruct (Z.eqb_spec sent 0), (Z.eqb_spec (d - k) 0); try done; try lia.
    cbn [negb andb]. apply IH; [done|lia].
Qed.

(** With room for the displaced copy the loop touches no byte outside the
    packet: with enough fuel it returns. *)
Lemma send_loop_safe fuel s hw l packet d :
  progressing L IP_HEADER_LEN -> iter_ok packet d ->
  d + IP_HEADER_LEN <= IP_DATA_MAX_LEN -> d < Z.of_nat fuel ->
  exists l' d', send_loop fuel s hw l packet d = Ok (l', d').
Proof.
  intros Hprog. revert l packet d.
  induction fuel as [|fuel IH]; intros l packet d Hok Hfit Hfuel;
    [destruct Hok; lia|].
  cbn [send_loop].
  destruct (send_iter_progress s hw l packet d Hprog Hok)
    as [[? _]|[(l' & ->)|[(l' & sent & ->)|(l' & packet' & k & sent & -> & ? & ? & ?)]]];
    cbn [bind]; [lia|by eauto|rewrite andb_false_r; by eauto|].
  destruct (negb (sent =? 0) && negb (d - k =? 0)); [|by eauto].
  apply IH; [done|lia|lia].
Qed.

Lemma ip_send_progress_fuel stack l s dst protocol data data_len :
  progressing L IP_HEADER_LEN -> send_args_ok s dst data data_len ->
  ip_send (enough_fuel data_len) stack l s dst protocol data data_len
  <> Fault OutOfFuel.
Proof.
  intros Hprog Hok. pose proof Hok as (? & ? & ?). layout_facts.
  unfold enough_fuel.
  rewrite ip_send_unfold by done. cbv zeta.
  pose proof (send_loop_progress
    (S (Z.to_nat (Z.min data_len IP_DATA_MAX_LEN))) s multicast_hw l
    (packet_image stack s dst protocol data (Z.min data_len IP_DATA_MAX_LEN))
    (Z.min data_len IP_DATA_MAX_LEN) Hprog
    (iter_ok_packet_image stack s dst protocol data data_len Hok)) as Hloop.
  destruct (send_loop _ _ _ _ _ _) as [[l' r]|f]; [done|].
  cbn [bind]. intros [= ->]. apply Hloop; [lia|done].
Qed.

(** C17: on a link whose every call fails or takes the header and at least
    one byte of payload, the loop of [ip_send] ends within
    [min(data_len, IP_DATA_MAX_LEN) + 1] iterations: with that much fuel the
    model returns a value or a memory fault, never a lack of fuel. *)
Theorem ip_send_terminates stack l s dst protocol data data_len :
  progressing L IP_HEADER_LEN -> send_args_ok s dst data data_len ->
  ip_send (enough_fuel data_len) stack l s dst protocol data data_len
  <> Fault OutOfFuel.
Proof. apply ip_send_progress_fuel. Qed.

(** C13: memory safety and termination together.  On a link whose every call
    fails or takes the header and at least one byte of payload, and for a
    payload at least [IP_HEADER_LEN] bytes shorter than the maximum,
    [ip_send] touches no byte outside its objects and returns, within
    [min(data_len, IP_DATA_MAX_LEN) + 1] iterations, the clamped length or
    0.  The bound on the payload is the room that the displaced [memmove]
    of line 73 needs; beyond it the overrun theorems apply. *)
Theorem ip_send_safe stack l s dst protocol data data_len :
  progressing L IP_HEADER_LEN -> send_args_ok s dst data data_len ->
  let n := Z.min data_len IP_DATA_MAX_LEN in
  n + IP_HEADER_LEN <= IP_DATA_MAX_LEN ->
  exists l' r,
    ip_send (enough_fuel data_len) stack l s dst protocol data data_len
    = Ok (l', r) /\
    (r = n \/ r = 0).
Proof.
  intros Hprog Hok n Hfit. pose proof Hok as (? & ? & ?). layout_facts.
  unfold enough_fuel. fold n.
  rewrite ip_send_unfold by done. cbv zeta. fold n.
  destruct (send_loop_safe (S (Z.to_nat n)) s multicast_hw l
              (packet_image stack s dst protocol data n) n Hprog
              (iter_ok_packet_image stack s dst protocol data data_len Hok))
    as (l' & d' & ->); [done|lia|]. cbn [bind].
  exists l', (if d' =? 0 then n else 0). split; [done|].
  destruct (d' =? 0); auto.
Qed.

Lemma ip_send_header_only_fuel stack l s dst protocol data data_len :
  header_only L IP_HEADER_LEN -> send_args_ok s dst data data_len ->
  0 < Z.min data_len IP_DATA_MAX_LEN ->
  diverges (fun fuel => ip_send fuel stack l s dst protocol data data_len).
Proof.
  intros Hlink Hok Hn fuel. pose proof Hok as (? & ? & ?). layout_facts.
  rewrite ip_send_unfold by done. cbv zeta.
  pose proof (iter_ok_packet_image stack s dst protocol data data_len Hok) as Hit.
  revert Hit. generalize (packet_image stack s dst protocol data
                            (Z.min data_len IP_DATA_MAX_LEN)).
  intros packet Hit. revert l.
  induction fuel as [|fuel IH]; intros l; [done|]. cbn [send_loop].
  destruct (eth_send l s multicast_hw
              (slice packet 0 (IP_HEADER_LEN + Z.min data_len IP_DATA_MAX_LEN)))
    as [sent l'] eqn:Hsend.
  pose proof (Hlink l s multicast_hw
    (slice packet 0 (IP_HEADER_LEN + Z.min data_len IP_DATA_MAX_LEN))) as Hs.
  rewrite Hsend in Hs. cbn [fst] in Hs. subst sent.
  rewrite (send_iter_header _ _ _ l') by done. cbn [bind].
  destruct (Z.eqb_spec IP_HEADER_LEN 0), (Z.eqb_spec (Z.min data_len IP_DATA_MAX_LEN) 0);
    try lia.
  cbn [negb andb]. apply IH.
Qed.

(** On a link that takes the header and nothing else, the loop never
    ends when there is a payload: no amount of fuel is enough. *)
Theorem ip_send_header_only_diverges stack l s dst protocol data data_len :
  header_only L IP_HEADER_LEN -> send_args_ok s dst data data_len ->
  0 < Z.min data_len IP_DATA_MAX_LEN ->
  diverges (fun fuel => ip_send fuel stack l s dst protocol data data_len).
Proof. apply ip_send_header_only_fuel. Qed.

End Termination.

(** ** Links that break the loop *)

Section BadLinks.
Context `{P : IpParams} {L : Type} `{LinkLayer L}.
Implicit Types (l : L) (s : session) (stack dst data hw packet : list byte).
Implicit Types (d k n : Z) (fuel : nat).

(** On a link that takes less than a header, [data_left] grows with every
    iteration, and the loop runs until [memmove] leaves the packet. *)
Lemma send_loop_short fuel s hw l packet d :
  short_only L IP_HEADER_LEN -> iter_ok packet d ->
  IP_DATA_MAX_LEN - d < Z.of_nat fuel ->
  send_loop fuel s hw l packet d = Fault OutOfBounds.
Proof.
  intros Hshort. revert l packet d.
  induction fuel as [|fuel IH]; intros l packet d Hok Hfuel; [destruct Hok; lia|].
  pose proof Hok as [Hlen ?]. layout_facts. cbn [send_loop].
  specialize (Hshort l s hw (slice packet 0 (IP_HEADER_LEN + d))) as Hj.
  destruct (eth_send l s hw _) as [j l'] eqn:Hsend. cbn [fst] in Hj.
  destruct (decide (d + IP_HEADER_LEN <= IP_DATA_MAX_LEN)).
  - rewrite (send_iter_short _ _ _ l' _ _ j) by done. cbn [bind].
    destruct (Z.eqb_spec j 0), (Z.eqb_spec (d + (IP_HEADER_LEN - j)) 0); try lia.
    cbn [negb andb]. apply IH; [|lia]. split; [|lia]. rewrite <-Hlen.
    apply Nat2Z.inj_iff. rewrite length_splice; [done|lia|].
    rewrite length_slice; lia.
  - by rewrite (send_iter_short_overrun _ _ _ l' _ _ j) by (done || lia).
Qed.

(** C24: a link that takes at least one byte and less than a header of every
    frame breaks [ip_send]: the packet grows with every iteration, and
    within [IP_DATA_MAX_LEN + 1] iterations [memmove] runs past the end of
    the local [packet].  The call never returns a value. *)
Theorem ip_send_short_link_overruns stack l s dst protocol data data_len :
  short_only L IP_HEADER_LEN -> send_args_ok s dst data data_len ->
  ip_send (enough_fuel IP_DATA_MAX_LEN) stack l s dst protocol data data_len
  = Fault OutOfBounds.
Proof.
  intros Hshort Hok. pose proof Hok as (? & ? & ?). layout_facts.
  unfold enough_fuel. rewrite Z.min_id.
  rewrite ip_send_unfold by done. cbv zeta.
  rewrite send_loop_short; [done|done| |lia].
  by apply iter_ok_packet_image.
Qed.

End BadLinks.

(** ** The frames of a call *)

Section Frames.
Context `{P : IpParams}.
Implicit Types (w : wire) (s : session) (stack dst data hw packet : list byte).

Lemma send_loop_frames fuel s hw w packet d w' d' header :
  take (length header) packet = header ->
  length header = Z.to_nat off_data ->
  send_loop fuel s hw w packet d = Ok (w', d') ->
  exists frames,
    handed w' = handed w ++ frames /\ Forall (carries_header hw header) frames.
Proof.
  revert w packet d. induction fuel as [|fuel IH]; intros w packet d Hh Hlen; [done|].
  cbn [send_loop]. intros ([[[w1 p1] d1] sent] & Hiter & Hrest)%bind_Ok_inv.
  apply send_iter_inv in Hiter as (r & _ & Hsend%wire_send_handed & Hl1 & Ht1).
  assert (Hframe : carries_header hw header
                     (hw, slice packet 0 (usize (IP_HEADER_LEN + d)))).
  { split; [done|]. cbn [snd]. rewrite <-Hh at 2. apply slice_prefix.
    rewrite <-Hh, length_take. lia. }
  destruct (negb (sent =? 0) && negb (d1 =? 0)).
  - apply IH in Hrest as (frames & Hw' & Hall);
      [|by rewrite Hlen, Ht1, <-Hlen|done].
    eexists (_ :: frames). rewrite Hw', Hsend, <-app_assoc. by split; [|constructor].
  - injection Hrest as <- <-. eexists [_]. split; [done|]. by constructor.
Qed.

(** C31: every frame of a call of [ip_send] on the scripted link, whatever the
    link answers, is addressed to the multicast address and begins with the
    header built before the loop: the header is sent again with each frame,
    as the specification asks, and its field [payload_length] stays the
    length of the whole payload in the frames that carry the rest of it. *)
Theorem ip_send_frames_header fuel stack w w' s dst protocol data data_len r :
  send_args_ok s dst data data_len ->
  ip_send fuel stack w s dst protocol data data_len = Ok (w', r) ->
  exists frames,
    handed w' = handed w ++ frames /\
    Forall (carries_header multicast_hw
              (ip_header s dst protocol (Z.min data_len IP_DATA_MAX_LEN)))
      frames.
Proof.
  intros Hok. pose proof Hok as (? & ? & ?). layout_facts.
  pose proof (length_ip_header s dst protocol (Z.min data_len IP_DATA_MAX_LEN)).
  rewrite ip_send_unfold by done. cbv zeta.
  intros ([w1 d1] & Hloop & [= <- _])%bind_Ok_inv.
  eapply send_loop_frames; [| |exact Hloop].
  - unfold packet_image. by rewrite take_app_length.
  - lia.
Qed.

End Frames.

(** ** The theorems at concrete inputs *)

Section Witnesses.

(** The two frames of a send in two parts both begin with the header. *)
Lemma ip_send_frames_header_witness :
  exists frames,
    handed
      (Wire [] [(@multicast_hw small_params,
                 @ip_header small_params example_session example_dst Byte.x06 4
                 ++ example_payload);
                (@multicast_hw small_params,
                 @ip_header small_params example_session example_dst Byte.x06 4
                 ++ [Byte.xee; Byte.xee])] [])
    = handed (Wire [42; 42] [] []) ++ frames /\
    Forall (carries_header (@multicast_hw small_params)
              (@ip_header small_params example_session example_dst Byte.x06
                 (Z.min 4 80))) frames.
Proof.
  apply (@ip_send_frames_header small_params 2 example_stack (Wire [42; 42] [] [])
           _ example_session example_dst Byte.x06 example_payload 4 4).
  - by_decide.
  - vm_compute. reflexivity.
Defined.

(** A link that takes 41 bytes per call: the header and one byte. *)
Lemma ip_send_terminates_witness :
  @ip_send small_params (policy (Z.min 41)) _ (@enough_fuel small_params 4)
    example_stack (Policy []) example_session example_dst Byte.x06
    example_payload 4
  <> Fault OutOfFuel.
Proof.
  apply (@ip_send_terminates small_params (policy (Z.min 41)) _).
  - apply policy_progressing. intros n Hn. simpl. lia.
  - by_decide.
Defined.

Lemma ip_send_safe_witness :
  exists l' r,
    @ip_send small_params (policy (Z.min 41)) _ (@enough_fuel small_params 4)
      example_stack (Policy []) example_session example_dst Byte.x06
      example_payload 4 = Ok (l', r) /\
    (r = Z.min 4 80 \/ r = 0).
Proof.
  apply (@ip_send_safe small_params (policy (Z.min 41)) _).
  - apply policy_progressing. intros n Hn. simpl. lia.
  - by_decide.
  - simpl. lia.
Defined.

(** A link that takes 40 bytes per call: the header. *)
Lemma ip_send_header_only_diverges_witness :
  @ip_send small_params (policy (fun _ => 40)) _ 1000
    example_stack (Policy []) example_session example_dst Byte.x06
    example_payload 4
  = Fault OutOfFuel.
Proof.
  apply (@ip_send_header_only_diverges small_params (policy (fun _ => 40)) _
           example_stack (Policy []) example_session example_dst Byte.x06
           example_payload 4).
  - apply (policy_header_only 40).
  - by_decide.
  - simpl. lia.
Defined.

(** A link that takes one byte per call. *)
Lemma ip_send_short_link_overruns_witness :
  @ip_send small_params (policy (fun _ => 1)) _ (@enough_fuel small_params 80)
    example_stack (Policy []) example_session example_dst Byte.x06
    example_payload 4
  = Fault OutOfBounds.
Proof.
  apply (@ip_send_short_link_overruns small_params (policy (fun _ => 1)) _).
  - apply policy_short_only. simpl. lia.
  - by_decide.
Defined.

End Witnesses.
