(* ===== verification/SendRef.v ===== *)
(** * SendRef: the loop of [ip_send] as a function on lists
    (src/src/ip.c, lines 62-77)

    [ref_loop] is the do-while loop of [ip_send] with the machine taken
    out: no buffer, no [size_t], no [memmove]; a header that never changes,
    the data area of the local [packet] as a list, and the number of bytes
    of it that are still to send.  The theorems show that, on every link
    that never reports more than it was handed, the code computes
    [ref_loop] ([send_loop_ref], [ip_send_ref_equiv]): every
    wrap-around of [sent - IP_HEADER_LEN], every fault of [memmove] and
    every frame of every iteration is accounted for.  The one place where
    [ref_loop] differs from the transmitter of the specification is then
    in plain sight: after a send of [sent] bytes the data area slides by
    [sent], not by [sent - IP_HEADER_LEN]. *)

From S2P Require Import Prelude.
From S2P Require Import Layout.
From S2P Require Import Link.
From S2P Require Import Packet.
From S2P Require Import Send.

Section Code.
Context `{P : IpParams} {L : Type} `{LinkLayer L}.

(** The data area after [memmove(packet.data, packet.data + o, m)]: its [m]
    bytes from offset [o] on, then what it held after its first [m] bytes. *)
Definition slide (area : list byte) (o m : Z) : list byte :=
  slice area o m ++ drop (Z.to_nat m) area.

(** The loop on a header and a data area.  One iteration hands the link
    the header and the first [d] bytes of the area; when the link takes
    [sent] bytes, [IP_HEADER_LEN + d - sent] bytes are left, whether [sent]
    is more than a header or less; the area slides by [sent] unless [sent]
    is the length of the header; the slide needs [d + IP_HEADER_LEN] bytes
    in the area. *)
Fixpoint ref_loop (fuel : nat) (s : session) (hw : list byte) (l : L)
    (header area : list byte) (d : Z) : result (L * Z) :=
  match fuel with
  | O => Fault OutOfFuel
  | S fuel =>
      let '(sent, l) := eth_send l s hw (header ++ slice area 0 d) in
      let d' := IP_HEADER_LEN + d - sent in
      if sent =? IP_HEADER_LEN then
        if d =? 0 then Ok (l, 0) else ref_loop fuel s hw l header area d
      else if d' =? 0 then Ok (l, 0)
      else if IP_DATA_MAX_LEN <? d + IP_HEADER_LEN then Fault OutOfBounds
      else if sent =? 0 then Ok (l, d')
      else ref_loop fuel s hw l header (slide area sent d') d'
  end.

(** [ip_send] on lists: the loop on the header of the packet and on the
    payload followed by what the stack held. *)
Definition send_ref (fuel : nat) (stack : list byte) (l : L) (s : session)
    (dst_ip : list byte) (protocol : byte) (data : list byte) (data_len : Z)
  : result (L * Z) :=
  let n := Z.min data_len IP_DATA_MAX_LEN in
  let* '(l, d) :=
    ref_loop fuel s multicast_hw l (ip_header s dst_ip protocol n)
      (slice data 0 n ++ stack_tail stack n) n in
  Ok (l, if d =? 0 then n else 0).

(** What an iteration of [ref_loop] starts from. *)
Definition area_ok (header area : list byte) (d : Z) : Prop :=
  Z.of_nat (length header) = IP_HEADER_LEN /\
  Z.of_nat (length area) = IP_DATA_MAX_LEN /\
  0 <= d <= IP_DATA_MAX_LEN.

End Code.

(** ** One iteration *)

Section Iteration.
Context `{P : IpParams} {L : Type} `{LinkLayer L}.
Implicit Types (l : L) (s : session) (hw header area : list byte) (d r : Z).

Lemma area_ok_iter header area d :
  area_ok header area d -> iter_ok (header ++ area) d.
Proof.
  intros (Hh & Ha & Hd). layout_facts. split; [|done].
  rewrite length_app. lia.
Qed.

Lemma area_ok_frame header area d :
  area_ok header area d ->
  slice (header ++ area) 0 (IP_HEADER_LEN + d) = header ++ slice area 0 d.
Proof.
  intros (Hh & Ha & Hd). rewrite <-Hh. apply slice_app_prefix. lia.
Qed.

Lemma length_slide area o m :
  0 <= o -> 0 <= m -> o + m <= Z.of_nat (length area) ->
  length (slide area o m) = length area.
Proof.
  intros. unfold slide. rewrite length_app, length_slice, length_drop; lia.
Qed.

Lemma area_ok_slide header area d r :
  area_ok header area d -> 0 <= r <= IP_HEADER_LEN + d ->
  d + IP_HEADER_LEN <= IP_DATA_MAX_LEN ->
  area_ok header (slide area r (IP_HEADER_LEN + d - r)) (IP_HEADER_LEN + d - r).
Proof.
  intros (Hh & Ha & Hd) Hr Hfit. split_and!; [done| |lia..].
  rewrite length_slide by lia. lia.
Qed.

(** The iteration of the code on every answer [r] of an honest link. *)
Lemma send_iter_ref s hw l l' header area d r :
  area_ok header area d ->
  eth_send l s hw (header ++ slice area 0 d) = (r, l') ->
  0 <= r <= IP_HEADER_LEN + d ->
  send_iter s hw l (header ++ area) d
  = let d' := IP_HEADER_LEN + d - r in
    if r =? IP_HEADER_LEN then Ok (l', header ++ area, d, r)
    else if d' =? 0 then Ok (l', header ++ area, 0, r)
    else if IP_DATA_MAX_LEN <? d + IP_HEADER_LEN then Fault OutOfBounds
    else Ok (l', header ++ slide area r d', d', r).
Proof.
  intros Hok Hsend Hr. pose proof (area_ok_iter _ _ _ Hok) as Hit.
  rewrite <-area_ok_frame in Hsend by done.
  rewrite (send_iter_answer _ _ _ _ _ _ _ Hit Hsend).
  destruct Hok as (Hh & Ha & Hd). layout_facts. cbv zeta.
  rewrite (usize_small r) by lia.
  replace (usize (d - usize (r - IP_HEADER_LEN))) with (IP_HEADER_LEN + d - r)
    by zmod.
  destruct (Z.eqb_spec r IP_HEADER_LEN) as [->|Hne].
  { rewrite Z.sub_diag. change (usize 0 =? 0) with true. cbn [bind].
    by replace (IP_HEADER_LEN + d - IP_HEADER_LEN) with d by lia. }
  replace (usize (r - IP_HEADER_LEN) =? 0) with false
    by (symmetry; apply Z.eqb_neq; zmod).
  destruct (Z.eqb_spec (IP_HEADER_LEN + d - r) 0) as [->|Hd'].
  { by rewrite memmove_zero. }
  destruct (Z.ltb_spec IP_DATA_MAX_LEN (d + IP_HEADER_LEN)).
  - rewrite memmove_fault; [done|lia..|]. left. rewrite length_app. lia.
  - replace off_data with (Z.of_nat (length header)) by lia.
    by rewrite memmove_app by lia.
Qed.

End Iteration.

(** ** The loop *)

Section Loop.
Context `{P : IpParams} {L : Type} `{LinkLayer L}.
Implicit Types (l : L) (s : session) (hw header area : list byte) (d r : Z).

Lemma honest_answer l s hw header area d :
  honest L -> area_ok header area d ->
  0 <= (eth_send l s hw (header ++ slice area 0 d)).1 <= IP_HEADER_LEN + d.
Proof.
  intros Hl (Hh & Ha & Hd). specialize (Hl l s hw (header ++ slice area 0 d)).
  rewrite length_app, length_slice in Hl by lia. lia.
Qed.

Lemma send_loop_ref fuel s hw l header area d :
  honest L -> area_ok header area d ->
  send_loop fuel s hw l (header ++ area) d
  = ref_loop fuel s hw l header area d.
Proof.
  intros Hl. revert l area d.
  induction fuel as [|fuel IH]; intros l area d Hok; [done|].
  pose proof (honest_answer l s hw header area d Hl Hok) as Hr.
  cbn [send_loop ref_loop].
  destruct (eth_send l s hw _) as [r l'] eqn:Hsend. cbn [fst] in Hr.
  rewrite (send_iter_ref _ _ _ l' _ _ _ r) by done. cbv zeta.
  pose proof Hok as (Hh & Ha & Hd). layout_facts.
  destruct (Z.eqb_spec r IP_HEADER_LEN) as [->|Hne]; cbn [bind].
  { destruct (Z.eqb_spec IP_HEADER_LEN 0); [lia|].
    destruct (Z.eqb_spec d 0) as [->|]; cbn [negb andb]; [done|by apply IH]. }
  destruct (Z.eqb_spec (IP_HEADER_LEN + d - r) 0) as [Hz|Hd']; cbn [bind].
  { by rewrite andb_false_r. }
  destruct (Z.ltb_spec IP_DATA_MAX_LEN (d + IP_HEADER_LEN)); cbn [bind]; [done|].
  apply Z.eqb_neq in Hd'. rewrite Hd'.
  destruct (Z.eqb_spec r 0); cbn [negb andb]; [done|].
  apply IH. by apply area_ok_slide.
Qed.

End Loop.

(** ** The function *)

Section IpSend.
Context `{P : IpParams} {L : Type} `{LinkLayer L}.
Implicit Types (l : L) (s : session) (stack dst data : list byte).

(** The local [packet] once built is a header and a data area. *)
Lemma area_ok_packet_image stack s dst protocol data data_len :
  send_args_ok s dst data data_len ->
  let n := Z.min data_len IP_DATA_MAX_LEN in
  area_ok (ip_header s dst protocol n) (slice data 0 n ++ stack_tail stack n) n.
Proof.
  intros Hok n. pose proof (send_args_ok_min _ _ _ _ Hok) as Hmin. fold n in Hmin.
  pose proof Hmin as (? & ? & ?). layout_facts.
  pose proof (length_ip_header s dst protocol n) as Hh.
  pose proof (length_packet_image stack s dst protocol data n Hmin) as Hp.
  unfold packet_image in Hp. fold (stack_tail stack n) in Hp.
  rewrite length_app in Hp. split_and!; lia.
Qed.

Lemma ip_send_send_ref fuel stack l s dst protocol data data_len :
  honest L -> send_args_ok s dst data data_len ->
  ip_send fuel stack l s dst protocol data data_len
  = send_ref fuel stack l s dst protocol data data_len.
Proof.
  intros Hl Hok. rewrite ip_send_unfold by done. unfold send_ref. cbv zeta.
  unfold packet_image. fold (stack_tail stack (Z.min data_len IP_DATA_MAX_LEN)).
  rewrite send_loop_ref; [done..|]. by apply area_ok_packet_image.
Qed.

(** C3: [ip_send] is [send_ref].  On every link that never reports more
    than it was handed and on all valid arguments, [ip_send] returns what
    the transmitter on lists returns, for every fuel: same link state, same
    value, same faults.  The data area of the transmitter on lists slides
    by [sent] bytes after each send, where the specification slides by
    [sent - IP_HEADER_LEN]. *)
Theorem ip_send_ref_equiv fuel stack l s dst protocol data data_len :
  honest L -> send_args_ok s dst data data_len ->
  ip_send fuel stack l s dst protocol data data_len
  = send_ref fuel stack l s dst protocol data data_len.
Proof. apply ip_send_send_ref. Qed.

End IpSend.

(** ** The theorems at concrete inputs

    The link takes 45 bytes of each frame: the header of 40 bytes and five
    bytes after it.  The stack holds the byte 0xEE everywhere. *)

Section Witnesses.

Definition example_twelve : list byte :=
  [Byte.x01; Byte.x02; Byte.x03; Byte.x04; Byte.x05; Byte.x06;
   Byte.x07; Byte.x08; Byte.x09; Byte.x0a; Byte.x0b; Byte.x0c].

Definition example_header : list byte :=
  @ip_header small_params example_session example_dst Byte.x06 12.

(** Twelve bytes of payload are reported as sent; five of them went out,
    followed by seven bytes of the stack. *)
Lemma ip_send_ref_equiv_witness :
  @ip_send small_params (chunked 45) _ 3 example_stack (Chunked [])
    example_session example_dst Byte.x06 example_twelve 12
  = Ok (Chunked [example_header ++ [Byte.x01; Byte.x02; Byte.x03; Byte.x04; Byte.x05];
                 example_header ++ replicate 5 Byte.xee;
                 example_header ++ replicate 2 Byte.xee], 12).
Proof.
  rewrite (@ip_send_ref_equiv small_params (chunked 45) _ 3 example_stack
             (Chunked []) example_session example_dst Byte.x06 example_twelve 12).
  - vm_compute. reflexivity.
  - apply chunked_honest. lia.
  - by_decide.
Defined.

End Witnesses.
