(* ===== verification/Recv.v ===== *)
(** * Recv: the receiver [ip_recv] (src/src/ip.c, lines 80-92)

    The model of [ip_recv], its behaviour on every frame length (no frame,
    a frame shorter than a header, longer than the local packet, with a
    payload that fits the caller's buffer or not), gathered in the
    reference [ip_recv_ref], and the round trip with [ip_send] over a link
    that delivers what it was handed. *)

From S2P Require Import Prelude.
From S2P Require Import Layout.
From S2P Require Import Link.
From S2P Require Import Packet.
From S2P Require Import Send.

Section Code.
Context `{P : IpParams} {L : Type} `{LinkLayer L}.

(** [size_t ip_recv(session, data)]: the link state after the call, the
    value returned and the caller's buffer [data]. *)
Definition ip_recv (stack : list byte) (l : L) (s : session) (data : list byte)
  : result (L * Z * list byte) :=
  let packet := alloca sizeof_ip_packet stack in
  let '(frame, l) := eth_recv l s in
  let* packet := store packet 0 frame in
  let packet_len := usize (Z.of_nat (length frame)) in
  if packet_len =? 0 then Ok (l, 0, data)
  else
    let data_len := usize (packet_len - IP_HEADER_LEN) in
    let* data := memcpy data 0 packet off_data data_len in
    Ok (l, data_len, data).

(** What [ip_recv] does with a frame, case by case on its length: the value
    returned and the caller's buffer, or the fault. *)
Definition ip_recv_ref (frame data : list byte) : result (Z * list byte) :=
  let len := Z.of_nat (length frame) in
  if len =? 0 then Ok (0, data)
  else if IP_PACKET_MAX_LEN <? len then Fault OutOfBounds
  else if len <? IP_HEADER_LEN then Fault OutOfBounds
  else if Z.of_nat (length data) <? len - IP_HEADER_LEN then Fault OutOfBounds
  else Ok (len - IP_HEADER_LEN,
           drop (Z.to_nat IP_HEADER_LEN) frame
           ++ drop (Z.to_nat (len - IP_HEADER_LEN)) data).

End Code.

Section IpRecv.
Context `{P : IpParams} {L : Type} `{LinkLayer L}.
Implicit Types (l : L) (s : session) (stack frame data : list byte).

(** Without a frame [ip_recv] returns 0 and leaves the caller's buffer
    as it was. *)
Theorem ip_recv_none stack l l' s data :
  eth_recv l s = ([], l') -> ip_recv stack l s data = Ok (l', 0, data).
Proof. intros Hr. unfold ip_recv. rewrite Hr. done. Qed.

(** The local [packet] after the frame was written into it. *)
Lemma ip_recv_unfold stack l l' s data frame :
  eth_recv l s = (frame, l') ->
  Z.of_nat (length frame) <= IP_PACKET_MAX_LEN ->
  ip_recv stack l s data
  = let packet := frame ++ drop (length frame) (alloca sizeof_ip_packet stack) in
    let packet_len := Z.of_nat (length frame) in
    if packet_len =? 0 then Ok (l', 0, data)
    else
      let data_len := usize (packet_len - IP_HEADER_LEN) in
      let* data := memcpy data 0 packet off_data data_len in
      Ok (l', data_len, data).
Proof.
  intros Hr Hlen. layout_facts. unfold ip_recv. rewrite Hr.
  set (buf := alloca _ _).
  assert (Hbuf : Z.of_nat (length buf) = IP_PACKET_MAX_LEN).
  { unfold buf. rewrite length_alloca. lia. }
  change buf with ([] ++ drop 0 buf) at 1. rewrite (store_frontier buf) by len.
  cbn [bind app Nat.add]. by unwrap_small.
Qed.

Lemma ip_recv_payload stack l l' s data frame :
  eth_recv l s = (frame, l') ->
  IP_HEADER_LEN <= Z.of_nat (length frame) <= IP_PACKET_MAX_LEN ->
  Z.of_nat (length frame) - IP_HEADER_LEN <= Z.of_nat (length data) ->
  let n := Z.of_nat (length frame) - IP_HEADER_LEN in
  ip_recv stack l s data
  = Ok (l', n, drop (Z.to_nat IP_HEADER_LEN) frame ++ drop (Z.to_nat n) data).
Proof.
  intros Hr Hlen Hdata n. layout_facts.
  rewrite (ip_recv_unfold _ _ l' _ _ frame) by (done || lia). cbv zeta.
  destruct (Z.eqb_spec (Z.of_nat (length frame)) 0); [lia|]. fold n.
  unwrap_small. rewrite memcpy_ok; [|len..]. cbn [bind]. do 2 f_equal.
  unfold splice, slice. change (Z.to_nat 0) with 0%nat.
  rewrite take_0, app_nil_l, Nat.add_0_l, drop_app_le, take_app_length' by len.
  replace off_data with IP_HEADER_LEN by done. do 2 f_equal. len.
Qed.

(** A frame of at least a header is stripped of its first
    [IP_HEADER_LEN] bytes: the rest is copied to the front of the caller's
    buffer and its length is returned.  No field of the header is looked
    at: the length returned is the frame's, not the header's. *)
Theorem ip_recv_strip stack l l' s data frame :
  eth_recv l s = (frame, l') ->
  IP_HEADER_LEN <= Z.of_nat (length frame) <= IP_PACKET_MAX_LEN ->
  Z.of_nat (length frame) - IP_HEADER_LEN <= Z.of_nat (length data) ->
  let n := Z.of_nat (length frame) - IP_HEADER_LEN in
  ip_recv stack l s data
  = Ok (l', n, drop (Z.to_nat IP_HEADER_LEN) frame ++ drop (Z.to_nat n) data).
Proof. apply ip_recv_payload. Qed.

Lemma ip_recv_short_frame_fault stack l l' s data frame :
  eth_recv l s = (frame, l') ->
  0 < Z.of_nat (length frame) < IP_HEADER_LEN ->
  ip_recv stack l s data = Fault OutOfBounds.
Proof.
  intros Hr Hlen. layout_facts.
  rewrite (ip_recv_unfold _ _ l' _ _ frame) by (done || lia). cbv zeta.
  destruct (Z.eqb_spec (Z.of_nat (length frame)) 0); [lia|].
  rewrite usize_underflow, memcpy_src_fault; [done|lia| |lia..].
  rewrite length_app, length_drop, length_alloca. lia.
Qed.

(** A frame shorter than a header makes [packet_len - IP_HEADER_LEN]
    wrap around: [memcpy] is asked for nearly 2^64 bytes. *)
Theorem ip_recv_short_frame stack l l' s data frame :
  eth_recv l s = (frame, l') ->
  0 < Z.of_nat (length frame) < IP_HEADER_LEN ->
  ip_recv stack l s data = Fault OutOfBounds.
Proof. apply ip_recv_short_frame_fault. Qed.

(** A frame longer than the local [packet]: [eth_recv] has written past it. *)
Lemma ip_recv_long_frame stack l l' s data frame :
  eth_recv l s = (frame, l') ->
  IP_PACKET_MAX_LEN < Z.of_nat (length frame) ->
  ip_recv stack l s data = Fault OutOfBounds.
Proof.
  intros Hr Hlen. layout_facts. unfold ip_recv. rewrite Hr.
  assert (frame <> []) by (intros ->; simpl in Hlen; lia).
  rewrite store_fault; [done|done|rewrite length_alloca; lia].
Qed.

(** A payload longer than the caller's buffer: [ip_recv] has no argument for
    the length of [data], and [memcpy] writes past it. *)
Lemma ip_recv_small_buffer stack l l' s data frame :
  eth_recv l s = (frame, l') ->
  IP_HEADER_LEN <= Z.of_nat (length frame) <= IP_PACKET_MAX_LEN ->
  Z.of_nat (length data) < Z.of_nat (length frame) - IP_HEADER_LEN ->
  ip_recv stack l s data = Fault OutOfBounds.
Proof.
  intros Hr Hlen Hdata. layout_facts.
  rewrite (ip_recv_unfold _ _ l' _ _ frame) by (done || lia). cbv zeta.
  destruct (Z.eqb_spec (Z.of_nat (length frame)) 0); [lia|]. unwrap_small.
  rewrite memcpy_dst_fault; [done|lia..| |lia].
  rewrite length_app, length_drop, length_alloca. lia.
Qed.

(** C19: [ip_recv] on every frame.  The call returns what [ip_recv_ref] says
    of the frame that [eth_recv] delivered: 0 for no frame; a fault for a
    frame longer than the local packet, for a frame shorter than a header
    (the subtraction wraps around) and for a payload longer than the
    caller's buffer (there is no argument for its length); the payload and
    its length otherwise. *)
Theorem ip_recv_cases stack l s data :
  ip_recv stack l s data
  = let '(frame, l') := eth_recv l s in
    let* '(n, data') := ip_recv_ref frame data in
    Ok (l', n, data').
Proof.
  destruct (eth_recv l s) as [frame l'] eqn:Hr. unfold ip_recv_ref. cbv zeta.
  destruct (Z.eqb_spec (Z.of_nat (length frame)) 0) as [H0|H0].
  { apply ip_recv_none. by destruct frame. }
  destruct (Z.ltb_spec IP_PACKET_MAX_LEN (Z.of_nat (length frame))).
  { by apply (ip_recv_long_frame _ _ l' _ _ frame). }
  destruct (Z.ltb_spec (Z.of_nat (length frame)) IP_HEADER_LEN).
  { apply (ip_recv_short_frame_fault _ _ l' _ _ frame); [done|lia]. }
  destruct (Z.ltb_spec (Z.of_nat (length data))
              (Z.of_nat (length frame) - IP_HEADER_LEN)).
  { apply (ip_recv_small_buffer _ _ l' _ _ frame); [done|lia|lia]. }
  cbn [bind]. apply (ip_recv_payload _ _ l' _ _ frame); [done|lia|lia].
Qed.

Lemma send_recv_pair fuel stack stack' l l1 l2 s s' dst protocol data data_len out :
  send_args_ok s dst data data_len ->
  let n := Z.min data_len IP_DATA_MAX_LEN in
  let frame := ip_header s dst protocol n ++ slice data 0 n in
  eth_send l s multicast_hw frame = (IP_HEADER_LEN + n, l1) ->
  eth_recv l1 s' = (frame, l2) ->
  n <= Z.of_nat (length out) ->
  ip_send (S fuel) stack l s dst protocol data data_len = Ok (l1, n) /\
  ip_recv stack' l1 s' out = Ok (l2, n, slice data 0 n ++ drop (Z.to_nat n) out).
Proof.
  intros Hok n frame Hsend Hrecv Hout. pose proof Hok as (? & ? & ?).
  layout_facts. split; [by apply ip_send_all|].
  assert (Hframe : Z.of_nat (length frame) = IP_HEADER_LEN + n).
  { unfold frame. rewrite length_app, Nat2Z.inj_add, length_ip_header by done.
    len. }
  rewrite (ip_recv_payload _ _ l2 _ _ frame) by (done || lia).
  rewrite Hframe. replace (IP_HEADER_LEN + n - IP_HEADER_LEN) with n by lia.
  do 3 f_equal. unfold frame. rewrite drop_app_length'; [done|].
  pose proof (length_ip_header s dst protocol n). lia.
Qed.

(** C8: round trip.  What [ip_send] hands the link in one call, [ip_recv]
    turns back into the payload: the bytes received are the first
    [min(data_len, IP_DATA_MAX_LEN)] bytes sent, for every payload length. *)
Theorem send_recv_roundtrip fuel stack stack' l l1 l2 s s' dst protocol data data_len out :
  send_args_ok s dst data data_len ->
  let n := Z.min data_len IP_DATA_MAX_LEN in
  let frame := ip_header s dst protocol n ++ slice data 0 n in
  eth_send l s multicast_hw frame = (IP_HEADER_LEN + n, l1) ->
  eth_recv l1 s' = (frame, l2) ->
  n <= Z.of_nat (length out) ->
  ip_send (S fuel) stack l s dst protocol data data_len = Ok (l1, n) /\
  ip_recv stack' l1 s' out = Ok (l2, n, slice data 0 n ++ drop (Z.to_nat n) out).
Proof. apply send_recv_pair. Qed.

End IpRecv.

(** ** The theorems at concrete inputs *)

Section Witnesses.

Definition example_frame : list byte :=
  @ip_header small_params example_session example_dst Byte.x06 4 ++ example_payload.

Lemma ip_recv_none_witness :
  @ip_recv small_params loopback _ example_stack (Loopback []) example_session
    (replicate 8 Byte.xaa)
  = Ok (Loopback [], 0, replicate 8 Byte.xaa).
Proof. apply (@ip_recv_none small_params loopback _). reflexivity. Defined.

Lemma ip_recv_strip_witness :
  @ip_recv small_params loopback _ example_stack (Loopback [example_frame])
    example_session (replicate 8 Byte.xaa)
  = Ok (Loopback [], 4, example_payload ++ replicate 4 Byte.xaa).
Proof.
  rewrite (@ip_recv_strip small_params loopback _ example_stack
             (Loopback [example_frame]) (Loopback []) example_session
             (replicate 8 Byte.xaa) example_frame).
  - reflexivity.
  - reflexivity.
  - simpl. lia.
  - simpl. lia.
Defined.

Lemma ip_recv_short_frame_witness :
  @ip_recv small_params loopback _ example_stack
    (Loopback [[Byte.x60; Byte.x00]]) example_session (replicate 8 Byte.xaa)
  = Fault OutOfBounds.
Proof.
  eapply (@ip_recv_short_frame small_params loopback _).
  - reflexivity.
  - simpl. lia.
Defined.

(** A payload of the maximal length, sent and received over the loopback. *)
Lemma send_recv_roundtrip_witness :
  @ip_send small_params loopback _ 1 example_stack (Loopback [])
    example_session example_dst Byte.x11 (replicate 80 Byte.x07) 80
  = Ok (Loopback
          [@ip_header small_params example_session example_dst Byte.x11 80
           ++ replicate 80 Byte.x07], 80) /\
  @ip_recv small_params loopback _ [] (Loopback
          [@ip_header small_params example_session example_dst Byte.x11 80
           ++ replicate 80 Byte.x07]) example_session (replicate 100 Byte.xaa)
  = Ok (Loopback [], 80, replicate 80 Byte.x07 ++ replicate 20 Byte.xaa).
Proof.
  apply (@send_recv_roundtrip small_params loopback _ 0 example_stack []
           (Loopback []) _ (Loopback []) example_session example_session
           example_dst Byte.x11 (replicate 80 Byte.x07) 80 (replicate 100 Byte.xaa)).
  - by_decide.
  - reflexivity.
  - reflexivity.
  - simpl. lia.
Defined.

End Witnesses.
