(* ===== verification/Tree.v ===== *)
(** * Tree: [ip_send] and [ip_recv] as interaction trees
    (src/src/ip.c, lines 39-92)

    The do-while loop of [ip_send] has no bound of its own: whether it ends
    is up to the link.  [Send.v] models it with fuel.  This file models it
    without: [ip_send_tree] is the function as an interaction tree, the
    calls of [eth_send] and [eth_recv] as events ([linkE]) and the loop as
    [ITree.iter]; a link of the class [LinkLayer] gives the events their
    meaning ([handle_link]).

    The theorems relate the two models.  Every run of the model with fuel
    that does not run out of it is the run of the tree
    ([ip_send_tree_returns]), and everything the tree returns the model
    returns with enough fuel ([ip_send_tree_leaf]): fuel hides no
    behaviour and adds none ([ip_send_tree_fuel]).  The theorems of
    [SendLoop.v] then speak of the loop itself: on a link that makes
    progress the tree returns ([ip_send_tree_terminates]); on a link that
    takes the header only it has no leaf, the call never returns
    ([ip_send_tree_diverges]). *)

From ITree Require Import ITree ITreeFacts Events.State Events.StateFacts.
From ITree Require Import Props.Leaf.
From S2P Require Import Prelude.
From S2P Require Import Layout.
From S2P Require Import Link.
From S2P Require Import Packet.
From S2P Require Import Send.
From S2P Require Import SendLoop.
From S2P Require Import Recv.

Import LeafNotations.

(** ** The code as trees *)

(** The calls of the link layer: [eth_send(session, hw, buffer, len)]
    answers the number of bytes sent, [eth_recv(session, buffer)] the frame
    received. *)
Inductive linkE : Type -> Type :=
| EthSend (s : session) (hw frame : list byte) : linkE Z
| EthRecv (s : session) : linkE (list byte).

Section Code.
Context `{P : IpParams} {L : Type} `{LinkLayer L}.

(** The events on a link [l]. *)
Definition handle_link : linkE ~> Monads.stateT L (itree void1) :=
  fun _ e l =>
    match e with
    | EthSend s hw frame =>
        Ret ((eth_send l s hw frame).2, (eth_send l s hw frame).1)
    | EthRecv s => Ret ((eth_recv l s).2, (eth_recv l s).1)
    end.

(** A fault ends the call. *)
Definition on_ok {A B : Type} (m : result A)
    (k : A -> itree linkE (result B)) : itree linkE (result B) :=
  match m with
  | Ok a => k a
  | Fault e => Ret (Fault e)
  end.

(** One iteration of the [do ... while] loop, lines 64-75: the packet and
    [data_left] for the next iteration, or the value of [data_left] the
    loop ends with. *)
Definition send_iter_tree (s : session) (dst_hw_addr : list byte)
    (st : list byte * Z) : itree linkE ((list byte * Z) + result Z) :=
  let '(packet, data_left) := st in
  let packet_len := usize (IP_HEADER_LEN + data_left) in
  match load packet 0 packet_len with
  | Fault e => Ret (inr (Fault e))
  | Ok frame =>
      ITree.bind (ITree.trigger (EthSend s dst_hw_addr frame)) (fun sent =>
        let sent := usize sent in
        let data_sent := usize (sent - IP_HEADER_LEN) in
        let data_left := usize (data_left - data_sent) in
        match (if data_sent =? 0 then Ok packet
               else memmove packet off_data (off_data + sent) data_left) with
        | Fault e => Ret (inr (Fault e))
        | Ok packet =>
            if negb (sent =? 0) && negb (data_left =? 0)
            then Ret (inl (packet, data_left))
            else Ret (inr (Ok data_left))
        end)
  end.

(** The loop, lines 62-75. *)
Definition send_loop_tree (s : session) (dst_hw_addr packet : list byte)
    (data_left : Z) : itree linkE (result Z) :=
  ITree.iter (send_iter_tree s dst_hw_addr) (packet, data_left).

(** [size_t ip_send(session, dst_ip, protocol, data, data_len)]. *)
Definition ip_send_tree (stack : list byte) (s : session) (dst_ip : list byte)
    (protocol : byte) (data : list byte) (data_len : Z)
  : itree linkE (result Z) :=
  let data_len := Z.min data_len IP_DATA_MAX_LEN in
  on_ok (build_packet stack s dst_ip protocol data data_len) (fun packet =>
    let dst_hw_addr :=
      alloca ETH_ADDR_LEN (drop (Z.to_nat sizeof_ip_packet) stack) in
    let '(rc, hw) := ip_to_hw dst_ip dst_hw_addr in
    on_ok hw (fun dst_hw_addr =>
      if negb (rc =? 0) then Ret (Ok 0)
      else
        ITree.bind (send_loop_tree s dst_hw_addr packet data_len) (fun r =>
          Ret (rmap (fun data_left => if data_left =? 0 then data_len else 0)
                 r)))).

(** [size_t ip_recv(session, data)]: the value returned and the caller's
    buffer. *)
Definition ip_recv_tree (stack : list byte) (s : session) (data : list byte)
  : itree linkE (result (Z * list byte)) :=
  let packet := alloca sizeof_ip_packet stack in
  ITree.bind (ITree.trigger (EthRecv s)) (fun frame =>
    on_ok (store packet 0 frame) (fun packet =>
      let packet_len := usize (Z.of_nat (length frame)) in
      if packet_len =? 0 then Ret (Ok (0, data))
      else
        let data_len := usize (packet_len - IP_HEADER_LEN) in
        on_ok (memcpy data 0 packet off_data data_len) (fun data =>
          Ret (Ok (data_len, data))))).

(** ** The step of the loop on a link *)

(** What one iteration does on the link [l]: the state of the link after
    it, and the next iteration or the end of the loop. *)
Definition link_step (s : session) (hw : list byte) (l : L)
    (st : list byte * Z) : L * ((list byte * Z) + result Z) :=
  let '(packet, data_left) := st in
  match send_iter s hw l packet data_left with
  | Ok (l', packet, data_left, sent) =>
      (l', if negb (sent =? 0) && negb (data_left =? 0)
           then inl (packet, data_left) else inr (Ok data_left))
  | Fault e =>
      (match load packet 0 (usize (IP_HEADER_LEN + data_left)) with
       | Ok frame => (eth_send l s hw frame).2
       | Fault _ => l
       end, inr (Fault e))
  end.

(** What a result of the model with fuel says of a value of the tree: the
    same link and value, or the same fault on some link, and never a lack
    of fuel. *)
Definition returns {A : Type} (r : result (L * A)) (x : L * result A)
  : Prop :=
  match r with
  | Ok (l, v) => x = (l, Ok v)
  | Fault e => e <> OutOfFuel /\ x.2 = Fault e
  end.

(** The value of [ip_send] from the value of [data_left] after the loop,
    line 77. *)
Definition final (n : Z) (r : result (L * Z)) : result (L * Z) :=
  match r with
  | Ok (l, d) => Ok (l, if d =? 0 then n else 0)
  | Fault e => Fault e
  end.

End Code.

Arguments link_step : simpl never.

(** ** The loop *)

Section Loop.
Context `{P : IpParams} {L : Type} `{LinkLayer L}.
Implicit Types (l : L) (s : session) (hw packet : list byte) (d : Z).
Implicit Types (fuel : nat).

Lemma interp_send_iter_tree s hw l st :
  interp_state handle_link (send_iter_tree s hw st) l
  ≈ Ret (link_step s hw l st).
Proof.
  destruct st as [packet d]. unfold send_iter_tree, link_step, send_iter.
  destruct (load packet 0 _) as [frame|e]; cbn [bind].
  2: { by rewrite interp_state_ret. }
  rewrite interp_state_bind, interp_state_trigger. cbn.
  rewrite bind_ret_l. cbn.
  destruct (eth_send l s hw frame) as [sent l']. cbn.
  destruct (if usize (usize sent - IP_HEADER_LEN) =? 0 then _ else _)
    as [packet'|e]; cbn [bind].
  - destruct (negb _ && negb _); by rewrite interp_state_ret.
  - by rewrite interp_state_ret.
Qed.

(** One iteration of the loop with fuel, by the step. *)
Lemma send_loop_step fuel s hw l packet d :
  send_loop (S fuel) s hw l packet d
  = match link_step s hw l (packet, d) with
    | (l', inl (packet', d')) => send_loop fuel s hw l' packet' d'
    | (l', inr (Ok d')) => Ok (l', d')
    | (_, inr (Fault e)) => Fault e
    end.
Proof.
  cbn [send_loop]. unfold link_step.
  destruct (send_iter s hw l packet d) as [[[[l' packet'] d'] sent]|e];
    cbn [bind]; [|done].
  by destruct (negb _ && negb _).
Qed.

Lemma link_step_fault s hw l st l' e :
  link_step s hw l st = (l', inr (Fault e)) -> e = OutOfBounds.
Proof.
  destruct st as [packet d]. unfold link_step.
  destruct (send_iter s hw l packet d) as [[[[l1 packet'] d'] sent]|e1] eqn:Hit.
  - by destruct (negb _ && negb _).
  - intros [= _ ->]. by eapply send_iter_fault.
Qed.

(** One iteration of the interpreted tree, by the step. *)
Lemma send_loop_tree_unfold s hw l packet d :
  interp_state handle_link (send_loop_tree s hw packet d) l
  ≈ match link_step s hw l (packet, d) with
    | (l', inl (packet', d')) =>
        interp_state handle_link (send_loop_tree s hw packet' d') l'
    | (l', inr r) => Ret (l', r)
    end.
Proof.
  unfold send_loop_tree.
  rewrite unfold_iter, interp_state_bind, interp_send_iter_tree, bind_ret_l.
  destruct (link_step s hw l (packet, d)) as [l' [[packet' d']|r]]; cbn.
  - by rewrite interp_state_tau, tau_eutt.
  - by rewrite interp_state_ret.
Qed.

(** A run of the loop with fuel that does not run out of it is the run of
    the tree: by induction on the fuel. *)
Lemma send_loop_tree_returns fuel s hw l packet d :
  send_loop fuel s hw l packet d <> Fault OutOfFuel ->
  exists x, returns (send_loop fuel s hw l packet d) x /\
            interp_state handle_link (send_loop_tree s hw packet d) l ≈ Ret x.
Proof.
  revert l packet d. induction fuel as [|fuel IH]; intros l packet d; [done|].
  rewrite send_loop_step. intros Hr.
  pose proof (send_loop_tree_unfold s hw l packet d) as Hunf.
  destruct (link_step s hw l (packet, d)) as [l' [[packet' d']|[d'|e]]].
  - destruct (IH _ _ _ Hr) as (x & Hx & Htree). exists x.
    split; [done|]. by rewrite Hunf.
  - by exists (l', Ok d').
  - exists (l', Fault e). split; [|done]. split; [congruence|done].
Qed.

(** What the tree returns, the loop with fuel returns with enough of it: by
    the invariant rule for the leaves of a loop, the invariant being that
    the results of the loop from the current iteration are results of the
    loop from the first. *)
Lemma send_loop_tree_leaf s hw l packet d x :
  x ∈ interp_state handle_link (send_loop_tree s hw packet d) l ->
  exists fuel, returns (send_loop fuel s hw l packet d) x.
Proof.
  unfold send_loop_tree.
  rewrite (interp_state_iter'_eutt handle_link (send_iter_tree s hw)
             (fun st l => Ret (link_step s hw l st))
             (fun st l => interp_send_iter_tree s hw l st)).
  unfold Basics.iter, MonadIter_stateT0, Basics.iter, MonadIter_itree. cbn.
  apply (Leaf_iter_inv _ _
           (fun i : L * (list byte * Z) =>
              forall fuel y, returns (send_loop fuel s hw i.1 i.2.1 i.2.2) y ->
                exists fuel', returns (send_loop fuel' s hw l packet d) y)
           (fun x => exists fuel, returns (send_loop fuel s hw l packet d) x));
    [|by eauto].
  intros [l1 [packet1 d1]] r Hinv Hleaf; cbn in *.
  rewrite bind_ret_l in Hleaf. apply Leaf_Ret_inv in Hleaf. subst r.
  pose proof (send_loop_step 0 s hw l1 packet1 d1) as H0.
  pose proof (fun fuel => send_loop_step fuel s hw l1 packet1 d1) as HS.
  pose proof (link_step_fault s hw l1 (packet1, d1)) as Hf.
  destruct (link_step s hw l1 (packet1, d1)) as [l' [[packet' d']|[d'|e]]]; cbn.
  - intros fuel y Hy. apply (Hinv (S fuel)). by rewrite HS.
  - apply (Hinv 1%nat). by rewrite H0.
  - apply (Hinv 1%nat). rewrite H0. split; [|done].
    by rewrite (Hf l' e eq_refl).
Qed.

End Loop.

(** ** The function *)

Section IpSend.
Context `{P : IpParams} {L : Type} `{LinkLayer L}.
Implicit Types (l : L) (s : session) (stack dst data : list byte).
Implicit Types (fuel : nat).

Lemma returns_final n (r : result (L * Z)) (y : L * result Z) :
  returns r y ->
  returns (final n r)
    (y.1, rmap (fun d => if d =? 0 then n else 0) y.2).
Proof.
  destruct r as [[l d]|e], y as [ly ry]; cbn; [by intros [= -> ->]|].
  by intros [? ->].
Qed.

Lemma length_hw_local stack :
  Z.of_nat (length (alloca ETH_ADDR_LEN (drop (Z.to_nat sizeof_ip_packet) stack)))
  = ETH_ADDR_LEN.
Proof. layout_facts. rewrite length_alloca. lia. Qed.

(** [ip_send] with fuel, on all arguments: the construction of the packet,
    then the loop. *)
Lemma ip_send_loop fuel stack l s dst protocol data data_len :
  let n := Z.min data_len IP_DATA_MAX_LEN in
  ip_send fuel stack l s dst protocol data data_len
  = let* packet := build_packet stack s dst protocol data n in
    final n (send_loop fuel s multicast_hw l packet n).
Proof.
  intros n. unfold ip_send. cbv zeta. fold n.
  destruct (build_packet _ _ _ _ _ _) as [packet|e]; cbn [bind]; [|done].
  rewrite ip_to_hw_eq by apply length_hw_local. cbn [bind negb Z.eqb].
  by destruct (send_loop _ _ _ _ _ _) as [[l' d]|e].
Qed.

(** The interpreted tree of [ip_send], on all arguments. *)
Lemma ip_send_tree_loop stack l s dst protocol data data_len :
  let n := Z.min data_len IP_DATA_MAX_LEN in
  interp_state handle_link (ip_send_tree stack s dst protocol data data_len) l
  ≈ match build_packet stack s dst protocol data n with
    | Fault e => Ret (l, Fault e)
    | Ok packet =>
        ITree.bind
          (interp_state handle_link (send_loop_tree s multicast_hw packet n) l)
          (fun y => Ret (y.1, rmap (fun d => if d =? 0 then n else 0) y.2))
    end.
Proof.
  intros n. unfold ip_send_tree. cbv zeta. fold n.
  destruct (build_packet _ _ _ _ _ _) as [packet|e]; cbn [on_ok].
  2: { by rewrite interp_state_ret. }
  rewrite ip_to_hw_eq by apply length_hw_local. cbn [on_ok negb Z.eqb].
  rewrite interp_state_bind. apply eutt_eq_bind. intros [l' r]. cbn.
  by rewrite interp_state_ret.
Qed.

Lemma ip_send_tree_returns fuel stack l s dst protocol data data_len :
  ip_send fuel stack l s dst protocol data data_len <> Fault OutOfFuel ->
  exists x,
    returns (ip_send fuel stack l s dst protocol data data_len) x /\
    interp_state handle_link (ip_send_tree stack s dst protocol data data_len) l
    ≈ Ret x.
Proof.
  pose proof (ip_send_tree_loop stack l s dst protocol data data_len) as Htree.
  rewrite ip_send_loop. cbv zeta in *.
  destruct (build_packet _ _ _ _ _ _) as [packet|e]; cbn [bind].
  2: { intros He. exists (l, Fault e). split; [|done]. split; [congruence|done]. }
  set (n := Z.min data_len IP_DATA_MAX_LEN) in *. intros Hr.
  destruct (send_loop_tree_returns fuel s multicast_hw l packet n)
    as (y & Hy & Hloop).
  { intros Hoof. by rewrite Hoof in Hr. }
  exists (y.1, rmap (fun d => if d =? 0 then n else 0) y.2).
  split; [by apply returns_final|].
  by rewrite Htree, Hloop, bind_ret_l.
Qed.

Lemma ip_send_tree_leaf stack l s dst protocol data data_len x :
  x ∈ interp_state handle_link
        (ip_send_tree stack s dst protocol data data_len) l ->
  exists fuel, returns (ip_send fuel stack l s dst protocol data data_len) x.
Proof.
  rewrite ip_send_tree_loop. setoid_rewrite ip_send_loop. cbv zeta.
  destruct (build_packet _ _ _ _ _ _) as [packet|e] eqn:Hb; cbn [bind].
  - intros (y & [fuel Hy]%send_loop_tree_leaf & ->%Leaf_Ret_inv)%Leaf_bind_inv.
    exists fuel. by apply returns_final.
  - intros ->%Leaf_Ret_inv. exists 0%nat. split; [|done].
    by rewrite (build_packet_fault _ _ _ _ _ _ _ Hb).
Qed.

(** C15: the model with fuel and the tree without.  For all arguments and
    every link: a run of [ip_send] with fuel that does not run out of it
    is the run of the tree [ip_send_tree], which returns the same value on
    the same link, or the same fault; and whatever the tree returns,
    [ip_send] returns with enough fuel.  The fuel of the model hides no
    behaviour of the loop and adds none but [OutOfFuel]. *)
Theorem ip_send_tree_fuel stack l s dst protocol data data_len :
  (forall fuel,
     ip_send fuel stack l s dst protocol data data_len <> Fault OutOfFuel ->
     exists x,
       returns (ip_send fuel stack l s dst protocol data data_len) x /\
       interp_state handle_link
         (ip_send_tree stack s dst protocol data data_len) l ≈ Ret x) /\
  (forall x,
     x ∈ interp_state handle_link
           (ip_send_tree stack s dst protocol data data_len) l ->
     exists fuel,
       returns (ip_send fuel stack l s dst protocol data data_len) x).
Proof.
  split; [intros fuel; apply ip_send_tree_returns|intros x; apply ip_send_tree_leaf].
Qed.

(** The loop of [ip_send] ends on every link that makes progress.  On
    a link whose every call fails, takes the frame whole, or takes the
    header and at least one byte of payload, the tree of [ip_send] returns:
    a value or a memory fault, after finitely many calls of the link. *)
Theorem ip_send_tree_terminates stack l s dst protocol data data_len :
  progressing L IP_HEADER_LEN -> send_args_ok s dst data data_len ->
  exists x,
    interp_state handle_link
      (ip_send_tree stack s dst protocol data data_len) l ≈ Ret x.
Proof.
  intros Hprog Hok.
  destruct (ip_send_tree_returns (enough_fuel data_len) stack l s dst protocol
              data data_len) as (x & _ & Htree); [|by exists x].
  by apply ip_send_progress_fuel.
Qed.

(** C20: the loop of [ip_send] never ends on a link that takes the header
    only.  With a payload to send, the tree of [ip_send] has no leaf:
    the call returns no value and no fault, it goes on calling the
    link. *)
Theorem ip_send_tree_diverges stack l s dst protocol data data_len x :
  header_only L IP_HEADER_LEN -> send_args_ok s dst data data_len ->
  0 < Z.min data_len IP_DATA_MAX_LEN ->
  ~ x ∈ interp_state handle_link
          (ip_send_tree stack s dst protocol data data_len) l.
Proof.
  intros Hlink Hok Hn [fuel Hr]%ip_send_tree_leaf.
  rewrite (ip_send_header_only_fuel stack l s dst protocol data data_len
             Hlink Hok Hn fuel) in Hr.
  by destruct Hr.
Qed.

End IpSend.

(** ** The receiver *)

Section IpRecv.
Context `{P : IpParams} {L : Type} `{LinkLayer L}.
Implicit Types (l : L) (s : session) (stack data : list byte).

(** [ip_recv] calls the link once: its tree returns what the function of
    [Recv.v] returns, on the link after [eth_recv]. *)
Theorem ip_recv_tree_run stack l s data :
  interp_state handle_link (ip_recv_tree stack s data) l
  ≈ Ret ((eth_recv l s).2,
         rmap (fun r : L * Z * list byte => (r.1.2, r.2))
           (ip_recv stack l s data)).
Proof.
  unfold ip_recv_tree, ip_recv.
  rewrite interp_state_bind, interp_state_trigger. cbn.
  rewrite bind_ret_l. cbn. destruct (eth_recv l s) as [frame l']. cbn.
  destruct (store _ 0 frame) as [packet|e]; cbn [on_ok bind rmap].
  2: { by rewrite interp_state_ret. }
  destruct (usize (Z.of_nat (length frame)) =? 0); cbn [rmap].
  { by rewrite interp_state_ret. }
  destruct (memcpy data 0 packet off_data _) as [data'|e];
    cbn [on_ok bind rmap]; by rewrite interp_state_ret.
Qed.

End IpRecv.

(** ** The theorems at concrete inputs *)

Section Witnesses.

(** A link that takes 41 bytes per call, the header and one byte: the call
    returns. *)
Lemma ip_send_tree_terminates_witness :
  exists x,
    interp_state (@handle_link (policy (Z.min 41)) _)
      (@ip_send_tree small_params example_stack example_session example_dst
         Byte.x06 example_payload 4) (Policy [])
    ≈ Ret x.
Proof.
  apply (@ip_send_tree_terminates small_params (policy (Z.min 41)) _).
  - apply policy_progressing. intros n Hn. simpl. lia.
  - by_decide.
Defined.

(** A link that takes 40 bytes per call, the header: the call does not
    return the length of the payload, nor anything else. *)
Lemma ip_send_tree_diverges_witness :
  ~ (Policy [], Ok 4)
    ∈ interp_state (@handle_link (policy (fun _ => 40)) _)
        (@ip_send_tree small_params example_stack example_session example_dst
           Byte.x06 example_payload 4) (Policy []).
Proof.
  apply (@ip_send_tree_diverges small_params (policy (fun _ => 40)) _).
  - apply (policy_header_only 40).
  - by_decide.
  - simpl. lia.
Defined.

End Witnesses.
