(* ===== verification/Segments.v ===== *)
(** * Segments: a payload sent in several frames, and what is received
    (src/src/ip.c, lines 62-92)

    The specification asks for a test of [ip_send] against a link that
    takes a part of each frame (section 8), and says of [ip_recv] that it
    reassembles nothing (section 4.5).  This file runs the two functions
    against the link [chunked] of [Link.v], which takes [mtu] bytes of each
    frame and delivers what it took.

    - [frames] lists the frames the loop hands such a link, by recursion
      on the bytes left to send (well-founded: each frame takes
      [mtu - IP_HEADER_LEN] of them); [send_chunked] is [ip_send] over the
      link as a function of the header and the data area.  The lemmas
      [frames_*], [length_frames], [length_delivered_frames] and
      [delivered_frames_second] are the facts on the frames, by
      functional elimination.
    - [ref_loop_chunked_frames] shows that the loop on lists of
      [SendRef.v] puts these frames in flight, one iteration each, and
      [ip_send_chunked_frames] that [ip_send] is [send_chunked], the
      out-of-bounds read and the fuel included; [ip_send_tree_chunked] is
      the same for the tree of [Tree.v], which takes no fuel.
    - [recv_all] is a receiver that calls [ip_recv] once for each frame;
      [send_recv_frames] is the payload sent against the payload received
      for any number of frames, [send_recv_two_frames] the same byte for
      byte for two frames.
    - [send_spec_delivers] shows what the transmitter of the specification
      puts in flight instead: the payload. *)

From Equations Require Import Equations.
From ITree Require Import ITree ITreeFacts Events.State.
From S2P Require Import Prelude.
From S2P Require Import Layout.
From S2P Require Import Link.
From S2P Require Import Packet.
From S2P Require Import Send.
From S2P Require Import SendRef.
From S2P Require Import Recv.
From S2P Require Import Tree.

Unset Equations With Funext.

(** ** What a link carries and delivers *)

Section Code.
Context `{P : IpParams}.

(** The bytes a receiver gets that strips each frame of its header, as
    [ip_recv] does (lines 88-90), and keeps what is left in the order of
    the frames. *)
Definition delivered (frames : list (list byte)) : list byte :=
  concat (drop (Z.to_nat IP_HEADER_LEN) <$> frames).

(** The frames the loop of lines 62-75 hands a link that takes [mtu] bytes
    of each, from a data area with [d] bytes to send: while the header and
    what is left do not fit, the header and [mtu - IP_HEADER_LEN] bytes,
    after which the area has slid by [mtu] (line 73); then the header and
    what is left. *)
Equations? frames (mtu : Z) (header area : list byte) (d : Z)
  : list (list byte) by wf (Z.to_nat d) lt :=
  frames mtu header area d
    with decide (IP_HEADER_LEN < mtu < IP_HEADER_LEN + d) := {
    | left _ =>
        (header ++ slice area 0 (mtu - IP_HEADER_LEN))
        :: frames mtu header (slide area mtu (IP_HEADER_LEN + d - mtu))
             (IP_HEADER_LEN + d - mtu);
    | right _ => [header ++ slice area 0 d] }.
Proof. lia. Defined.

(** [ip_send] over a link that takes [mtu] bytes of each frame, as a
    function of the header, the data area and the [n] bytes to send: a
    payload that needs a second frame and leaves less than
    [IP_HEADER_LEN] bytes of room in the area makes line 73 read past the
    local [packet]; otherwise the frames are put in flight, one iteration
    each. *)
Definition send_chunked {mtu : Z} (fuel : nat) (q : chunked mtu)
    (header area : list byte) (n : Z) : result (chunked mtu * Z) :=
  let fs := frames mtu header area n in
  if decide (mtu < IP_HEADER_LEN + n /\ IP_DATA_MAX_LEN < n + IP_HEADER_LEN)
  then Fault OutOfBounds
  else if decide (length fs <= S fuel)%nat
       then Ok (Chunked (in_flight q ++ fs), n)
       else Fault OutOfFuel.

End Code.

Section Client.
Context `{P : IpParams} {L : Type} `{LinkLayer L}.

(** A receiver that calls [ip_recv] [k] times on the same buffer and
    keeps, in order, the bytes each call returned. *)
Fixpoint recv_all (k : nat) (stack : list byte) (l : L) (s : session)
    (out : list byte) : result (L * list byte * list byte) :=
  match k with
  | O => Ok (l, out, [])
  | S k =>
      let* '(l, n, out) := ip_recv stack l s out in
      let* '(l, out', got) := recv_all k stack l s out in
      Ok (l, out', slice out 0 n ++ got)
  end.

End Client.

(** ** The frames *)

Section Frames.
Context `{P : IpParams} (mtu : Z).
Implicit Types (header area : list byte) (d : Z).

Lemma frames_last header area d :
  IP_HEADER_LEN + d <= mtu ->
  frames mtu header area d = [header ++ slice area 0 d].
Proof. intros. simp frames. destruct (decide _); [lia|by simp frames]. Qed.

Lemma frames_next header area d :
  IP_HEADER_LEN < mtu < IP_HEADER_LEN + d ->
  frames mtu header area d
  = (header ++ slice area 0 (mtu - IP_HEADER_LEN))
    :: frames mtu header (slide area mtu (IP_HEADER_LEN + d - mtu))
         (IP_HEADER_LEN + d - mtu).
Proof. intros. simp frames. destruct (decide _); [by simp frames|lia]. Qed.

(** Every frame begins with the header. *)
Lemma frames_header header area d :
  Forall (fun f => take (length header) f = header) (frames mtu header area d).
Proof.
  funelim (frames mtu header area d).
  - constructor; [by rewrite take_app_length|done].
  - by rewrite Forall_singleton, take_app_length.
Qed.

Lemma frames_nonempty header area d :
  (1 <= length (frames mtu header area d))%nat.
Proof. funelim (frames mtu header area d); simpl; lia. Qed.

(** The number of frames: the bytes to send divided by the payload of a
    frame, rounded up, and one frame at least. *)
Lemma length_frames header area d :
  IP_HEADER_LEN < mtu ->
  let c := mtu - IP_HEADER_LEN in
  Z.of_nat (length (frames mtu header area d)) = Z.max 1 ((d + c - 1) / c).
Proof.
  intros Hmtu. cbv zeta. funelim (frames mtu header area d);
    set (c := mtu - IP_HEADER_LEN) in *.
  - cbn [length]. rewrite Nat2Z.inj_succ, H by done.
    replace (d + c - 1) with (IP_HEADER_LEN + d - mtu + c - 1 + 1 * c) by lia.
    rewrite Z.div_add by lia.
    assert (1 <= (IP_HEADER_LEN + d - mtu + c - 1) / c)
      by (apply Z.div_le_lower_bound; lia).
    lia.
  - cbn [length].
    assert ((d + c - 1) / c <= 1); [|lia].
    apply Z.lt_succ_r, Z.div_lt_upper_bound; lia.
Qed.

Lemma delivered_cons (header rest : list byte) (fs : list (list byte)) :
  Z.of_nat (length header) = IP_HEADER_LEN ->
  delivered ((header ++ rest) :: fs) = rest ++ delivered fs.
Proof.
  intros Hh. unfold delivered. cbn. by rewrite drop_app_length' by lia.
Qed.

(** The frames carry as many bytes as there were to send, and each of
    them no more. *)
Lemma length_delivered_frames header area d :
  area_ok header area d -> IP_HEADER_LEN < mtu ->
  (mtu < IP_HEADER_LEN + d -> d + IP_HEADER_LEN <= IP_DATA_MAX_LEN) ->
  Z.of_nat (length (delivered (frames mtu header area d))) = d /\
  Forall (fun f => IP_HEADER_LEN <= Z.of_nat (length f) <= IP_HEADER_LEN + d)
    (frames mtu header area d).
Proof.
  intros Hok Hmtu Hfit. funelim (frames mtu header area d);
    pose proof Hok as (Hh & Ha & Hd).
  - destruct H as [Hlen Hall]; [apply area_ok_slide; (done || lia)|lia..|].
    rewrite delivered_cons, length_app, length_slice by lia. split; [lia|].
    constructor; [rewrite length_app, length_slice; lia|].
    eapply list.Forall_impl; [exact Hall|]. simpl. lia.
  - rewrite delivered_cons by done. unfold delivered. cbn.
    rewrite Forall_singleton, !length_app, length_slice by lia. simpl. lia.
Qed.

(** What the receiver reads first is the first byte of the data area. *)
Lemma delivered_frames_head header area d :
  area_ok header area d -> 0 < d -> IP_HEADER_LEN < mtu ->
  delivered (frames mtu header area d) !! 0%nat = area !! 0%nat.
Proof.
  intros (Hh & Ha & Hd) Hpos Hmtu.
  assert (Hs : forall m fs, 0 < m <= Z.of_nat (length area) ->
            (slice area 0 m ++ fs) !! 0%nat = area !! 0%nat).
  { intros m fs Hm. rewrite lookup_app_l by (rewrite length_slice; lia).
    unfold slice. rewrite drop_0. apply lookup_take_lt. lia. }
  destruct (decide (IP_HEADER_LEN + d <= mtu)).
  - rewrite frames_last, delivered_cons by done. apply Hs. lia.
  - rewrite frames_next, delivered_cons by lia. apply Hs. lia.
Qed.

(** With a second frame, what the receiver reads after the first
    [mtu - IP_HEADER_LEN] bytes is the byte at offset [mtu] of the data
    area, [IP_HEADER_LEN] bytes too far. *)
Lemma delivered_frames_second header area d :
  area_ok header area d -> IP_HEADER_LEN < mtu < IP_HEADER_LEN + d ->
  d + IP_HEADER_LEN <= IP_DATA_MAX_LEN ->
  delivered (frames mtu header area d) !! Z.to_nat (mtu - IP_HEADER_LEN)
  = area !! Z.to_nat mtu.
Proof.
  intros Hok Hmtu Hfit. pose proof Hok as (Hh & Ha & Hd).
  rewrite frames_next, delivered_cons by done.
  rewrite lookup_app_r by (rewrite length_slice; lia).
  rewrite length_slice, Nat.sub_diag by lia.
  rewrite delivered_frames_head by (try apply area_ok_slide; (done || lia)).
  unfold slide. rewrite lookup_app_l by (rewrite length_slice; lia).
  unfold slice. rewrite lookup_take_lt, lookup_drop by lia.
  by rewrite Nat.add_0_r.
Qed.

End Frames.

(** ** The loop on a link with a frame size *)

Section Chunked.
Context `{P : IpParams} (mtu : Z).
Implicit Types (q : chunked mtu) (s : session) (hw header area : list byte).
Implicit Types (d : Z) (fuel : nat).

Lemma length_area_frame header area d :
  area_ok header area d ->
  Z.of_nat (length (header ++ slice area 0 d)) = IP_HEADER_LEN + d.
Proof.
  intros (Hh & Ha & Hd). rewrite length_app, length_slice; lia.
Qed.

(** What is left fits a frame: it is sent and the loop ends. *)
Lemma ref_loop_chunked_last fuel s hw q header area d :
  area_ok header area d -> IP_HEADER_LEN + d <= mtu ->
  ref_loop (S fuel) s hw q header area d
  = Ok (Chunked (in_flight q ++ [header ++ slice area 0 d]), 0).
Proof.
  intros Hok Hfit. pose proof (length_area_frame _ _ _ Hok) as Hlen.
  cbn [ref_loop]. rewrite chunked_send_whole by lia. rewrite Hlen.
  destruct (Z.eqb_spec (IP_HEADER_LEN + d) IP_HEADER_LEN) as [Hd|_].
  - by replace d with 0 by lia.
  - by rewrite Z.sub_diag.
Qed.

(** What is left does not fit and the area has no room for the slide:
    [memmove] reads past the local [packet]. *)
Lemma ref_loop_chunked_overrun fuel s hw q header area d :
  area_ok header area d -> IP_HEADER_LEN < mtu < IP_HEADER_LEN + d ->
  IP_DATA_MAX_LEN < d + IP_HEADER_LEN ->
  ref_loop (S fuel) s hw q header area d = Fault OutOfBounds.
Proof.
  intros Hok Hmtu Hfit. pose proof (length_area_frame _ _ _ Hok) as Hlen.
  cbn [ref_loop]. rewrite chunked_send_part by lia.
  destruct (Z.eqb_spec mtu IP_HEADER_LEN); [lia|].
  destruct (Z.eqb_spec (IP_HEADER_LEN + d - mtu) 0); [lia|].
  by destruct (Z.ltb_spec IP_DATA_MAX_LEN (d + IP_HEADER_LEN)); [|lia].
Qed.

(** What is left does not fit: the link takes the header and
    [mtu - IP_HEADER_LEN] bytes, and the data area slides by [mtu]. *)
Lemma ref_loop_chunked_next fuel s hw q header area d :
  area_ok header area d -> IP_HEADER_LEN < mtu < IP_HEADER_LEN + d ->
  d + IP_HEADER_LEN <= IP_DATA_MAX_LEN ->
  ref_loop (S fuel) s hw q header area d
  = ref_loop fuel s hw
      (Chunked (in_flight q
                ++ [header ++ slice area 0 (mtu - IP_HEADER_LEN)]))
      header (slide area mtu (IP_HEADER_LEN + d - mtu))
      (IP_HEADER_LEN + d - mtu).
Proof.
  intros Hok Hmtu Hfit. pose proof (length_area_frame _ _ _ Hok) as Hlen.
  pose proof Hok as (Hh & Ha & Hd). layout_facts.
  cbn [ref_loop]. rewrite chunked_send_part by lia.
  destruct (Z.eqb_spec mtu IP_HEADER_LEN); [lia|].
  destruct (Z.eqb_spec (IP_HEADER_LEN + d - mtu) 0); [lia|].
  destruct (Z.ltb_spec IP_DATA_MAX_LEN (d + IP_HEADER_LEN)); [lia|].
  destruct (Z.eqb_spec mtu 0); [lia|]. do 3 f_equal.
  replace mtu with (Z.of_nat (length header) + (mtu - IP_HEADER_LEN)) at 1
    by lia.
  rewrite slice_app_prefix, slice_slice_0 by lia. done.
Qed.

(** The loop puts the frames in flight, one iteration each, and ends with
    nothing left: with as many iterations as there are frames it returns,
    with fewer it is still running. *)
Lemma ref_loop_chunked_frames fuel s hw q header area d :
  area_ok header area d -> IP_HEADER_LEN < mtu ->
  (mtu < IP_HEADER_LEN + d -> d + IP_HEADER_LEN <= IP_DATA_MAX_LEN) ->
  ref_loop fuel s hw q header area d
  = if decide (length (frames mtu header area d) <= fuel)%nat
    then Ok (Chunked (in_flight q ++ frames mtu header area d), 0)
    else Fault OutOfFuel.
Proof.
  intros Hok Hmtu. revert q area d Hok.
  induction fuel as [|fuel IH]; intros q area d Hok Hfit; layout_facts.
  { pose proof (frames_nonempty mtu header area d). by case_decide; [lia|]. }
  destruct (decide (IP_HEADER_LEN + d <= mtu)) as [Hlast|Hnext].
  - rewrite ref_loop_chunked_last, frames_last by done.
    by case_decide; [|simpl in *; lia].
  - rewrite ref_loop_chunked_next, frames_next by (done || lia).
    rewrite IH by (try apply area_ok_slide; (done || lia)).
    cbn [length in_flight]. rewrite <-app_assoc.
    by repeat case_decide; try lia.
Qed.

End Chunked.

(** ** What [ip_send] puts in flight *)

Section Sending.
Context `{P : IpParams} (mtu : Z).
Implicit Types (q : chunked mtu) (s : session) (stack dst data out : list byte).

Lemma ip_send_frames fuel stack s dst protocol data data_len q :
  send_args_ok s dst data data_len -> IP_HEADER_LEN < mtu ->
  let n := Z.min data_len IP_DATA_MAX_LEN in
  ip_send (S fuel) stack q s dst protocol data data_len
  = send_chunked fuel q (ip_header s dst protocol n)
      (slice data 0 n ++ stack_tail stack n) n.
Proof.
  intros Hok Hmtu n. layout_facts.
  pose proof (area_ok_packet_image stack s dst protocol data data_len Hok) as Ha.
  cbv zeta in Ha. fold n in Ha.
  rewrite ip_send_send_ref by (done || apply chunked_honest; lia).
  unfold send_ref, send_chunked. cbv zeta. fold n. case_decide as Hover.
  - by rewrite ref_loop_chunked_overrun by (done || lia).
  - rewrite (ref_loop_chunked_frames mtu) by (done || lia).
    case_decide; [|done]. cbn [bind]. by rewrite Z.eqb_refl.
Qed.

(** C5: [ip_send] over a link that takes [mtu] bytes of each frame, more
    than a header, for all valid arguments and every fuel: [send_chunked].
    A payload that fits one frame is sent in it.  A payload that needs
    more and leaves less than [IP_HEADER_LEN] bytes of room in the local
    [packet] makes the [memmove] of line 73 read past it.  Any other
    payload is reported as sent, in as many iterations as [frames] has
    frames, and the frames in flight are those of [frames]: the header and
    the next [mtu - IP_HEADER_LEN] bytes of a data area that has slid by
    [mtu] bytes since the frame before. *)
Theorem ip_send_chunked_frames fuel stack s dst protocol data data_len q :
  send_args_ok s dst data data_len -> IP_HEADER_LEN < mtu ->
  let n := Z.min data_len IP_DATA_MAX_LEN in
  ip_send (S fuel) stack q s dst protocol data data_len
  = send_chunked fuel q (ip_header s dst protocol n)
      (slice data 0 n ++ stack_tail stack n) n.
Proof. apply ip_send_frames. Qed.

(** The data area begins with the payload. *)
Lemma slice_area_payload stack data n j :
  0 <= j <= n -> n <= Z.of_nat (length data) ->
  slice (slice data 0 n ++ stack_tail stack n) 0 j = slice data 0 j.
Proof.
  intros Hj Hn. rewrite <-(slice_slice_0 (_ ++ _) n j) by lia.
  rewrite slice_app_l by (rewrite length_slice; lia).
  by rewrite slice_slice_0 by lia.
Qed.

(** The frames of a payload that needs two: the header and the first
    [mtu - IP_HEADER_LEN] bytes of the payload, then the header and the
    bytes at offset [mtu] of the data area. *)
Lemma ip_send_chunked_pair fuel stack s dst protocol data data_len q :
  send_args_ok s dst data data_len ->
  let n := Z.min data_len IP_DATA_MAX_LEN in
  let k := mtu - IP_HEADER_LEN in
  let header := ip_header s dst protocol n in
  let area := slice data 0 n ++ stack_tail stack n in
  0 < k < n -> n <= 2 * k -> n + IP_HEADER_LEN <= IP_DATA_MAX_LEN ->
  ip_send (S (S fuel)) stack q s dst protocol data data_len
  = Ok (Chunked (in_flight q
                 ++ [header ++ slice data 0 k;
                     header ++ slice area mtu (n - k)]), n).
Proof.
  intros Hok n k header area Hk Hn Hfit. layout_facts.
  pose proof (area_ok_packet_image stack s dst protocol data data_len Hok)
    as (_ & Hlen & _). fold n area in Hlen.
  pose proof (send_args_ok_min _ _ _ _ Hok) as (_ & _ & Hdata). fold n in Hdata.
  rewrite ip_send_frames by (done || lia). cbv zeta. fold n header area.
  unfold send_chunked. cbv zeta. rewrite frames_next, frames_last by lia.
  case_decide; [lia|]. case_decide; [|simpl in *; lia]. fold k.
  replace (IP_HEADER_LEN + n - mtu) with (n - k) by lia.
  unfold area at 1. rewrite slice_area_payload by lia. fold area.
  unfold slide. by rewrite slice_app_l by (rewrite length_slice; lia).
Qed.

(** Whatever the number of frames, the code reports the payload as sent:
    over a link that takes [mtu] bytes of each frame, more than a header,
    and for a payload that leaves [IP_HEADER_LEN] bytes of room, [ip_send]
    returns the clamped length, every frame it put in flight begins with
    the header, and the frames carry as many bytes as the payload has. *)
Theorem ip_send_chunked_count fuel stack s dst protocol data data_len q :
  send_args_ok s dst data data_len -> IP_HEADER_LEN < mtu ->
  let n := Z.min data_len IP_DATA_MAX_LEN in
  n + IP_HEADER_LEN <= IP_DATA_MAX_LEN -> (Z.to_nat n <= fuel)%nat ->
  exists frames,
    ip_send (S fuel) stack q s dst protocol data data_len
    = Ok (Chunked (in_flight q ++ frames), n) /\
    Forall (fun f => take (Z.to_nat IP_HEADER_LEN) f = ip_header s dst protocol n)
      frames /\
    Z.of_nat (length (delivered frames)) = n.
Proof.
  intros Hok Hmtu n Hfit Hfuel. layout_facts.
  pose proof (area_ok_packet_image stack s dst protocol data data_len Hok) as Ha.
  cbv zeta in Ha. fold n in Ha. pose proof Ha as (Hh & _ & Hn).
  set (header := ip_header s dst protocol n) in *.
  set (area := slice data 0 n ++ stack_tail stack n) in *.
  pose proof (length_frames mtu header area n Hmtu) as Hcount. cbv zeta in Hcount.
  assert ((n + (mtu - IP_HEADER_LEN) - 1) / (mtu - IP_HEADER_LEN) <= n)
    by (apply Z.lt_succ_r, Z.div_lt_upper_bound; nia).
  exists (frames mtu header area n). rewrite ip_send_frames by done.
  unfold send_chunked. cbv zeta. fold n header area.
  case_decide; [lia|]. case_decide; [|lia]. split_and!; [done| |].
  - replace (Z.to_nat IP_HEADER_LEN) with (length header) by lia.
    apply frames_header.
  - by apply length_delivered_frames.
Qed.

(** The same without fuel: the tree of [ip_send] on the link returns the
    payload length after putting the frames in flight. *)
Theorem ip_send_tree_chunked stack s dst protocol data data_len q :
  send_args_ok s dst data data_len -> IP_HEADER_LEN < mtu ->
  let n := Z.min data_len IP_DATA_MAX_LEN in
  let fs := frames mtu (ip_header s dst protocol n)
              (slice data 0 n ++ stack_tail stack n) n in
  (mtu < IP_HEADER_LEN + n -> n + IP_HEADER_LEN <= IP_DATA_MAX_LEN) ->
  interp_state handle_link
    (ip_send_tree stack s dst protocol data data_len) q
  ≈ Ret (Chunked (in_flight q ++ fs), Ok n).
Proof.
  intros Hok Hmtu n fs Hfit.
  pose proof (ip_send_frames (Nat.pred (length fs)) stack s dst protocol
                data data_len q Hok Hmtu) as Hrun.
  cbv zeta in Hrun. fold n fs in Hrun. unfold send_chunked in Hrun.
  cbv zeta in Hrun. fold fs in Hrun.
  pose proof (frames_nonempty mtu (ip_header s dst protocol n)
                (slice data 0 n ++ stack_tail stack n) n).
  repeat case_decide; try lia.
  destruct (ip_send_tree_returns (S (Nat.pred (length fs))) stack q s dst
              protocol data data_len) as (x & Hx & Htree);
    [by rewrite Hrun|].
  rewrite Hrun in Hx. cbn in Hx. by subst x.
Qed.

End Sending.

(** ** What [ip_recv] makes of the frames *)

Section Receiving.
Context `{P : IpParams} (mtu : Z).
Implicit Types (q : chunked mtu) (s : session) (stack dst data out : list byte).

(** As many calls of [ip_recv] as there are frames in flight return, in
    order, what the frames carry after their headers. *)
Lemma recv_all_chunked stack s (fs : list (list byte)) out :
  Forall (fun f => IP_HEADER_LEN <= Z.of_nat (length f) <= IP_PACKET_MAX_LEN /\
                   Z.of_nat (length f) - IP_HEADER_LEN <= Z.of_nat (length out))
    fs ->
  exists out',
    recv_all (length fs) stack (Chunked (mtu:=mtu) fs) s out
    = Ok (Chunked [], out', delivered fs) /\
    length out' = length out.
Proof.
  revert out. induction fs as [|f fs IH]; intros out Hall; [by exists out|].
  apply list.Forall_cons in Hall as [(Hlen & Hout) Hall]. layout_facts.
  cbn [recv_all length].
  rewrite (ip_recv_payload stack _ (Chunked fs) s out f) by done.
  cbv zeta. cbn [bind].
  set (n := Z.of_nat (length f) - IP_HEADER_LEN).
  set (out1 := drop (Z.to_nat IP_HEADER_LEN) f ++ drop (Z.to_nat n) out).
  assert (Hn : Z.of_nat (length (drop (Z.to_nat IP_HEADER_LEN) f)) = n)
    by (rewrite length_drop; lia).
  assert (Hout1 : length out1 = length out)
    by (unfold out1; rewrite length_app, !length_drop; lia).
  destruct (IH out1) as (out' & -> & Hlen'); [by rewrite Hout1|].
  cbn [bind]. exists out'. split; [|congruence].
  unfold out1. by rewrite slice_app_l by done.
Qed.

(** A payload sent in two frames is not the payload received.  Over a
    link that takes [mtu] bytes of each frame and delivers what it took, a
    payload of [n] bytes that needs two frames is reported as sent, and the
    receiver reads it with two calls of [ip_recv], which reassemble
    nothing: the first returns the first [mtu - IP_HEADER_LEN] bytes of the
    payload; the second returns, as the rest, the bytes at offset [mtu] of
    the payload followed by the sender's stack.  What is delivered is
    not the payload: [IP_HEADER_LEN] bytes of it are left out, and as many
    bytes of the sender's stack are sent. *)
Theorem send_recv_two_frames fuel stack stack1 stack2 s s' dst protocol
    data data_len out :
  send_args_ok s dst data data_len ->
  let n := Z.min data_len IP_DATA_MAX_LEN in
  let k := mtu - IP_HEADER_LEN in
  let area := slice data 0 n ++ stack_tail stack n in
  0 < k < n -> n <= 2 * k -> n + IP_HEADER_LEN <= IP_DATA_MAX_LEN ->
  n <= Z.of_nat (length out) ->
  exists q1 q2 out1,
    ip_send (S (S fuel)) stack (Chunked (mtu:=mtu) []) s dst protocol data data_len
    = Ok (q1, n) /\
    delivered (in_flight q1) = slice data 0 k ++ slice area mtu (n - k) /\
    ip_recv stack1 q1 s' out = Ok (q2, k, out1) /\
    out1 = slice data 0 k ++ drop (Z.to_nat k) out /\
    ip_recv stack2 q2 s' out1
    = Ok (Chunked [], n - k,
          slice area mtu (n - k) ++ drop (Z.to_nat (n - k)) out1).
Proof.
  intros Hok n k area Hk Hn Hfit Hout. pose proof Hok as (? & ? & ?).
  layout_facts.
  pose proof (area_ok_packet_image stack s dst protocol data data_len Hok)
    as (Hh & Ha & _). fold n area in Hh, Ha.
  set (header := ip_header s dst protocol n) in *.
  exists (Chunked [header ++ slice data 0 k; header ++ slice area mtu (n - k)]),
    (Chunked [header ++ slice area mtu (n - k)]),
    (slice data 0 k ++ drop (Z.to_nat k) out).
  split_and!; [|  | |done|].
  - exact (ip_send_chunked_pair mtu fuel stack s dst protocol data data_len
             (Chunked []) Hok Hk Hn Hfit).
  - unfold delivered. cbn [in_flight fmap list_fmap concat]. rewrite app_nil_r.
    by rewrite !drop_app_length' by lia.
  - rewrite (ip_recv_payload _ _ (Chunked [header ++ slice area mtu (n - k)])
               _ _ (header ++ slice data 0 k)); [|done|len..].
    rewrite length_app, length_slice by lia.
    replace (Z.of_nat (length header + Z.to_nat k) - IP_HEADER_LEN) with k by lia.
    by rewrite drop_app_length' by lia.
  - rewrite (ip_recv_payload _ _ (Chunked []) _ _
               (header ++ slice area mtu (n - k))); [|done|len..].
    rewrite length_app, length_slice by lia.
    replace (Z.of_nat (length header + Z.to_nat (n - k)) - IP_HEADER_LEN)
      with (n - k) by lia.
    by rewrite drop_app_length' by lia.
Qed.

(** C7: the payload sent and the payload received, for any number of
    frames.  Over a link that takes [mtu] bytes of each frame, more than a
    header, and delivers what it took, [ip_send] reports the payload as
    sent, and a receiver that calls [ip_recv] once for each frame reads as
    many bytes as were sent.  When the payload fits one frame they are the
    payload.  When it does not, they are not: after the first
    [mtu - IP_HEADER_LEN] bytes the receiver reads the byte at offset [mtu]
    of the sender's data area, which is a byte [IP_HEADER_LEN] places
    further in the payload or, past its end, a byte of the sender's
    stack. *)
Theorem send_recv_frames fuel stack stack' s s' dst protocol data data_len out :
  send_args_ok s dst data data_len -> IP_HEADER_LEN < mtu ->
  let n := Z.min data_len IP_DATA_MAX_LEN in
  let area := slice data 0 n ++ stack_tail stack n in
  let fs := frames mtu (ip_header s dst protocol n) area n in
  (mtu < IP_HEADER_LEN + n -> n + IP_HEADER_LEN <= IP_DATA_MAX_LEN) ->
  (length fs <= S fuel)%nat -> n <= Z.of_nat (length out) ->
  exists out',
    ip_send (S fuel) stack (Chunked (mtu:=mtu) []) s dst protocol data data_len
    = Ok (Chunked fs, n) /\
    recv_all (length fs) stack' (Chunked (mtu:=mtu) fs) s' out
    = Ok (Chunked [], out', delivered fs) /\
    Z.of_nat (length (delivered fs)) = n /\
    (IP_HEADER_LEN + n <= mtu -> delivered fs = slice data 0 n) /\
    (mtu < IP_HEADER_LEN + n ->
     delivered fs !! Z.to_nat (mtu - IP_HEADER_LEN) = area !! Z.to_nat mtu).
Proof.
  intros Hok Hmtu n area fs Hfit Hfuel Hout. layout_facts.
  pose proof (area_ok_packet_image stack s dst protocol data data_len Hok) as Ha.
  cbv zeta in Ha. fold n area in Ha. pose proof Ha as (Hh & _ & Hn).
  pose proof (send_args_ok_min _ _ _ _ Hok) as (_ & _ & Hdata). fold n in Hdata.
  destruct (length_delivered_frames mtu _ _ _ Ha Hmtu Hfit) as [Hlen Hall].
  destruct (recv_all_chunked stack' s' fs out) as (out' & Hrecv & _).
  { eapply list.Forall_impl; [exact Hall|]. simpl. lia. }
  exists out'. split_and!; [|done..| |].
  - rewrite ip_send_frames by done. unfold send_chunked. cbv zeta.
    fold n area fs. by repeat case_decide; try lia.
  - intros Hone. unfold fs. rewrite frames_last, delivered_cons by done.
    unfold area, delivered. cbn. rewrite app_nil_r.
    apply slice_area_payload; lia.
  - intros Hmore. apply delivered_frames_second; (done || lia).
Qed.

End Receiving.

(** ** The transmitter of the specification on the same link *)

Section Spec.
Context `{P : IpParams} (mtu : Z).
Implicit Types (q : chunked mtu) (s : session) (hw header rest : list byte).

(** The frame the link takes of a header and a rest. *)
Lemma chunked_send_spec q s hw header rest :
  Z.of_nat (length header) < mtu ->
  let j := Z.min (mtu - Z.of_nat (length header)) (Z.of_nat (length rest)) in
  eth_send q s hw (header ++ rest)
  = (Z.of_nat (length header) + j,
     Chunked (in_flight q ++ [header ++ take (Z.to_nat j) rest])).
Proof.
  intros Hmtu j. cbn. unfold chunked_send. rewrite length_app.
  replace (Z.min mtu (Z.of_nat (length header + length rest)))
    with (Z.of_nat (length header) + j) by lia.
  by rewrite slice_app_prefix by lia.
Qed.

(** One iteration of the transmitter of the specification. *)
Lemma spec_loop_chunked_step fuel s hw q header rest :
  0 < Z.of_nat (length header) < mtu ->
  let j := Z.to_nat (Z.min (mtu - Z.of_nat (length header))
                       (Z.of_nat (length rest))) in
  let q' := Chunked (in_flight q ++ [header ++ take j rest]) in
  spec_loop (S fuel) s hw q header rest
  = if decide (drop j rest = []) then Ok (q', true)
    else spec_loop fuel s hw q' header (drop j rest).
Proof.
  intros Hmtu j q'. cbn [spec_loop]. rewrite chunked_send_spec by lia.
  cbv zeta. fold j. fold q'.
  destruct (Z.eqb_spec (Z.of_nat (length header)
              + Z.min (mtu - Z.of_nat (length header)) (Z.of_nat (length rest))) 0);
    [lia|].
  by rewrite Z.add_simpl_l.
Qed.

(** The transmitter of the specification delivers the payload: over a
    link that takes [mtu] bytes of each frame, more than the header, it
    succeeds, every frame it puts in flight begins with the header, and
    what follows the header in the frames, in order, is the payload. *)
Theorem spec_loop_chunked_delivers fuel s hw q header rest :
  0 < Z.of_nat (length header) < mtu -> (length rest <= fuel)%nat ->
  exists frames,
    spec_loop (S fuel) s hw q header rest
    = Ok (Chunked (in_flight q ++ frames), true) /\
    Forall (fun f => take (length header) f = header) frames /\
    concat (drop (length header) <$> frames) = rest.
Proof.
  intros Hmtu. revert q rest.
  induction fuel as [|fuel IH]; intros q rest Hfuel;
    rewrite spec_loop_chunked_step by done; cbv zeta;
    set (j := Z.to_nat _); case_decide as Hrest.
  1,3: exists [header ++ take j rest]; split_and!; [done| |];
    [by rewrite Forall_singleton, take_app_length|];
    cbn; rewrite drop_app_length, app_nil_r;
    by rewrite <-(take_drop j rest) at 2; rewrite Hrest, app_nil_r.
  - destruct rest; [by rewrite drop_nil in Hrest|simpl in Hfuel; lia].
  - destruct (IH (Chunked (in_flight q ++ [header ++ take j rest]))
                (drop j rest)) as (fs & -> & Hall & Hcat).
    { rewrite length_drop. destruct rest; [by rewrite drop_nil in Hrest|].
      unfold j. simpl in *. lia. }
    exists ((header ++ take j rest) :: fs). cbn [in_flight].
    rewrite <-app_assoc. split_and!; [done| |].
    + constructor; [by rewrite take_app_length|done].
    + cbn. by rewrite drop_app_length, Hcat, take_drop.
Qed.

(** The same for the whole function: what [send_spec] puts in flight is the
    clamped payload, whatever the number of frames it takes. *)
Theorem send_spec_delivers fuel q s dst protocol data data_len :
  send_args_ok s dst data data_len -> IP_HEADER_LEN < mtu ->
  let n := Z.min data_len IP_DATA_MAX_LEN in
  (Z.to_nat n <= fuel)%nat ->
  exists frames,
    send_spec (S fuel) q s dst protocol data data_len
    = Ok (Chunked (in_flight q ++ frames), n) /\
    Forall (fun f => take (Z.to_nat IP_HEADER_LEN) f = ip_header s dst protocol n)
      frames /\
    delivered frames = slice data 0 n.
Proof.
  intros Hok Hmtu n Hfuel. pose proof (send_args_ok_min _ _ _ _ Hok) as Hmin.
  fold n in Hmin. destruct Hmin as (Hs & Hd & Hn). layout_facts.
  pose proof (length_ip_header s dst protocol n Hs Hd) as Hh.
  destruct (spec_loop_chunked_delivers fuel s multicast_hw q
              (ip_header s dst protocol n) (slice data 0 n))
    as (frames & Hrun & Hall & Hcat); [lia|rewrite length_slice; lia|].
  exists frames. unfold send_spec, delivered. cbv zeta. fold n. rewrite Hrun.
  cbn [bind]. replace (Z.to_nat IP_HEADER_LEN)
    with (length (ip_header s dst protocol n)) by lia.
  done.
Qed.

End Spec.

(** ** The theorems at concrete inputs

    Eight bytes of payload over a link that takes 45 bytes of each frame:
    the receiver reads five bytes, then three. *)

Section Witnesses.

Definition example_eight : list byte :=
  [Byte.x01; Byte.x02; Byte.x03; Byte.x04; Byte.x05; Byte.x06; Byte.x07; Byte.x08].

Lemma send_recv_two_frames_witness :
  exists q1 q2 out1,
    @ip_send small_params (chunked 45) _ 2 example_stack (Chunked [])
      example_session example_dst Byte.x06 example_eight 8 = Ok (q1, 8) /\
    @delivered small_params (in_flight q1)
    = [Byte.x01; Byte.x02; Byte.x03; Byte.x04; Byte.x05;
       Byte.xee; Byte.xee; Byte.xee] /\
    @ip_recv small_params (chunked 45) _ [] q1 example_session
      (replicate 8 Byte.x00) = Ok (q2, 5, out1) /\
    out1 = [Byte.x01; Byte.x02; Byte.x03; Byte.x04; Byte.x05;
            Byte.x00; Byte.x00; Byte.x00] /\
    @ip_recv small_params (chunked 45) _ [] q2 example_session out1
    = Ok (Chunked [], 3,
          [Byte.xee; Byte.xee; Byte.xee] ++ drop 3 out1).
Proof.
  apply (@send_recv_two_frames small_params 45 0 example_stack [] []
           example_session example_session example_dst Byte.x06
           example_eight 8 (replicate 8 Byte.x00)).
  - by_decide.
  - simpl. lia.
  - simpl. lia.
  - simpl. lia.
  - simpl. lia.
Defined.

(** Twelve bytes of payload, five to a frame: three frames.  The first
    carries five bytes of the payload; the data area has then slid by 45
    bytes, past the payload, and the other two carry bytes of the sender's
    stack. *)
Lemma ip_send_chunked_frames_witness :
  @ip_send small_params (chunked 45) _ 3 example_stack (Chunked [])
    example_session example_dst Byte.x06 example_twelve 12
  = Ok (Chunked
          [example_header
           ++ [Byte.x01; Byte.x02; Byte.x03; Byte.x04; Byte.x05];
           example_header ++ replicate 5 Byte.xee;
           example_header ++ replicate 2 Byte.xee], 12).
Proof.
  rewrite (@ip_send_chunked_frames small_params 45 2 example_stack
             example_session example_dst Byte.x06 example_twelve 12 (Chunked [])).
  - vm_compute. reflexivity.
  - by_decide.
  - simpl. lia.
Defined.

Definition example_frames : list (list byte) :=
  @frames small_params 45 example_header
    (slice example_twelve 0 12 ++ @stack_tail small_params example_stack 12) 12.

Lemma send_recv_frames_witness :
  exists out',
    @ip_send small_params (chunked 45) _ 3 example_stack (Chunked [])
      example_session example_dst Byte.x06 example_twelve 12
    = Ok (Chunked example_frames, 12) /\
    @recv_all small_params (chunked 45) _ 3 [] (Chunked example_frames)
      example_session (replicate 12 Byte.x00)
    = Ok (Chunked [], out', @delivered small_params example_frames) /\
    Z.of_nat (length (@delivered small_params example_frames)) = 12 /\
    (40 + 12 <= 45 ->
     @delivered small_params example_frames = slice example_twelve 0 12) /\
    (45 < 40 + 12 ->
     @delivered small_params example_frames !! 5%nat
     = (slice example_twelve 0 12
        ++ @stack_tail small_params example_stack 12) !! 45%nat).
Proof.
  apply (@send_recv_frames small_params 45 2 example_stack [] example_session
           example_session example_dst Byte.x06 example_twelve 12
           (replicate 12 Byte.x00)).
  - by_decide.
  - simpl. lia.
  - simpl. lia.
  - vm_compute. lia.
  - simpl. lia.
Defined.

(** Twelve bytes of payload, five to a frame: three frames and twelve
    bytes in flight. *)
Lemma ip_send_chunked_count_witness :
  exists frames,
    @ip_send small_params (chunked 45) _ 13 example_stack (Chunked [])
      example_session example_dst Byte.x06 example_twelve 12
    = Ok (Chunked ([] ++ frames), 12) /\
    Forall (fun f => take 40 f
                     = @ip_header small_params example_session example_dst
                         Byte.x06 12) frames /\
    Z.of_nat (length (@delivered small_params frames)) = 12.
Proof.
  apply (@ip_send_chunked_count small_params 45 12 example_stack
           example_session example_dst Byte.x06 example_twelve 12 (Chunked [])).
  - by_decide.
  - simpl. lia.
  - simpl. lia.
  - simpl. lia.
Defined.

End Witnesses.
