(* ===== verification/Net.v ===== *)
(** * Net: the session life cycle and the dispatcher (src/src/net.c)

    [net_init], [net_free], [net_send] and [net_recv], over an interface
    [System] of what they call: the allocator, the hardware layer of [hw.h]
    and the transport of [tcp.h].  The interface observes the live heap
    blocks and the open link handles of a state, and [SystemLaws] says how
    each primitive changes them; the theorems on leaks are proved for every
    system that satisfies the laws.  The life cycle of sessions is the step
    relation [net_step], with the calls of [net_free] as [free_step]; its
    invariant is proved by induction on the steps. *)

From Stdlib Require Import String.
From stdpp Require Import strings gmap relations.
From S2P Require Import Prelude.
From S2P Require Import Layout.

(* [set_solver] clears hypotheses by names that may be gone *)
#[local] Set Warnings "-clear-no-such-hyp".

(** ** Constants of the headers *)

(** The enumerators of [protocol_t] (net.h) and the protocol numbers of
    [ip.h].  The enumerators are the labels of one [switch]: they differ. *)
Class ProtoIds : Type := {
  TCP : Z;
  UDP : Z;
  IP_PROTOCOL_TCP : Z;
  IP_PROTOCOL_UDP : Z;
  TCP_UDP_distinct : TCP <> UDP;
}.

(** The enumerators in declaration order and the IANA protocol numbers. *)
(** Enumerators declared with the protocol numbers as their values. *)
Definition matching_ids : ProtoIds := {|
  TCP := 6;
  UDP := 17;
  IP_PROTOCOL_TCP := 6;
  IP_PROTOCOL_UDP := 17;
  TCP_UDP_distinct := ltac:(done);
|}.

Definition iana_ids : ProtoIds := {|
  TCP := 0;
  UDP := 1;
  IP_PROTOCOL_TCP := 6;
  IP_PROTOCOL_UDP := 17;
  TCP_UDP_distinct := ltac:(done);
|}.

(** ** What the network layer calls *)

Class System (W : Type) : Type := {
  (** [malloc(sizeof(session_t))]: the pointer, 0 when it fails *)
  malloc : W -> Z * W;
  free : W -> Z -> W;
  (** [hw_init(interface)]: the handle, -1 when it fails *)
  hw_init : W -> string -> Z * W;
  (** [hw_if_addr(handle, interface, addr)]: the status, -1 when it fails,
      and the bytes written at [addr] *)
  hw_if_addr : W -> Z -> string -> Z * list byte * W;
  hw_free : W -> Z -> Z * W;
  tcp_send : W -> session -> list byte -> Z -> Z * W;
  (** [tcp_recv(session, buffer, buffer_len)]: the count and the buffer *)
  tcp_recv : W -> session -> list byte -> Z -> Z * list byte * W;
  (** the heap blocks that are live and the link handles that are open *)
  allocated : W -> gset Z;
  opened : W -> gset Z;
}.

(** Two states hold the same resources. *)
Definition same_resources {W : Type} `{System W} (w w' : W) : Prop :=
  allocated w' = allocated w /\ opened w' = opened w.

#[export] Instance same_resources_equiv {W : Type} `{System W} :
  Equivalence (same_resources (W:=W)).
Proof.
  unfold same_resources. split.
  - by intros w.
  - by intros w w' [-> ->].
  - by intros w1 w2 w3 [E1 E2] [-> ->].
Qed.

Class SystemLaws (W : Type) `{System W} : Prop := {
  malloc_null w w' : malloc w = (0, w') -> same_resources w w';
  malloc_block w p w' :
    malloc w = (p, w') -> p <> 0 ->
    (p ∉ allocated w) /\ allocated w' = {[p]} ∪ allocated w /\ opened w' = opened w;
  free_block w p :
    allocated (free w p) = allocated w ∖ {[p]} /\ opened (free w p) = opened w;
  hw_init_fail w iface w' : hw_init w iface = (-1, w') -> same_resources w w';
  hw_init_handle w iface h w' :
    hw_init w iface = (h, w') -> h <> -1 ->
    (h ∉ opened w) /\ opened w' = {[h]} ∪ opened w /\ allocated w' = allocated w;
  hw_if_addr_same w h iface rc addr w' :
    hw_if_addr w h iface = (rc, addr, w') -> same_resources w w';
  hw_free_handle w h err w' :
    hw_free w h = (err, w') ->
    opened w' = opened w ∖ {[h]} /\ allocated w' = allocated w;
  tcp_send_same w s data n r w' :
    tcp_send w s data n = (r, w') -> same_resources w w';
  tcp_recv_same w s buf n r buf' w' :
    tcp_recv w s buf n = (r, buf', w') -> same_resources w w';
}.

(** ** The code *)

Section Code.
Context `{P : IpParams} `{I : ProtoIds} {W : Type} `{System W}.

(** [int net_free(session_t *session)]: the session is the block at [ptr]
    whose field [session_id] is [id]. *)
Definition net_free (w : W) (ptr id : Z) : Z * W :=
  let '(err, w) := hw_free w id in
  (err, free w ptr).

(** [session_t *net_init(interface, src_ip, port, protocol)]: the pointer
    returned ([None] for the null pointer) with the session it points to. *)
Definition net_init (w : W) (interface : string) (src_ip : list byte)
    (port : Z) (protocol : Z) : result (option (Z * session) * W) :=
  let '(s, w) := malloc w in
  if s =? 0 then Ok (None, w)
  else
    let '(id, w) := hw_init w interface in
    if id =? -1 then Ok (None, free w s)
    else
      let '(rc, addr, w) := hw_if_addr w id interface in
      if rc =? -1 then Ok (None, (net_free w s id).2)
      else
        let* ip := load src_ip 0 IP_ADDR_LEN in
        let port := u16 port in
        if protocol =? TCP
        then Ok (Some (s, Session id addr ip port IP_PROTOCOL_TCP), w)
        else if protocol =? UDP
        then Ok (Some (s, Session id addr ip port IP_PROTOCOL_UDP), w)
        else Ok (None, (net_free w s id).2).

(** [size_t net_send(session, data, data_len)]. *)
Definition net_send (w : W) (s : session) (data : list byte) (data_len : Z)
  : Z * W :=
  if protocol s =? TCP then tcp_send w s data data_len
  else if protocol s =? UDP then (0, w)
  else (0, w).

(** [size_t net_recv(session, buffer, buffer_len)]. *)
Definition net_recv (w : W) (s : session) (buffer : list byte) (buffer_len : Z)
  : Z * list byte * W :=
  if protocol s =? TCP then tcp_recv w s buffer buffer_len
  else if protocol s =? UDP then (0, buffer, w)
  else (0, buffer, w).

(** What the fields of a session hold once [net_init] has filled them: an
    address of [IP_ADDR_LEN] bytes, a 16-bit port, a link handle that is not
    the error value, one of the two protocol numbers. *)
Definition session_wf (s : session) : Prop :=
  Z.of_nat (length (src_ip s)) = IP_ADDR_LEN /\
  0 <= port s < 2 ^ 16 /\
  session_id s <> -1 /\
  (protocol s = IP_PROTOCOL_TCP \/ protocol s = IP_PROTOCOL_UDP).

(** ** The life cycle *)

(** The sessions a program holds, each with its pointer, and the state of
    the system. *)
Record net_state : Type := NetState {
  world : W;
  sessions : list (Z * session);
}.

Inductive net_step : net_state -> net_state -> Prop :=
| step_init st iface src_ip port protocol w' p s :
    net_init (world st) iface src_ip port protocol = Ok (Some (p, s), w') ->
    net_step st (NetState w' ((p, s) :: sessions st))
| step_init_failed st iface src_ip port protocol w' :
    net_init (world st) iface src_ip port protocol = Ok (None, w') ->
    net_step st (NetState w' (sessions st))
| step_free st i p s err w' :
    sessions st !! i = Some (p, s) ->
    net_free (world st) p (session_id s) = (err, w') ->
    net_step st (NetState w' (delete i (sessions st)))
| step_send st i p s data data_len r w' :
    sessions st !! i = Some (p, s) ->
    net_send (world st) s data data_len = (r, w') ->
    net_step st (NetState w' (sessions st))
| step_recv st i p s buffer buffer_len r buffer' w' :
    sessions st !! i = Some (p, s) ->
    net_recv (world st) s buffer buffer_len = (r, buffer', w') ->
    net_step st (NetState w' (sessions st)).

(** The steps of the life cycle that are calls of [net_free]. *)
Inductive free_step : net_state -> net_state -> Prop :=
| free_step_intro st i p s err w' :
    sessions st !! i = Some (p, s) ->
    net_free (world st) p (session_id s) = (err, w') ->
    free_step st (NetState w' (delete i (sessions st))).

(** Every session held is well formed and is not at the null pointer. *)
Definition sessions_wf (st : net_state) : Prop :=
  Forall (fun ps => ps.1 <> 0 /\ session_wf ps.2) (sessions st).

(** The resources of a state are those of the initial state [w0] and one
    heap block and one link handle per session held, all different. *)
Definition net_inv (w0 : W) (st : net_state) : Prop :=
  let ptrs := (sessions st).*1 in
  let ids := session_id <$> (sessions st).*2 in
  NoDup ptrs /\ NoDup ids /\
  (forall p, p ∈ ptrs -> p ∉ allocated w0) /\
  (forall h, h ∈ ids -> h ∉ opened w0) /\
  allocated (world st) = list_to_set ptrs ∪ allocated w0 /\
  opened (world st) = list_to_set ids ∪ opened w0.

End Code.

Arguments net_state : clear implicits.

(** ** A system to run the code on *)

(** A heap of [sim_capacity] blocks, the interfaces the hardware knows with
    the address of those that have one, and what the transport was given. *)
Record sim : Type := Sim {
  sim_heap : gset Z;
  sim_links : gset Z;
  sim_capacity : nat;
  sim_ifaces : list string;
  sim_addrs : gmap string (list byte);
  sim_sent : list (list byte);
}.

Definition set_heap (w : sim) (X : gset Z) : sim :=
  Sim X (sim_links w) (sim_capacity w) (sim_ifaces w) (sim_addrs w) (sim_sent w).

Definition set_links (w : sim) (X : gset Z) : sim :=
  Sim (sim_heap w) X (sim_capacity w) (sim_ifaces w) (sim_addrs w) (sim_sent w).

Definition set_sent (w : sim) (l : list (list byte)) : sim :=
  Sim (sim_heap w) (sim_links w) (sim_capacity w) (sim_ifaces w) (sim_addrs w) l.

(** A number above [lo] and above every element of [X]. *)
Definition next_above (X : gset Z) (lo : Z) : Z :=
  Z.succ (set_fold Z.max lo X).

Definition sim_malloc (w : sim) : Z * sim :=
  if decide (size (sim_heap w) < sim_capacity w)%nat
  then let p := next_above (sim_heap w) 0 in (p, set_heap w ({[p]} ∪ sim_heap w))
  else (0, w).

Definition sim_free (w : sim) (p : Z) : sim :=
  set_heap w (sim_heap w ∖ {[p]}).

Definition sim_hw_init (w : sim) (iface : string) : Z * sim :=
  if decide (iface ∈ sim_ifaces w)
  then let h := next_above (sim_links w) (-1) in
       (h, set_links w ({[h]} ∪ sim_links w))
  else (-1, w).

Definition sim_hw_if_addr (w : sim) (h : Z) (iface : string)
  : Z * list byte * sim :=
  match sim_addrs w !! iface with
  | Some a => (0, a, w)
  | None => (-1, [], w)
  end.

Definition sim_hw_free (w : sim) (h : Z) : Z * sim :=
  (if decide (h ∈ sim_links w) then 0 else -1, set_links w (sim_links w ∖ {[h]})).

Definition sim_tcp_send (w : sim) (s : session) (data : list byte) (n : Z)
  : Z * sim :=
  (n, set_sent w (slice data 0 n :: sim_sent w)).

Definition sim_tcp_recv (w : sim) (s : session) (buf : list byte) (n : Z)
  : Z * list byte * sim :=
  (0, buf, w).

#[export] Instance sim_system : System sim := {|
  malloc := sim_malloc;
  free := sim_free;
  hw_init := sim_hw_init;
  hw_if_addr := sim_hw_if_addr;
  hw_free := sim_hw_free;
  tcp_send := sim_tcp_send;
  tcp_recv := sim_tcp_recv;
  allocated := sim_heap;
  opened := sim_links;
|}.

(** One interface with an address, one without, room for two sessions. *)
Definition example_sim : sim := {|
  sim_heap := ∅;
  sim_links := ∅;
  sim_capacity := 2;
  sim_ifaces := ["eth0"; "tap0"]%string;
  sim_addrs := {["eth0"%string := [Byte.x02; Byte.x00; Byte.x00; Byte.x00; Byte.x00; Byte.x01]]};
  sim_sent := [];
|}.

(** [example_sim] after [net_init] on "eth0" for TCP, and the session made. *)
Definition example_open : sim :=
  set_links (set_heap example_sim {[1]}) {[0]}.

Definition example_tcp_session : session := {|
  session_id := 0;
  src_addr := [Byte.x02; Byte.x00; Byte.x00; Byte.x00; Byte.x00; Byte.x01];
  src_ip := example_src;
  port := 80;
  protocol := 6;
|}.

(** ** Lemmas on sets of pointers and handles *)

Lemma list_to_set_delete (l : list Z) (i : nat) (x : Z) :
  NoDup l -> l !! i = Some x ->
  list_to_set (C:=gset Z) (delete i l) = list_to_set l ∖ {[x]}.
Proof.
  intros Hnd Hi. pose proof (not_elem_of_delete l i x Hnd Hi) as Hx.
  apply set_eq. intros y. rewrite elem_of_difference, !elem_of_list_to_set.
  rewrite elem_of_singleton. split.
  - intros Hy. split; [by eapply elem_of_delete|by intros ->].
  - intros [Hy Hne]. by eapply elem_of_delete_ne.
Qed.

Lemma NoDup_delete {A : Type} (l : list A) (i : nat) :
  NoDup l -> NoDup (delete i l).
Proof. intros Hnd. exact (sublist_NoDup _ _ Hnd (sublist_delete l i)). Qed.

Lemma next_above_spec (X : gset Z) (lo : Z) :
  lo < next_above X lo /\ next_above X lo ∉ X.
Proof.
  unfold next_above.
  enough (lo <= set_fold Z.max lo X /\ forall x, x ∈ X -> x <= set_fold Z.max lo X)
    as [Hlo Hall].
  { split; [lia|]. intros Hin%Hall. lia. }
  apply (set_fold_ind_L (fun r X => lo <= r /\ forall x, x ∈ X -> x <= r)).
  - split; [lia | set_solver].
  - intros x Y r _ [Hlo Hall]. split; [lia|].
    intros y [->%elem_of_singleton | Hy%Hall]%elem_of_union; lia.
Qed.

#[export] Instance sim_laws : SystemLaws sim.
Proof.
  split; unfold same_resources; cbn;
    unfold sim_malloc, sim_free, sim_hw_init, sim_hw_if_addr, sim_hw_free,
      sim_tcp_send, sim_tcp_recv; intros; repeat case_decide; repeat case_match;
    simplify_eq/=; try done;
    try match goal with
        | |- context [next_above ?X ?lo] =>
            pose proof (next_above_spec X lo) as [? ?]; try done; lia
        end.
Qed.

(** ** The session layer over any lawful system *)

Section Theory.
Context `{P : IpParams} `{I : ProtoIds} {W : Type} `{SystemLaws W}.
Implicit Types (w : W) (s : session) (st : net_state W).

#[local] Hint Constructors rtc : core.

Lemma net_free_resources w p h err w' :
  net_free w p h = (err, w') ->
  allocated w' = allocated w ∖ {[p]} /\ opened w' = opened w ∖ {[h]}.
Proof.
  unfold net_free. destruct (hw_free w h) as [e w1] eqn:Hf. intros [= <- <-].
  apply hw_free_handle in Hf as [Ho Ha].
  destruct (free_block w1 p) as [Ha' Ho']. split; congruence.
Qed.

(** What [net_init] has done when it returns: nothing is held when it
    returns the null pointer; a block and a handle, both new, when it
    returns a session. *)
Lemma net_init_resources w iface ip port proto o w' :
  net_init w iface ip port proto = Ok (o, w') ->
  match o with
  | None => same_resources w w'
  | Some (p, s) =>
      p <> 0 /\ session_id s <> -1 /\
      (p ∉ allocated w) /\ (session_id s ∉ opened w) /\
      allocated w' = {[p]} ∪ allocated w /\
      opened w' = {[session_id s]} ∪ opened w
  end.
Proof.
  unfold net_init, same_resources.
  destruct (malloc w) as [p w1] eqn:Hm.
  destruct (Z.eqb_spec p 0) as [-> | Hp0].
  { intros [= <- <-]. by apply malloc_null in Hm. }
  apply malloc_block in Hm as (Hp & Ha1 & Ho1); [|done].
  destruct (hw_init w1 iface) as [h w2] eqn:Hh.
  destruct (Z.eqb_spec h (-1)) as [-> | Hh1].
  { intros [= <- <-]. apply hw_init_fail in Hh as [Ha2 Ho2].
    destruct (free_block w2 p) as [-> ->]. rewrite Ha2, Ho2, Ha1, Ho1. set_solver. }
  apply hw_init_handle in Hh as (Hh & Ho2 & Ha2); [|done].
  destruct (hw_if_addr w2 h iface) as [[rc addr] w3] eqn:Hi.
  apply hw_if_addr_same in Hi as [Ha3 Ho3].
  assert (Hfree : forall w4, (net_free w3 p h).2 = w4 ->
            allocated w4 = allocated w /\ opened w4 = opened w).
  { intros w4 Hw4. destruct (net_free w3 p h) as [e w5] eqn:Hf.
    apply net_free_resources in Hf as [Ha5 Ho5]. cbn in Hw4. subst w5.
    rewrite Ha5, Ho5, Ha3, Ho3, Ha2, Ho2, Ha1, Ho1. set_solver. }
  destruct (Z.eqb_spec rc (-1)) as [-> | Hrc]. { intros [= <- <-]. by apply Hfree. }
  destruct (load ip 0 IP_ADDR_LEN) as [bs|e]; [cbn|done].
  destruct (Z.eqb_spec proto TCP); [|destruct (Z.eqb_spec proto UDP)];
    intros [= <- <-]; cbn; try by apply Hfree.
  all: rewrite Ha3, Ho3, Ha2, Ho2, Ha1, Ho1; set_solver.
Qed.

Lemma net_init_fields w iface ip port proto p s w' :
  net_init w iface ip port proto = Ok (Some (p, s), w') ->
  src_ip s = slice ip 0 IP_ADDR_LEN /\ Layout.port s = u16 port /\
  (proto = TCP /\ protocol s = IP_PROTOCOL_TCP \/
   proto <> TCP /\ proto = UDP /\ protocol s = IP_PROTOCOL_UDP).
Proof.
  unfold net_init. destruct (malloc w) as [q w1].
  destruct (q =? 0); [done|]. destruct (hw_init w1 iface) as [h w2].
  destruct (h =? -1); [done|].
  destruct (hw_if_addr w2 h iface) as [[rc addr] w3]. destruct (rc =? -1); [done|].
  destruct (load ip 0 IP_ADDR_LEN) as [bs|e] eqn:Hl; [cbn|done].
  apply load_Ok_inv in Hl as [-> _].
  destruct (Z.eqb_spec proto TCP); [|destruct (Z.eqb_spec proto UDP)];
    intros [= <- <- <-]; cbn; auto 10.
Qed.

(** The calls [net_init] has made when it returns a session, in their
    order, and where their results went. *)
Lemma net_init_calls w iface ip port proto p s w' :
  net_init w iface ip port proto = Ok (Some (p, s), w') ->
  exists w1 w2 rc,
    malloc w = (p, w1) /\ hw_init w1 iface = (session_id s, w2) /\
    hw_if_addr w2 (session_id s) iface = (rc, src_addr s, w') /\ rc <> -1.
Proof.
  unfold net_init. destruct (malloc w) as [q w1] eqn:Hm.
  destruct (q =? 0); [done|]. destruct (hw_init w1 iface) as [h w2] eqn:Hh.
  destruct (h =? -1); [done|].
  destruct (hw_if_addr w2 h iface) as [[rc addr] w3] eqn:Ha.
  destruct (Z.eqb_spec rc (-1)); [done|].
  destruct (load ip 0 IP_ADDR_LEN) as [bs|e]; [cbn|done].
  destruct (proto =? TCP); [|destruct (proto =? UDP)];
    intros [= <- <- <-]; by exists w1, w2, rc.
Qed.

Lemma net_send_resources w s data n r w' :
  net_send w s data n = (r, w') -> same_resources w w'.
Proof.
  unfold net_send. destruct (protocol s =? TCP); [apply tcp_send_same|].
  by destruct (protocol s =? UDP); intros [= <- <-].
Qed.

Lemma net_recv_resources w s buf n r buf' w' :
  net_recv w s buf n = (r, buf', w') -> same_resources w w'.
Proof.
  unfold net_recv. destruct (protocol s =? TCP); [apply tcp_recv_same|].
  by destruct (protocol s =? UDP); intros [= <- <- <-].
Qed.

(** *** The invariant, one lemma per kind of step *)

Lemma net_inv_same w0 st w' :
  net_inv w0 st -> same_resources (world st) w' ->
  net_inv w0 (NetState w' (sessions st)).
Proof. unfold net_inv. cbn. by intros (?&?&?&?&?&?) [-> ->]. Qed.

Lemma net_inv_init w0 st p s w' :
  net_inv w0 st ->
  p ∉ allocated (world st) -> session_id s ∉ opened (world st) ->
  allocated w' = {[p]} ∪ allocated (world st) ->
  opened w' = {[session_id s]} ∪ opened (world st) ->
  net_inv w0 (NetState w' ((p, s) :: sessions st)).
Proof.
  unfold net_inv. cbn. intros (Hnp & Hni & Hp0 & Hi0 & Ha & Ho) Hp Hs -> ->.
  rewrite Ha in Hp |- *. rewrite Ho in Hs |- *.
  rewrite !list.NoDup_cons.
  split_and!; [set_solver.. | | | set_solver | set_solver].
  - intros q [-> | Hq]%elem_of_cons; [set_solver | by apply Hp0].
  - intros q [-> | Hq]%elem_of_cons; [set_solver | by apply Hi0].
Qed.

Lemma net_inv_free w0 st i p s w' :
  net_inv w0 st -> sessions st !! i = Some (p, s) ->
  allocated w' = allocated (world st) ∖ {[p]} ->
  opened w' = opened (world st) ∖ {[session_id s]} ->
  net_inv w0 (NetState w' (delete i (sessions st))).
Proof.
  unfold net_inv. cbn. intros (Hnp & Hni & Hp0 & Hi0 & Ha & Ho) Hi -> ->.
  assert (Hpi : (sessions st).*1 !! i = Some p) by (by rewrite list_lookup_fmap, Hi).
  assert (Hsi : (session_id <$> (sessions st).*2) !! i = Some (session_id s))
    by (by rewrite !list_lookup_fmap, Hi).
  rewrite !list_fmap_delete, Ha, Ho.
  rewrite (list_to_set_delete _ i p), (list_to_set_delete _ i (session_id s)) by done.
  pose proof (Hp0 p (list_elem_of_lookup_2 _ _ _ Hpi)).
  pose proof (Hi0 _ (list_elem_of_lookup_2 _ _ _ Hsi)).
  split_and!; [by apply NoDup_delete.. | | | set_solver | set_solver].
  - intros q Hq. apply Hp0. eapply elem_of_sublist; [done | apply sublist_delete].
  - intros q Hq. apply Hi0. eapply elem_of_sublist; [done | apply sublist_delete].
Qed.

Lemma net_inv_step w0 st st' :
  net_inv w0 st -> net_step st st' -> net_inv w0 st'.
Proof.
  intros Hinv Hstep.
  destruct Hstep as [st iface ip port proto w' p s Hi | st iface ip port proto w' Hi
                    | st i p s err w' Hl Hf | st i p s data n r w' Hl Hs
                    | st i p s buf n r buf' w' Hl Hr].
  - apply net_init_resources in Hi as (_ & _ & ? & ? & ? & ?).
    by apply net_inv_init.
  - apply net_init_resources in Hi. by apply net_inv_same.
  - apply net_free_resources in Hf as [? ?]. by eapply net_inv_free.
  - apply net_send_resources in Hs. by apply net_inv_same.
  - apply net_recv_resources in Hr. by apply net_inv_same.
Qed.

Lemma net_inv_initial w0 : net_inv w0 (NetState w0 []).
Proof.
  unfold net_inv. cbn. split_and!; try apply list.NoDup_nil; set_solver.
Qed.

Lemma net_inv_run w0 st st' :
  net_inv w0 st -> rtc net_step st st' -> net_inv w0 st'.
Proof. induction 2; eauto using net_inv_step. Qed.

(** A state that holds no session holds the resources of the start. *)
Lemma net_inv_closed w0 st :
  net_inv w0 st -> sessions st = [] -> same_resources w0 (world st).
Proof.
  intros (_ & _ & _ & _ & Ha & Ho) Hnil.
  unfold same_resources. rewrite Ha, Ho, Hnil. set_solver.
Qed.

Lemma free_step_net_step st st' : free_step st st' -> net_step st st'.
Proof. intros [st0 i p s err w' Hi Hf]. by eapply step_free. Qed.

Lemma free_steps_net_steps n st st' :
  nsteps free_step n st st' -> rtc net_step st st'.
Proof.
  intros Hn%rtc_nsteps_2. eapply rtc_subrel; [|done]. exact free_step_net_step.
Qed.

(** [net_free] of the sessions held, one after the other: one call for
    each. *)
Lemma net_free_all w ss :
  exists w', nsteps free_step (length ss) (NetState w ss) (NetState w' []).
Proof.
  revert w. induction ss as [|[p s] ss IH]; intros w; [exists w; constructor|].
  destruct (net_free w p (session_id s)) as [err w1] eqn:Hf.
  destruct (IH w1) as [w' Hrun]. exists w'.
  eapply nsteps_l; [|exact Hrun].
  exact (free_step_intro (NetState w ((p, s) :: ss)) 0 p s err w1 eq_refl Hf).
Qed.

(** *** Well-formed sessions *)

Lemma net_init_session_wf w iface ip port proto p s w' :
  net_init w iface ip port proto = Ok (Some (p, s), w') ->
  p <> 0 /\ session_wf s.
Proof.
  intros Hi. pose proof (net_init_resources _ _ _ _ _ _ _ Hi) as (? & ? & _).
  pose proof Hi as (Hip & Hport & Hproto)%net_init_fields.
  assert (Hlen : in_bounds 0 IP_ADDR_LEN (length ip) = true).
  { revert Hi. unfold net_init. destruct (malloc w) as [q w1].
    destruct (q =? 0); [done|]. destruct (hw_init w1 iface) as [h w2].
    destruct (h =? -1); [done|].
    destruct (hw_if_addr w2 h iface) as [[rc addr] w3]. destruct (rc =? -1); [done|].
    destruct (load ip 0 IP_ADDR_LEN) as [bs|e] eqn:Hl; [|done].
    by apply load_Ok_inv in Hl as [_ ?]. }
  apply in_bounds_spec in Hlen. layout_facts.
  split; [done|]. unfold session_wf. rewrite Hip, Hport.
  split_and!; [rewrite length_slice; lia|apply u16_range..|done|tauto].
Qed.

Lemma sessions_wf_step st st' :
  sessions_wf st -> net_step st st' -> sessions_wf st'.
Proof.
  unfold sessions_wf. intros Hwf Hstep.
  destruct Hstep as [st iface ip port proto w' p s Hi | | st i | | ]; cbn; try done.
  - constructor; [|done]. by eapply net_init_session_wf.
  - rewrite delete_take_drop. apply Forall_app.
    split; [by apply Forall_take|by apply Forall_drop].
Qed.

Lemma sessions_wf_initial w0 : sessions_wf (NetState w0 []).
Proof. by constructor. Qed.

Lemma sessions_wf_run st st' :
  sessions_wf st -> rtc net_step st st' -> sessions_wf st'.
Proof. induction 2; eauto using sessions_wf_step. Qed.

(** ** The properties of the session layer *)

(** C11: [net_init] leaks nothing when it fails: whenever it returns the null
    pointer, on whichever path, the live heap blocks and the open link
    handles are those it was entered with. *)
Theorem net_init_no_leak w iface ip port proto w' :
  net_init w iface ip port proto = Ok (None, w') -> same_resources w w'.
Proof. intros Hi. exact (net_init_resources _ _ _ _ _ _ _ Hi). Qed.

(** C27: the session [net_init] returns.  When [net_init] returns a
    session it has called [malloc], [hw_init] and [hw_if_addr] in that order
    and nothing after them; the pointer is the block of [malloc], not null
    and not live before; the session holds the handle of [hw_init], not -1
    and not open before, the hardware address [hw_if_addr] wrote, the first
    IP_ADDR_LEN bytes of the source address, the port, and the protocol
    number of the enumerator asked for; one block and one handle more are
    held than before. *)
Theorem net_init_session w iface ip port proto p s w' :
  net_init w iface ip port proto = Ok (Some (p, s), w') ->
  (exists w1 w2 rc,
     malloc w = (p, w1) /\ hw_init w1 iface = (session_id s, w2) /\
     hw_if_addr w2 (session_id s) iface = (rc, src_addr s, w') /\ rc <> -1) /\
  (p <> 0 /\ (p ∉ allocated w) /\ allocated w' = {[p]} ∪ allocated w) /\
  (session_id s <> -1 /\ (session_id s ∉ opened w) /\
   opened w' = {[session_id s]} ∪ opened w) /\
  src_ip s = slice ip 0 IP_ADDR_LEN /\ Layout.port s = u16 port /\
  (proto = TCP /\ protocol s = IP_PROTOCOL_TCP \/
   proto = UDP /\ protocol s = IP_PROTOCOL_UDP).
Proof.
  intros Hi. pose proof (net_init_resources _ _ _ _ _ _ _ Hi) as (?&?&?&?&?&?).
  pose proof (net_init_calls _ _ _ _ _ _ _ _ Hi) as Hcalls.
  apply net_init_fields in Hi as (? & ? & Hp). split_and!; try done.
  destruct Hp as [[? ?] | (_ & ? & ?)]; auto.
Qed.

(** C38: asked for a protocol that is neither TCP nor UDP, with a source
    address of at least IP_ADDR_LEN bytes, [net_init] returns the null
    pointer and holds nothing more than before. *)
Theorem net_init_unsupported w iface ip port proto :
  proto <> TCP -> proto <> UDP -> IP_ADDR_LEN <= Z.of_nat (length ip) ->
  exists w', net_init w iface ip port proto = Ok (None, w') /\ same_resources w w'.
Proof.
  intros Ht Hu Hlen.
  assert (exists w', net_init w iface ip port proto = Ok (None, w')) as [w' Hi].
  { unfold net_init. destruct (malloc w) as [q w1].
    destruct (q =? 0); [by eexists|]. destruct (hw_init w1 iface) as [h w2].
    destruct (h =? -1); [by eexists|].
    destruct (hw_if_addr w2 h iface) as [[rc addr] w3].
    destruct (rc =? -1); [by eexists|].
    rewrite load_ok by (layout_facts; lia). cbn.
    destruct (Z.eqb_spec proto TCP); [done|].
    destruct (Z.eqb_spec proto UDP); [done|]. by eexists. }
  exists w'. split; [done|]. exact (net_init_resources _ _ _ _ _ _ _ Hi).
Qed.

(** [net_free] of a session that [net_init] returned gives back what
    [net_init] took: the block and the handle. *)
Theorem net_init_free_roundtrip w iface ip port proto p s w' err w'' :
  net_init w iface ip port proto = Ok (Some (p, s), w') ->
  net_free w' p (session_id s) = (err, w'') ->
  same_resources w w''.
Proof.
  intros (_ & _ & ? & ? & Ha & Ho)%net_init_resources [Ha' Ho']%net_free_resources.
  unfold same_resources. rewrite Ha', Ho', Ha, Ho. set_solver.
Qed.

(** C22: [net_send] on a session that [net_init] made for TCP reaches
    [tcp_send] exactly when the protocol number IP_PROTOCOL_TCP that
    [net_init] stored equals the enumerator TCP that [net_send] compares it
    with; otherwise it returns 0 and does nothing. *)
Theorem net_send_tcp_session w iface ip port p s w' w2 data n :
  net_init w iface ip port TCP = Ok (Some (p, s), w') ->
  net_send w2 s data n =
    if IP_PROTOCOL_TCP =? TCP then tcp_send w2 s data n else (0, w2).
Proof.
  intros (_ & _ & [[_ Hp] | (Hne & _)])%net_init_fields; [|done].
  unfold net_send. rewrite Hp.
  by destruct (IP_PROTOCOL_TCP =? TCP), (IP_PROTOCOL_TCP =? UDP).
Qed.

(** A session whose protocol is not the enumerator TCP is served by no
    transport: [net_send] and [net_recv] return 0 and leave the system and
    the buffer as they were. *)
Theorem net_dispatch_stub w s data n :
  protocol s <> TCP ->
  net_send w s data n = (0, w) /\ net_recv w s data n = (0, data, w).
Proof.
  intros Hne%Z.eqb_neq. unfold net_send, net_recv. rewrite Hne.
  by destruct (protocol s =? UDP).
Qed.

(** C18: in every state reached from a state that holds no session, the
    pointers of the sessions held differ, so do their link handles, and the
    live blocks and open handles are those of the initial state and those
    of the sessions held. *)
Theorem net_inv_reachable w0 st :
  rtc net_step (NetState w0 []) st -> net_inv w0 st.
Proof. apply net_inv_run, net_inv_initial. Qed.

(** Once every session has been freed, whatever was opened, sent or
    received in between, the system holds the resources it started with. *)
Theorem net_closed_no_leak w0 st :
  rtc net_step (NetState w0 []) st -> sessions st = [] ->
  same_resources w0 (world st).
Proof.
  intros Hrun. by apply net_inv_closed, (net_inv_run w0 _ st (net_inv_initial w0)).
Qed.

(** C29: every session can be released.  From every state reached by calls
    of [net_init], [net_free], [net_send] and [net_recv], calls of
    [net_free] alone, one for each session held, lead to a state that holds
    no session and the resources the system started with: [net_free] has no
    failing path. *)
Theorem net_release_all w0 st :
  rtc net_step (NetState w0 []) st ->
  exists st', nsteps free_step (length (sessions st)) st st' /\
    rtc net_step st st' /\
    sessions st' = [] /\ same_resources w0 (world st').
Proof.
  intros Hrun. destruct st as [w ss].
  destruct (net_free_all w ss) as [w' Hfree].
  pose proof (free_steps_net_steps _ _ _ Hfree) as Hsteps.
  exists (NetState w' []). split_and!; [done..|].
  apply (net_inv_closed w0 (NetState w' [])); [|done].
  eapply net_inv_run; [apply net_inv_initial|by etrans].
Qed.

(** C25: every session a caller holds is well formed.  In every state reached
    by calls of [net_init], [net_free], [net_send] and [net_recv], each
    session held has a pointer that is not null, a source address of
    [IP_ADDR_LEN] bytes, a port that fits 16 bits, a link handle that is not
    -1 and one of the two protocol numbers: the fields are those that
    [ip_send] and [ip_chksum] read without a check. *)
Theorem net_sessions_wf w0 st :
  rtc net_step (NetState w0 []) st -> sessions_wf st.
Proof. apply sessions_wf_run, sessions_wf_initial. Qed.

End Theory.

(** ** The theorems at concrete inputs *)

Section Witnesses.

Lemma example_init ids :
  net_init (P:=small_params) (I:=ids) example_sim "eth0" example_src 80 (@TCP ids)
  = Ok (Some (1, Session 0 (src_addr example_tcp_session) example_src 80
                   (@IP_PROTOCOL_TCP ids)), example_open).
Proof.
  unfold net_init. cbn [malloc hw_init hw_if_addr sim_system].
  change (sim_malloc example_sim) with (1, set_heap example_sim {[1]}).
  change (sim_hw_init (set_heap example_sim {[1]}) "eth0") with (0, example_open).
  by rewrite Z.eqb_refl.
Qed.

Lemma net_init_no_leak_witness :
  net_init (P:=small_params) (I:=iana_ids) example_sim "tap0" example_src 80 0 = Ok (None, example_sim) /\
  same_resources example_sim example_sim.
Proof.
  split; [by vm_compute|].
  apply (net_init_no_leak (P:=small_params) (I:=iana_ids)
           example_sim "tap0" example_src 80 0). by vm_compute.
Defined.

Lemma net_init_session_witness :
  (exists w1 w2 rc,
     malloc example_sim = (1, w1) /\ hw_init w1 "eth0" = (0, w2) /\
     hw_if_addr w2 0 "eth0" = (rc, src_addr example_tcp_session, example_open) /\
     rc <> -1) /\
  allocated example_open = {[1]} ∪ allocated example_sim /\
  opened example_open = {[0]} ∪ opened example_sim.
Proof.
  destruct (net_init_session (P:=small_params) (I:=iana_ids) example_sim "eth0"
              example_src 80 0 1 example_tcp_session example_open (example_init iana_ids))
    as (Hcalls & (_ & _ & Ha) & (_ & _ & Ho) & _).
  exact (conj Hcalls (conj Ha Ho)).
Defined.

Lemma net_init_unsupported_witness :
  exists w', net_init (P:=small_params) (I:=iana_ids) example_sim "eth0" example_src 80 7
             = Ok (None, w') /\
             same_resources example_sim w'.
Proof.
  apply (net_init_unsupported (P:=small_params) (I:=iana_ids)); [done | done |].
  simpl. lia.
Defined.

Lemma net_init_free_roundtrip_witness :
  same_resources example_sim example_sim.
Proof.
  apply (net_init_free_roundtrip (P:=small_params) (I:=iana_ids) example_sim "eth0"
           example_src 80 0 1 example_tcp_session example_open 0 example_sim
           (example_init iana_ids)).
  by vm_compute.
Defined.

Lemma net_send_tcp_session_witness :
  net_send (I:=iana_ids) example_open example_tcp_session [Byte.x01] 1
  = (0, example_open).
Proof.
  exact (net_send_tcp_session (P:=small_params) (I:=iana_ids) example_sim "eth0"
           example_src 80 1 example_tcp_session example_open example_open
           [Byte.x01] 1 (example_init iana_ids)).
Defined.

Lemma net_dispatch_stub_witness :
  net_send (I:=iana_ids) example_open example_tcp_session [Byte.x01] 1
    = (0, example_open) /\
  net_recv (I:=iana_ids) example_open example_tcp_session [Byte.x01] 1
    = (0, [Byte.x01], example_open).
Proof. apply (net_dispatch_stub (I:=iana_ids)). done. Defined.

Lemma example_run :
  rtc (net_step (P:=small_params) (I:=matching_ids)) (NetState example_sim [])
    (NetState (set_sent example_open [[Byte.x01]]) [(1, example_tcp_session)]).
Proof.
  eapply rtc_l; [exact (step_init (NetState example_sim []) _ _ _ _ _ _ _
                          (example_init matching_ids))|].
  eapply rtc_l; [|apply rtc_refl].
  exact (step_send (I:=matching_ids)
           (NetState example_open [(1, example_tcp_session)]) 0 1
           example_tcp_session [Byte.x01] 1 1 _ eq_refl eq_refl).
Qed.

Lemma net_inv_reachable_witness :
  net_inv example_sim
    (NetState (set_sent example_open [[Byte.x01]]) [(1, example_tcp_session)]).
Proof.
  exact (net_inv_reachable (P:=small_params) (I:=matching_ids) _ _ example_run).
Defined.

Lemma net_sessions_wf_witness :
  sessions_wf (P:=small_params) (I:=matching_ids)
    (NetState (set_sent example_open [[Byte.x01]]) [(1, example_tcp_session)]).
Proof.
  exact (net_sessions_wf (P:=small_params) (I:=matching_ids) _ _ example_run).
Defined.

Lemma net_closed_no_leak_witness :
  same_resources example_sim (set_sent example_sim [[Byte.x01]]).
Proof.
  apply (net_closed_no_leak (P:=small_params) (I:=matching_ids) example_sim
           (NetState (set_sent example_sim [[Byte.x01]]) [])); [|done].
  etrans; [exact example_run|].
  eapply rtc_l; [|apply rtc_refl].
  exact (step_free (I:=matching_ids)
           (NetState (set_sent example_open [[Byte.x01]]) [(1, example_tcp_session)])
           0 1 example_tcp_session 0 (set_sent example_sim [[Byte.x01]])
           eq_refl eq_refl).
Defined.

Lemma net_release_all_witness :
  exists st',
    nsteps free_step 1
      (NetState (set_sent example_open [[Byte.x01]]) [(1, example_tcp_session)])
      st' /\
    rtc (net_step (P:=small_params) (I:=matching_ids))
      (NetState (set_sent example_open [[Byte.x01]]) [(1, example_tcp_session)])
      st' /\
    sessions st' = [] /\ same_resources example_sim (world st').
Proof.
  exact (net_release_all (P:=small_params) (I:=matching_ids) _ _ example_run).
Defined.

End Witnesses.
