(* ===== verification/NetHeap.v ===== *)
(** * NetHeap: sessions behind pointers (src/src/net.c)

    [net_free], [net_send] and [net_recv] take a [session_t *] and read the
    session through it.  This file puts the sessions of [Net.v] in a heap
    of cells, live or freed, and gives the three functions, and [net_init],
    their pointer arguments and results: reading through a pointer that is
    null, was never returned by [net_init], or was freed, is undefined
    behaviour, [Fault InvalidPointer] in the model.  The calls that are
    defined are the steps of [heap_step]; its runs refine the life cycle
    [net_step] of [Net.v], which gives the invariants of the heap: a pointer
    can be read exactly when its block is one that the session layer
    allocated and has not freed, and what is read through it is the session
    [net_init] made, until [net_free] is called on that pointer. *)

From Stdlib Require Import String.
From stdpp Require Import strings gmap relations.
From S2P Require Import Prelude.
From S2P Require Import Layout.
From S2P Require Import Net.

(* [set_solver] clears hypotheses by names that may be gone *)
#[local] Set Warnings "-clear-no-such-hyp".

(** ** The heap of sessions *)

(** What is at an address that [net_init] once returned. *)
Inductive cell : Type :=
| Live (s : session)
| Freed.

Section Code.
Context `{P : IpParams} `{I : ProtoIds} {W : Type} `{System W}.

Record heap_state : Type := HeapState {
  hs_world : W;
  hs_cells : gmap Z cell;
}.

(** [*session]: the session at [p], when [p] points to one. *)
Definition deref (cells : gmap Z cell) (p : Z) : result session :=
  match cells !! p with
  | Some (Live s) => Ok s
  | _ => Fault InvalidPointer
  end.

(** [session_t *net_init(...)]: the pointer returned, 0 for the null
    pointer. *)
Definition net_init_p (st : heap_state) (interface : string)
    (src_ip : list byte) (port protocol : Z) : result (Z * heap_state) :=
  let* '(o, w) := net_init (hs_world st) interface src_ip port protocol in
  match o with
  | None => Ok (0, HeapState w (hs_cells st))
  | Some (p, s) => Ok (p, HeapState w (<[p := Live s]> (hs_cells st)))
  end.

(** [int net_free(session_t *session)]. *)
Definition net_free_p (st : heap_state) (session : Z) : result (Z * heap_state) :=
  let* s := deref (hs_cells st) session in
  let '(err, w) := net_free (hs_world st) session (session_id s) in
  Ok (err, HeapState w (<[session := Freed]> (hs_cells st))).

(** [size_t net_send(session_t *session, data, data_len)]. *)
Definition net_send_p (st : heap_state) (session : Z) (data : list byte)
    (data_len : Z) : result (Z * heap_state) :=
  let* s := deref (hs_cells st) session in
  let '(r, w) := net_send (hs_world st) s data data_len in
  Ok (r, HeapState w (hs_cells st)).

(** [size_t net_recv(session_t *session, buffer, buffer_len)]. *)
Definition net_recv_p (st : heap_state) (session : Z) (buffer : list byte)
    (buffer_len : Z) : result (Z * list byte * heap_state) :=
  let* s := deref (hs_cells st) session in
  let '(r, buffer, w) := net_recv (hs_world st) s buffer buffer_len in
  Ok (r, buffer, HeapState w (hs_cells st)).

(** ** The calls with defined behaviour *)

Inductive heap_step : heap_state -> heap_state -> Prop :=
| hstep_init st iface src_ip port protocol p st' :
    net_init_p st iface src_ip port protocol = Ok (p, st') ->
    heap_step st st'
| hstep_free st p err st' :
    net_free_p st p = Ok (err, st') ->
    heap_step st st'
| hstep_send st p data data_len r st' :
    net_send_p st p data data_len = Ok (r, st') ->
    heap_step st st'
| hstep_recv st p buffer buffer_len r buffer' st' :
    net_recv_p st p buffer buffer_len = Ok (r, buffer', st') ->
    heap_step st st'.

(** A state of the life cycle of [Net.v] describes a heap: same system, and
    the sessions held are the live cells. *)
Definition abstracts (w0 : W) (st : net_state W) (hst : heap_state) : Prop :=
  world st = hs_world hst /\
  net_inv w0 st /\
  forall p s, (p, s) ∈ sessions st <-> hs_cells hst !! p = Some (Live s).

End Code.

Arguments heap_state : clear implicits.

(** The heap of [example_sim] after [net_init] on "eth0" for TCP. *)
Definition example_heap : heap_state sim :=
  HeapState example_open {[1 := Live example_tcp_session]}.

(** The same heap after a second [net_init] on "eth0", for UDP on port 81. *)
Definition example_udp_session : session := {|
  session_id := 1;
  src_addr := [Byte.x02; Byte.x00; Byte.x00; Byte.x00; Byte.x00; Byte.x01];
  src_ip := example_src;
  port := 81;
  protocol := 17;
|}.

Definition example_heap_two : heap_state sim :=
  HeapState (set_links (set_heap example_sim {[1; 2]}) {[0; 1]})
    (<[2 := Live example_udp_session]> {[1 := Live example_tcp_session]}).

(** ** Reading through a pointer *)

Section Deref.
Implicit Types (cells : gmap Z cell) (p : Z) (s : session).

Lemma deref_Ok cells p s : deref cells p = Ok s <-> cells !! p = Some (Live s).
Proof.
  unfold deref. destruct (cells !! p) as [[t|]|]; split; intros [= ->]; done.
Qed.

End Deref.

(** ** The runs of the heap refine the life cycle *)

Section Refinement.
Context `{P : IpParams} `{I : ProtoIds} {W : Type} `{SystemLaws W}.
Implicit Types (w : W) (s : session) (st : net_state W) (hst : heap_state W).

Lemma abstracts_initial w0 : abstracts w0 (NetState w0 []) (HeapState w0 ∅).
Proof.
  split_and!; [done|apply net_inv_initial|]. intros p s. cbn.
  rewrite lookup_empty, elem_of_nil. naive_solver.
Qed.

(** A live cell is a session held, at some index. *)
Lemma abstracts_held w0 st hst p s :
  abstracts w0 st hst -> deref (hs_cells hst) p = Ok s ->
  exists i, sessions st !! i = Some (p, s).
Proof.
  intros (_ & _ & Hcells) Hd%deref_Ok. by apply list_elem_of_lookup_1, Hcells.
Qed.

(** The system changes, the sessions stay. *)
Lemma abstracts_same w0 st hst st' w' :
  abstracts w0 st hst -> net_step st st' ->
  world st' = w' -> sessions st' = sessions st ->
  abstracts w0 st' (HeapState w' (hs_cells hst)).
Proof.
  intros (Hw & Hinv & Hcells) Hstep <- Hs.
  split_and!; [done|by eapply net_inv_step|]. by rewrite Hs.
Qed.

Lemma abstracts_init w0 st hst iface ip port proto p s w' :
  abstracts w0 st hst ->
  net_init (world st) iface ip port proto = Ok (Some (p, s), w') ->
  abstracts w0 (NetState w' ((p, s) :: sessions st))
    (HeapState w' (<[p := Live s]> (hs_cells hst))).
Proof.
  intros (Hw & Hinv & Hcells) Hi.
  assert (Hinv' : net_inv w0 (NetState w' ((p, s) :: sessions st))).
  { eapply net_inv_step; [done|]. by eapply step_init. }
  split_and!; [done..|]. intros q t. cbn.
  destruct Hinv' as (Hnd & _). cbn in Hnd. apply list.NoDup_cons in Hnd as [Hp _].
  rewrite elem_of_cons, Hcells. destruct (decide (q = p)) as [->|Hne].
  - rewrite lookup_insert_eq. split; [|naive_solver].
    intros [[= ->] | Hin]; [done|]. destruct Hp.
    apply list_elem_of_fmap. exists (p, t). split; [done|]. by apply Hcells.
  - rewrite lookup_insert_ne by done. naive_solver.
Qed.

Lemma abstracts_free w0 st hst i p s err w' :
  abstracts w0 st hst -> sessions st !! i = Some (p, s) ->
  net_free (world st) p (session_id s) = (err, w') ->
  abstracts w0 (NetState w' (delete i (sessions st)))
    (HeapState w' (<[p := Freed]> (hs_cells hst))).
Proof.
  intros (Hw & Hinv & Hcells) Hi Hf.
  assert (Hinv' : net_inv w0 (NetState w' (delete i (sessions st)))).
  { eapply net_inv_step; [done|]. by eapply step_free. }
  split_and!; [done..|]. intros q t. cbn.
  destruct Hinv as (Hnd & _). destruct (decide (q = p)) as [->|Hne].
  - rewrite lookup_insert_eq. split; [|done]. intros Hin. exfalso.
    eapply (not_elem_of_delete (sessions st).*1 i p); [done|by rewrite list_lookup_fmap, Hi|].
    rewrite <-list_fmap_delete. apply list_elem_of_fmap. by exists (p, t).
  - rewrite lookup_insert_ne, <-Hcells by done. split; [apply elem_of_delete|].
    apply (elem_of_delete_ne _ i (p, s)); [done|congruence].
Qed.

(** A call through a pointer that returned has read a session that is
    held: splits the call [Hc] at its [deref]. *)
Ltac held_session Habs Hw Hc :=
  let s := fresh "s" in
  let Hd := fresh "Hd" in
  apply bind_Ok_inv in Hc as (s & Hd & Hc);
  destruct (abstracts_held _ _ _ _ _ Habs Hd) as [? ?]; rewrite <-Hw in Hc.

(** One call on the heap is one step of the life cycle. *)
Lemma heap_step_refines w0 st hst hst' :
  abstracts w0 st hst -> heap_step hst hst' ->
  exists st', net_step st st' /\ abstracts w0 st' hst'.
Proof.
  intros Habs Hstep. pose proof Habs as (Hw & _).
  destruct Hstep as [hst iface ip port proto p hst' Hc | hst p err hst' Hc
                    | hst p data n r hst' Hc | hst p buf n r buf' hst' Hc];
    rewrite <-?Hw in Hc.
  - apply bind_Ok_inv in Hc as ([[[q s]|] w'] & Hi & [= <- <-]).
    + rewrite <-Hw in Hi. eexists. split; [by eapply step_init|].
      by eapply abstracts_init.
    + rewrite <-Hw in Hi. eexists. split; [by eapply step_init_failed|].
      eapply abstracts_same; [done|by eapply step_init_failed|done..].
  - held_session Habs Hw Hc.
    destruct (net_free _ _ _) as [e w'] eqn:Hf. injection Hc as <- <-.
    eexists. split; [by eapply step_free|]. by eapply abstracts_free.
  - held_session Habs Hw Hc.
    destruct (net_send _ _ _ _) as [r' w'] eqn:Hs. injection Hc as <- <-.
    eexists. split; [by eapply step_send|].
    eapply abstracts_same; [done|by eapply step_send|done..].
  - held_session Habs Hw Hc.
    destruct (net_recv _ _ _ _) as [[r' b'] w'] eqn:Hs. injection Hc as <- <- <-.
    eexists. split; [by eapply step_recv|].
    eapply abstracts_same; [done|by eapply step_recv|done..].
Qed.

Lemma heap_run_abstracts w0 st hst hst' :
  abstracts w0 st hst -> rtc heap_step hst hst' ->
  exists st', rtc net_step st st' /\ abstracts w0 st' hst'.
Proof.
  intros Habs Hrun. revert st Habs.
  induction Hrun as [hst|hst hst1 hst' Hstep _ IH]; intros st Habs;
    [exists st; split; [apply rtc_refl|done]|].
  destruct (heap_step_refines _ _ _ _ Habs Hstep) as (st1 & Hs & Habs1).
  destruct (IH _ Habs1) as (st' & Hr & Habs'). eauto using rtc_l.
Qed.

(** C14: refinement.  Every run of calls on the heap that has defined
    behaviour, from the empty heap, is a run of the life cycle of [Net.v]:
    there is a state of the life cycle, reached by the same calls, with the
    same system and with the live cells as the sessions held. *)
Theorem heap_run_refines w0 hst :
  rtc heap_step (HeapState w0 ∅) hst ->
  exists st, rtc net_step (NetState w0 []) st /\ abstracts w0 st hst.
Proof. apply heap_run_abstracts, abstracts_initial. Qed.

(** The live cells of a reachable heap hold well-formed sessions, and none
    is at the null pointer. *)
Lemma heap_live_wf w0 hst p s :
  rtc heap_step (HeapState w0 ∅) hst ->
  hs_cells hst !! p = Some (Live s) ->
  p <> 0 /\ session_wf s.
Proof.
  intros Hrun Hp.
  destruct (heap_run_abstracts w0 (NetState w0 []) _ _ (abstracts_initial w0) Hrun)
    as (st & Hst & _ & _ & Hcells).
  apply Hcells in Hp.
  pose proof (sessions_wf_run _ _ (sessions_wf_initial w0) Hst) as Hwf.
  unfold sessions_wf in Hwf. rewrite list.Forall_forall in Hwf.
  exact (Hwf _ Hp).
Qed.

(** C26: a pointer can be read exactly when its block is live.  In every
    heap reached from the empty one, [*p] is defined if and only if [p] is
    a block that is allocated now and was not when the session layer
    started: the blocks that [net_init] returned and [net_free] has not
    freed. *)
Theorem deref_defined_iff_allocated w0 hst p :
  rtc heap_step (HeapState w0 ∅) hst ->
  (exists s, deref (hs_cells hst) p = Ok s)
  <-> p ∈ allocated (hs_world hst) ∖ allocated w0.
Proof.
  intros Hrun.
  destruct (heap_run_abstracts w0 (NetState w0 []) _ _ (abstracts_initial w0) Hrun)
    as (st & _ & Hw & Hinv & Hcells).
  destruct Hinv as (_ & _ & Hp0 & _ & Ha & _). rewrite <-Hw, Ha.
  setoid_rewrite deref_Ok. setoid_rewrite <-Hcells.
  rewrite elem_of_difference, elem_of_union, elem_of_list_to_set, list_elem_of_fmap.
  split.
  - intros [s Hin]. assert (p ∈ (sessions st).*1) as Hin'.
    { apply list_elem_of_fmap. by exists (p, s). }
    split; [left; by exists (p, s)|by apply Hp0].
  - intros [[([q s] & -> & Hin) | Hin] Hn]; [by exists s|done].
Qed.

(** The block of a live cell is allocated. *)
Lemma live_allocated w0 hst p s :
  rtc heap_step (HeapState w0 ∅) hst ->
  hs_cells hst !! p = Some (Live s) ->
  p ∈ allocated (hs_world hst).
Proof.
  intros Hrun Hp.
  destruct (heap_run_abstracts w0 (NetState w0 []) _ _ (abstracts_initial w0) Hrun)
    as (st & _ & Hw & Hinv & Hcells).
  destruct Hinv as (_ & _ & _ & _ & Ha & _). rewrite <-Hw, Ha.
  apply elem_of_union_l, elem_of_list_to_set, list_elem_of_fmap.
  exists (p, s). split; [done|]. by apply Hcells.
Qed.

(** The pointer [net_init] returns is not one a session is read through:
    [malloc] hands out a block that was not allocated, and the live cells
    are allocated. *)
Lemma net_init_fresh w0 hst iface ip port proto p s w' t :
  rtc heap_step (HeapState w0 ∅) hst ->
  net_init (hs_world hst) iface ip port proto = Ok (Some (p, s), w') ->
  hs_cells hst !! p <> Some (Live t).
Proof.
  intros Hrun (_ & _ & Hp & _)%net_init_resources Ht.
  destruct Hp. by eapply live_allocated.
Qed.

(** C28: a session does not change behind its pointer.  In every heap
    reached from the empty one, a call of [net_init], [net_free],
    [net_send] or [net_recv] leaves what is read through a live pointer as
    it was, unless the call is [net_free] on that pointer: [net_init] never
    returns a pointer that is in use, and no call writes to a session of
    another pointer. *)
Theorem live_session_stable w0 hst hst' p s :
  rtc heap_step (HeapState w0 ∅) hst ->
  heap_step hst hst' ->
  deref (hs_cells hst) p = Ok s ->
  deref (hs_cells hst') p = Ok s \/
  exists err, net_free_p hst p = Ok (err, hst').
Proof.
  intros Hrun Hstep Hp%deref_Ok.
  destruct Hstep as [hst iface ip port proto q hst' Hc | hst q err hst' Hc
                    | hst q data n r hst' Hc | hst q buf n r buf' hst' Hc].
  - left. apply deref_Ok.
    apply bind_Ok_inv in Hc as ([[[q' t]|] w'] & Hi & [= <- <-]); [cbn|done].
    rewrite lookup_insert_ne; [done|]. intros ->.
    by destruct (net_init_fresh _ _ _ _ _ _ _ _ _ s Hrun Hi).
  - destruct (decide (q = p)) as [->|Hne]; [right; by exists err|left].
    apply bind_Ok_inv in Hc as (t & _ & Hc).
    destruct (net_free _ _ _) as [e w']. injection Hc as <- <-.
    apply deref_Ok. cbn. by rewrite lookup_insert_ne.
  - left. apply bind_Ok_inv in Hc as (t & _ & Hc).
    destruct (net_send _ _ _ _) as [r' w']. injection Hc as <- <-. by apply deref_Ok.
  - left. apply bind_Ok_inv in Hc as (t & _ & Hc).
    destruct (net_recv _ _ _ _) as [[r' b'] w']. injection Hc as <- <- <-.
    by apply deref_Ok.
Qed.

End Refinement.

(** ** The theorems at concrete inputs *)

Section Witnesses.

Lemma example_heap_init :
  net_init_p (P:=small_params) (I:=matching_ids) (HeapState example_sim ∅)
    "eth0" example_src 80 6
  = Ok (1, example_heap).
Proof. by vm_compute. Qed.

Lemma example_heap_run :
  rtc (heap_step (P:=small_params) (I:=matching_ids))
    (HeapState example_sim ∅) example_heap.
Proof.
  eapply rtc_l; [|apply rtc_refl].
  exact (hstep_init _ _ _ _ _ _ _ example_heap_init).
Qed.

Lemma heap_run_refines_witness :
  exists st,
    rtc (net_step (P:=small_params) (I:=matching_ids)) (NetState example_sim []) st /\
    abstracts example_sim st example_heap.
Proof. exact (heap_run_refines _ _ example_heap_run). Defined.

Lemma deref_defined_iff_allocated_witness :
  (exists s, deref (hs_cells example_heap) 1 = Ok s)
  <-> 1 ∈ allocated (hs_world example_heap) ∖ allocated example_sim.
Proof.
  exact (deref_defined_iff_allocated (P:=small_params) (I:=matching_ids)
           _ _ 1 example_heap_run).
Defined.

Lemma example_heap_init_two :
  net_init_p (P:=small_params) (I:=matching_ids) example_heap
    "eth0" example_src 81 17
  = Ok (2, example_heap_two).
Proof. by vm_compute. Qed.

Lemma live_session_stable_witness :
  deref (hs_cells example_heap_two) 1 = Ok example_tcp_session \/
  exists err, net_free_p example_heap 1 = Ok (err, example_heap_two).
Proof.
  apply (live_session_stable (P:=small_params) (I:=matching_ids) example_sim
           example_heap _ 1 example_tcp_session example_heap_run
           (hstep_init _ _ _ _ _ _ _ example_heap_init_two)).
  reflexivity.
Defined.

End Witnesses.
