(* ===== verification/Stack.v ===== *)
(** * Stack: a session of [net.c] used by the functions of [ip.c]

    [net_init] fills the session that [ip_send], [ip_recv] and [ip_chksum]
    read.  This file composes the components: the session that [net_init]
    returns ([opens]) satisfies what the functions of [ip.c] need of it, and a
    payload sent by one session and received by another, over a link that
    delivers what it is handed, arrives with a checksum that the receiver
    computes to the same value as the sender. *)

From Stdlib Require Import String.
From stdpp Require Import strings gmap.
From S2P Require Import Prelude.
From S2P Require Import Layout.
From S2P Require Import Checksum.
From S2P Require Import Link.
From S2P Require Import Packet.
From S2P Require Import Send.
From S2P Require Import Recv.
From S2P Require Import Net.

(** The session of a peer, opened second on [example_sim], and the system
    with both sessions open. *)
Definition example_peer_session : session := {|
  session_id := 1;
  src_addr := [Byte.x02; Byte.x00; Byte.x00; Byte.x00; Byte.x00; Byte.x01];
  src_ip := example_dst;
  port := 81;
  protocol := 6;
|}.

Definition example_open2 : sim :=
  set_links (set_heap example_sim {[1; 2]}) {[0; 1]}.

Section Code.
Context `{P : IpParams} `{I : ProtoIds} {W : Type} `{System W}.

(** [net_init] on the system [w], asked for the address [a] of
    [IP_ADDR_LEN] bytes, returns the session [s] at the pointer [p] and
    leaves the system [w']. *)
Definition opens (w : W) (iface : string) (a : list byte) (port proto : Z)
    (p : Z) (s : session) (w' : W) : Prop :=
  net_init w iface a port proto = Ok (Some (p, s), w') /\
  Z.of_nat (length a) = IP_ADDR_LEN.

End Code.

Section Stack.
Context `{P : IpParams} `{I : ProtoIds}.
Context {W : Type} `{SystemLaws W} {L : Type} `{LinkLayer L}.
Implicit Types (w : W) (l : L) (s : session).
Implicit Types (stack dst data out src : list byte).

(** ** A well-formed session is what [ip.c] needs *)

Lemma session_wf_send_args s dst data n :
  session_wf s -> IP_ADDR_LEN <= Z.of_nat (length dst) ->
  0 <= n <= Z.of_nat (length data) ->
  send_args_ok s dst data n.
Proof. intros (Hs & _) ? ?. unfold send_args_ok. lia. Qed.

Lemma session_wf_chksum_args s dst data n :
  session_wf s -> IP_ADDR_LEN <= Z.of_nat (length dst) ->
  0 <= n <= IP_DATA_MAX_LEN -> n <= Z.of_nat (length data) ->
  chksum_args_ok s dst data n.
Proof. intros (Hs & _) ? ? ?. unfold chksum_args_ok. lia. Qed.

(** The source address of a session is the address given to [net_init]. *)
Lemma net_init_src_ip w iface src port proto p s w' :
  net_init w iface src port proto = Ok (Some (p, s), w') ->
  Z.of_nat (length src) = IP_ADDR_LEN ->
  src_ip s = src.
Proof.
  intros (-> & _)%net_init_fields Hlen. by apply slice_full.
Qed.

(** A session made by [net_init] sends.  With the session that
    [net_init] returned for the source address [src], and a link that takes
    the packet whole, [ip_send] touches no byte outside its objects, hands
    the link one frame and returns the clamped length; the source address
    in the header of the frame is [src] and the destination address is the
    one asked for. *)
Theorem net_session_ip_send w iface src port proto p s w'
    fuel stack l l' dst protocol data data_len :
  opens w iface src port proto p s w' ->
  Z.of_nat (length dst) = IP_ADDR_LEN ->
  0 <= data_len <= Z.of_nat (length data) ->
  let n := Z.min data_len IP_DATA_MAX_LEN in
  let frame := ip_header s dst protocol n ++ slice data 0 n in
  eth_send l s multicast_hw frame = (IP_HEADER_LEN + n, l') ->
  ip_send (S fuel) stack l s dst protocol data data_len = Ok (l', n) /\
  hdr_src_ip frame = src /\ hdr_dst_ip frame = dst /\
  hdr_payload_length frame = n.
Proof.
  intros [Hi Hsrc] Hdst Hlen n frame Hsend.
  pose proof (net_init_session_wf _ _ _ _ _ _ _ _ Hi) as [_ Hwf].
  assert (Hok : send_args_ok s dst data data_len)
    by (apply session_wf_send_args; [done|lia|done]).
  split; [by apply ip_send_all|].
  layout_facts.
  destruct (ip_header_fields s dst protocol n (slice data 0 n))
    as (_ & Hpl & _ & _ & Hs & Hd); [destruct Hwf; lia|lia|lia|].
  fold frame in Hpl, Hs, Hd.
  rewrite Hs, Hd, Hpl, (net_init_src_ip _ _ _ _ _ _ _ _ Hi Hsrc).
  by rewrite !slice_full.
Qed.

(** C6: end to end.  Two sessions made by [net_init], the sender for the
    address [a] and the receiver for the address [b], with addresses of even
    length, and a link that delivers what it is handed.  The sender computes
    the checksum of a payload that fits a packet and sends it to [b]; the
    receiver gets the payload and its length, and computes over it, with its
    own session and the sender's address as destination, the checksum that
    the sender computed: the two addresses change places in the
    pseudo-header, and the one's-complement sum does not depend on the order
    of the words. *)
Theorem stack_end_to_end w w1 w2 iface iface' a b port port' proto proto'
    p s p' s' fuel stack stack' l l1 l2 protocol data n out :
  opens w iface a port proto p s w1 ->
  opens w1 iface' b port' proto' p' s' w2 ->
  IP_ADDR_LEN mod 2 = 0 ->
  0 <= n <= IP_DATA_MAX_LEN -> n <= Z.of_nat (length data) ->
  n <= Z.of_nat (length out) ->
  let frame := ip_header s b protocol n ++ slice data 0 n in
  eth_send l s multicast_hw frame = (IP_HEADER_LEN + n, l1) ->
  eth_recv l1 s' = (frame, l2) ->
  exists out' c,
    ip_chksum stack s b protocol data n = Ok c /\
    ip_send (S fuel) stack l s b protocol data n = Ok (l1, n) /\
    ip_recv stack' l1 s' out = Ok (l2, n, out') /\
    slice out' 0 n = slice data 0 n /\
    ip_chksum stack' s' a protocol out' n = Ok c.
Proof.
  intros [Hi Ha] [Hi' Hb] Hev Hn Hdata Hout frame Hsend Hrecv.
  pose proof (net_init_session_wf _ _ _ _ _ _ _ _ Hi) as [_ Hwf].
  pose proof (net_init_session_wf _ _ _ _ _ _ _ _ Hi') as [_ Hwf'].
  pose proof (net_init_src_ip _ _ _ _ _ _ _ _ Hi Ha) as Hsa.
  pose proof (net_init_src_ip _ _ _ _ _ _ _ _ Hi' Hb) as Hsb.
  assert (Hok : send_args_ok s b data n)
    by (apply session_wf_send_args; [done|lia|lia]).
  assert (Hck : chksum_args_ok s b data n)
    by (apply session_wf_chksum_args; [done|lia|lia|lia]).
  set (out' := slice data 0 n ++ drop (Z.to_nat n) out).
  assert (Hslice : slice out' 0 n = slice data 0 n).
  { apply slice_app_l. rewrite length_slice; lia. }
  assert (Hck' : chksum_args_ok s' a out' n).
  { apply session_wf_chksum_args; [done|lia|lia|].
    unfold out'. rewrite length_app, length_slice, length_drop by lia. lia. }
  destruct (send_recv_pair fuel stack stack' l l1 l2 s s' b protocol data n out)
    as [Hs Hr]; [done|by rewrite Z.min_l by lia..|lia|].
  rewrite Z.min_l in Hs, Hr by lia.
  exists out', (65535 - ones_sum (words host_order (pseudo_bytes s b protocol data n))).
  split_and!; [by apply ip_chksum_value|done..|].
  rewrite <-(ip_chksum_value stack s b protocol data n) by done.
  apply ip_chksum_swap_addresses; [done..|by rewrite Hsb|by rewrite Hsa|done].
Qed.

End Stack.

(** ** The theorems at concrete inputs *)

Section Witnesses.

Lemma example_init_peer :
  net_init (P:=small_params) (I:=iana_ids) example_open "eth0" example_dst 81 0
  = Ok (Some (2, example_peer_session), example_open2).
Proof. by vm_compute. Qed.

Lemma net_session_ip_send_witness :
  @ip_send small_params loopback _ 1 example_stack (Loopback [])
    example_tcp_session example_dst Byte.x06 [Byte.x01; Byte.x02] 2
  = Ok (Loopback [@ip_header small_params example_tcp_session example_dst
                    Byte.x06 2 ++ [Byte.x01; Byte.x02]], 2) /\
  @hdr_src_ip small_params
    (@ip_header small_params example_tcp_session example_dst Byte.x06 2
     ++ [Byte.x01; Byte.x02]) = example_src /\
  @hdr_dst_ip small_params
    (@ip_header small_params example_tcp_session example_dst Byte.x06 2
     ++ [Byte.x01; Byte.x02]) = example_dst /\
  hdr_payload_length
    (@ip_header small_params example_tcp_session example_dst Byte.x06 2
     ++ [Byte.x01; Byte.x02]) = 2.
Proof.
  apply (net_session_ip_send (P:=small_params) (I:=iana_ids) (W:=sim)
           example_sim "eth0" example_src 80 0 1 example_tcp_session example_open
           0 example_stack (Loopback []) _ example_dst Byte.x06
           [Byte.x01; Byte.x02] 2 (conj (example_init iana_ids) eq_refl)).
  - reflexivity.
  - simpl. lia.
  - reflexivity.
Defined.

(** Four bytes from [example_src] to [example_dst] over the loopback. *)
Lemma stack_end_to_end_witness :
  exists out' c,
    @ip_chksum small_params example_stack example_tcp_session example_dst
      Byte.x06 example_payload 4 = Ok c /\
    @ip_send small_params loopback _ 1 example_stack (Loopback [])
      example_tcp_session example_dst Byte.x06 example_payload 4
    = Ok (Loopback [@ip_header small_params example_tcp_session example_dst
                      Byte.x06 4 ++ example_payload], 4) /\
    @ip_recv small_params loopback _ []
      (Loopback [@ip_header small_params example_tcp_session example_dst
                   Byte.x06 4 ++ example_payload])
      example_peer_session (replicate 8 Byte.xaa)
    = Ok (Loopback [], 4, out') /\
    slice out' 0 4 = slice example_payload 0 4 /\
    @ip_chksum small_params [] example_peer_session example_src Byte.x06 out' 4
    = Ok c.
Proof.
  apply (stack_end_to_end (P:=small_params) (I:=iana_ids) (W:=sim)
           example_sim example_open example_open2 "eth0" "eth0"
           example_src example_dst 80 81 0 0 1 example_tcp_session
           2 example_peer_session 0 example_stack [] (Loopback []) _ (Loopback [])
           Byte.x06 example_payload 4 (replicate 8 Byte.xaa)
           (conj (example_init iana_ids) eq_refl)
           (conj example_init_peer eq_refl)).
  - reflexivity.
  - simpl. lia.
  - simpl. lia.
  - simpl. lia.
  - reflexivity.
  - reflexivity.
Defined.

End Witnesses.
