(* ===== verification/Pointers.v ===== *)
(** * Pointers: the functions of [ip.c] through the session pointer
    (src/src/ip.c, lines 39-78 and 121-137; src/src/net.c)

    [ip_send] and [ip_chksum] take a [session_t *] and read
    [session->src_ip] through it (lines 52 and 125), before any access that
    can leave an object.  [ip_send_p] and [ip_chksum_p] are the two
    functions on a heap of sessions of [NetHeap.v].  The theorems join the
    two source files: what [net.c] guarantees of the sessions it hands out
    ([sessions_wf], carried to the heap by the refinement of [NetHeap.v])
    is what [ip.c] needs of the session it is given
    ([reachable_session_usable]).  Neither function tests its pointer:
    through one that [net_free] has taken back, or the null pointer that
    [net_init] returns when it fails, the read is undefined behaviour, by
    the definition of [deref]. *)

From Stdlib Require Import String.
From stdpp Require Import strings gmap relations.
From S2P Require Import Prelude.
From S2P Require Import Layout.
From S2P Require Import Checksum.
From S2P Require Import Link.
From S2P Require Import Packet.
From S2P Require Import Send.
From S2P Require Import SendRef.
From S2P Require Import Net.
From S2P Require Import NetHeap.
From S2P Require Import Stack.

Section Code.
Context `{P : IpParams} {L : Type} `{LinkLayer L}.

(** [size_t ip_send(session_t *session, dst_ip, protocol, data, data_len)]. *)
Definition ip_send_p (fuel : nat) (stack : list byte) (cells : gmap Z cell)
    (l : L) (session : Z) (dst_ip : list byte) (protocol : byte)
    (data : list byte) (data_len : Z) : result (L * Z) :=
  let* s := deref cells session in
  ip_send fuel stack l s dst_ip protocol data data_len.

(** [uint16_t ip_chksum(session_t *session, dst_ip, protocol, data, data_len)]. *)
Definition ip_chksum_p (stack : list byte) (cells : gmap Z cell)
    (session : Z) (dst_ip : list byte) (protocol : byte)
    (data : list byte) (data_len : Z) : result Z :=
  let* s := deref cells session in
  ip_chksum stack s dst_ip protocol data data_len.

End Code.

Section Theory.
Context `{P : IpParams} `{I : ProtoIds}.
Context {W : Type} `{SystemLaws W} {L : Type} `{LinkLayer L}.
Implicit Types (w : W) (l : L) (s : session) (hst : heap_state W) (p : Z).
Implicit Types (stack dst data : list byte).

(** C12: what [net.c] hands out is what [ip.c] needs.  In every heap reached
    by calls of [net_init], [net_free], [net_send] and [net_recv], through
    every pointer to a session that is live, and for a destination of
    [IP_ADDR_LEN] bytes and a payload of [data_len] bytes at least:
    [ip_send] over a link that reports no more than it was handed is the
    transmitter on lists for that session, and [ip_chksum] of a payload
    that fits returns the complement of the sum of the pseudo-header and
    the payload.  No precondition on the session is left to the caller. *)
Theorem reachable_session_usable w0 hst p s fuel stack l dst protocol data data_len :
  rtc heap_step (HeapState w0 ∅) hst ->
  hs_cells hst !! p = Some (Live s) ->
  honest L ->
  Z.of_nat (length dst) = IP_ADDR_LEN ->
  0 <= data_len <= Z.of_nat (length data) ->
  ip_send_p fuel stack (hs_cells hst) l p dst protocol data data_len
  = send_ref fuel stack l s dst protocol data data_len /\
  (data_len <= IP_DATA_MAX_LEN ->
   ip_chksum_p stack (hs_cells hst) p dst protocol data data_len
   = Ok (65535 - ones_sum (words host_order
                             (pseudo_bytes s dst protocol data data_len)))).
Proof.
  intros Hrun Hp Hl Hdst Hlen.
  destruct (heap_live_wf _ _ _ _ Hrun Hp) as [_ Hwf].
  apply deref_Ok in Hp. unfold ip_send_p, ip_chksum_p. rewrite Hp. cbn [bind].
  split.
  - apply ip_send_send_ref; [done|]. apply session_wf_send_args; [done|lia|done].
  - intros Hmax. apply ip_chksum_value.
    apply session_wf_chksum_args; [done|lia|lia|lia].
Qed.

End Theory.

(** ** The theorems at concrete inputs *)

Section Witnesses.

Lemma reachable_session_usable_witness :
  ip_send_p (P:=small_params) (L:=loopback) 1 example_stack
    (hs_cells example_heap) (Loopback []) 1 example_dst Byte.x06
    example_payload 4
  = send_ref (P:=small_params) 1 example_stack (Loopback [])
      example_tcp_session example_dst Byte.x06 example_payload 4 /\
  (4 <= @IP_DATA_MAX_LEN small_params ->
   ip_chksum_p (P:=small_params) example_stack (hs_cells example_heap) 1
     example_dst Byte.x06 example_payload 4
   = Ok (65535 - ones_sum (words (@host_order small_params)
                             (@pseudo_bytes small_params example_tcp_session
                                example_dst Byte.x06 example_payload 4)))).
Proof.
  apply (reachable_session_usable (P:=small_params) (I:=matching_ids)
           example_sim example_heap 1 example_tcp_session 1 example_stack
           (Loopback []) example_dst Byte.x06 example_payload 4
           example_heap_run).
  - reflexivity.
  - apply loopback_honest.
  - reflexivity.
  - simpl. lia.
Defined.

End Witnesses.
